(** * Row materialisation: the tagged-tuple projector and the auto-sizing
      fixed-width transform

    A shallow embedding of
    - [go/libraries/doltcore/sqle/dolt_map_iter.go] (package [sqle]):
      [KVToSqlRowConverter], [getValLocations], [ConvertKVToSqlRow],
      [processTuple];
    - package [fwt]: [AutoSizingFWTTransformer] with [TransformToFWT],
      [handleRow], [flush] and [processRow];
    - the row source of package [sqle]: [GetGetFuncForMapIter] and
      [DoltMapIter];
    - [go/libraries/doltcore/env/paths.go] (package [env]) and
      [nomdl/codegen/test/enum_struct.go] (package [test]).

    Go values are modelled as follows.
    - [uint64] tags are [N]; no arithmetic is done on them, only comparisons.
    - [int] is [Z]; slice indexing with an [int] outside the slice panics.
    - an interface value that may be [nil] is an [option].
    - a Go function returning [(x, error)] returns a pair whose second
      component is an [option error].
    - a run-time panic is the outcome [Panicked].
    - a channel the stage sends on is the list of the items that have gone
      through it, oldest first.  Module [fwt] takes every send to complete,
      which is all the contents of the queues depend on; module [blocking]
      has sends that wait until the channel takes the item. *)

From Stdlib Require Import ZArith NArith Lia Sorted.
From stdpp Require Import gmap strings list fin_maps.

Local Open Scope Z_scope.
Local Set Warnings "-register-all".

(** ** Outcomes of a Go call *)

Inductive Outcome (A : Type) : Type :=
| Returned (a : A)
| Panicked.
Arguments Returned {A} a.
Arguments Panicked {A}.

#[global] Instance Outcome_ret : MRet Outcome := fun _ a => Returned a.
#[global] Instance Outcome_bind : MBind Outcome := fun _ _ f o =>
  match o with
  | Returned a => f a
  | Panicked => Panicked
  end.

Definition error := string.

(** ** The value model of [store/types] *)

Module types.

(** The noms values the code distinguishes by kind.  [Other k] stands for
    every kind that is none of the named ones. *)
Inductive Value : Type :=
| Null
| Uint (n : N)
| String (s : string)
| Tuple (items : list Value)
| Other (kind : N).

(** [types.IsNull(v)]: a nil interface or a value of the null kind. *)
Definition IsNull (v : option Value) : bool :=
  match v with
  | None => true
  | Some Null => true
  | Some _ => false
  end.

(** Modelled from the spec: the Tuple Cursor ([types.TupleIterator], not part
    of these sources) is a "sequential decoder over one serialized tuple,
    yielding (tag, value) pairs in the tuple's stored order".  A tuple is the
    flat sequence tag, value, tag, value, ... and the cursor is the part of
    it that is still to be read.  The model decodes without error, so the
    [err != nil] returns that follow [InitForTuple], [Next] and [Skip] in the
    source have no counterpart. *)
Definition TupleIterator := list Value.

(** [tupItr.InitForTuple(tup)]. *)
Definition InitForTuple (tup : list Value) : TupleIterator := tup.

(** The value [tupItr.Next()] yields: [nil] once the tuple is exhausted. *)
Definition NextVal (itr : TupleIterator) : option Value := head itr.

(** The cursor after [tupItr.Next()] or [tupItr.Skip()]. *)
Definition Advance (itr : TupleIterator) : TupleIterator :=
  match itr with
  | [] => itr
  | _ :: itr' => itr'
  end.

(** Modelled from the spec: the zero [types.Tuple] that stands for an absent
    value is "treated as containing no value-column contributions". *)
Definition zeroTuple : list Value := [].

End types.

Import types.

(** ** package sqle *)

Definition maxU64 (x y : N) : N :=
  if (y <? x)%N then x else y.

Definition MaxUint64 : N := 0xFFFFFFFFFFFFFFFF%N.

(** A [sql.Row] is a slice of [interface{}] slots; a [nil] slot is [None],
    and [SqlVal] is the dynamic type behind the others. *)
Abbreviation Row SqlVal := (list (option SqlVal)) (only parsing).

Section Projector.

Context {SqlVal : Type}.

(** [schema.Column], restricted to the fields the converter reads.
    [TypeInfo] is [col.TypeInfo.ConvertNomsValueToValue]. *)
Record Column := {
  Tag : N;
  IsPartOfPK : bool;
  TypeInfo : option Value -> option SqlVal * option error
}.

Record KVToSqlRowConverter := {
  tagToSqlColIdx : gmap N Z;
  cols : list Column;
  rowSize : Z;
  valsFromKey : Z;
  valsFromVal : Z;
  maxValTag : N
}.

(** One turn of the [for _, col := range cols] loop of [getValLocations]. *)
Definition getValLocations_step (tagToSqlColIdx : gmap N Z)
    (acc : Z * Z * N) (col : Column) : Z * Z * N :=
  let '(fromKey, fromVal, maxValTag) := acc in
  match tagToSqlColIdx !! Tag col with
  | Some _ =>
      if IsPartOfPK col then (fromKey + 1, fromVal, maxValTag)
      else (fromKey, fromVal + 1, maxU64 maxValTag (Tag col))
  | None => acc
  end.

Definition getValLocations (tagToSqlColIdx : gmap N Z) (cols : list Column)
    : Z * Z * N :=
  foldl (getValLocations_step tagToSqlColIdx) (0, 0, 0%N) cols.

Definition NewKVToSqlRowConverter (tagToSqlColIdx : gmap N Z)
    (cols : list Column) (rowSize : Z) : KVToSqlRowConverter :=
  let '(valsFromKey, valsFromVal, maxValTag) :=
    getValLocations tagToSqlColIdx cols in
  {| tagToSqlColIdx := tagToSqlColIdx;
     cols := cols;
     rowSize := rowSize;
     valsFromKey := valsFromKey;
     valsFromVal := valsFromVal;
     maxValTag := maxValTag |}.

(** [tagToSqlColIdx[col.Tag] = i] for every column, in order. *)
Definition tagIndexOfCols (cols : list Column) : gmap N Z :=
  foldl (fun m '(i, col) => <[Tag col := Z.of_nat i]> m) ∅
        (imap (fun i col => (i, col)) cols).

Definition NewKVToSqlRowConverterForCols (cols : list Column)
    : KVToSqlRowConverter :=
  NewKVToSqlRowConverter (tagIndexOfCols cols) cols (Z.of_nat (length cols)).

(** Slice indexing by an [int]: [None] is the index-out-of-range panic. *)
Definition index {A} (l : list A) (i : Z) : option A :=
  if (i <? 0) then None else l !! Z.to_nat i.

Definition inRange {A} (l : list A) (i : Z) : bool :=
  (0 <=? i) && (i <? Z.of_nat (length l)).

(** What [processTuple] leaves behind: the row slice it wrote into, the
    cursor, and the returned error. *)
Definition ScanState : Type := Row SqlVal * TupleIterator * option error.

(** The [for filled < valsToFill && tag64 < maxTag] loop of [processTuple].
    Every turn reads a tag and then skips or reads one value, so the
    recursion is on the cursor. *)
Fixpoint processTuple_loop (conv : KVToSqlRowConverter) (valsToFill : Z)
    (maxTag : N) (row : Row SqlVal) (filled : Z) (tag64 : N)
    (itr : TupleIterator) {struct itr} : Outcome ScanState :=
  if (filled <? valsToFill) && (tag64 <? maxTag)%N then
    match itr with
    | [] => Returned (row, itr, None)                  (* tag == nil: break *)
    | tag :: itr1 =>
        match tag with
        | Uint tag64' =>
            if (maxTag <? tag64')%N then Returned (row, itr1, None)
            else
              match tagToSqlColIdx conv !! tag64' with
              | None =>
                  processTuple_loop conv valsToFill maxTag row filled tag64'
                                    (Advance itr1)
              | Some sqlColIdx =>
                  let val := NextVal itr1 in
                  let itr2 := Advance itr1 in
                  match index (cols conv) sqlColIdx with
                  | None => Panicked
                  | Some col =>
                      let '(x, err) := TypeInfo col val in
                      if inRange row sqlColIdx then
                        let row' := <[Z.to_nat sqlColIdx := x]> row in
                        match err with
                        | Some e => Returned (row', itr2, Some e)
                        | None =>
                            processTuple_loop conv valsToFill maxTag row'
                                              (filled + 1) tag64' itr2
                        end
                      else Panicked
                  end
              end
        | _ => Panicked                       (* tag.(types.Uint) fails *)
        end
    end
  else Returned (row, itr, None).

Definition processTuple (conv : KVToSqlRowConverter) (row : Row SqlVal)
    (valsToFill : Z) (maxTag : N) (tup : list Value) : Outcome ScanState :=
  processTuple_loop conv valsToFill maxTag row 0 0%N (InitForTuple tup).

(** [ConvertKVToSqlRow] returns the Go pair [(sql.Row, error)]; a [nil] row
    is [None].  The cursor taken from [types.TupleItrPool] is initialised
    anew by each [processTuple], so the pool itself is not modelled. *)
Definition ConvertKVToSqlRow (conv : KVToSqlRowConverter)
    (k v : option Value) : Outcome (option (Row SqlVal) * option error) :=
  match k with
  | Some (Tuple keyTup) =>
      let valTup :=
        if IsNull v then Some zeroTuple
        else match v with
             | Some (Tuple t) => Some t
             | _ => None
             end in
      match valTup with
      | None => Returned (None, Some "invalid value is not a tuple"%string)
      | Some valTup =>
          if rowSize conv <? 0 then Panicked
          else
            let row0 : Row SqlVal := replicate (Z.to_nat (rowSize conv)) None in
            let afterKey :=
              if 0 <? valsFromKey conv then
                processTuple conv row0 (valsFromKey conv) MaxUint64 keyTup
              else Returned (row0, [], None) in
            match afterKey with
            | Panicked => Panicked
            | Returned (_, _, Some e) => Returned (None, Some e)
            | Returned (row1, _, None) =>
                let afterVal :=
                  if 0 <? valsFromVal conv then
                    processTuple conv row1 (valsFromVal conv)
                                 (maxValTag conv) valTup
                  else Returned (row1, [], None) in
                match afterVal with
                | Panicked => Panicked
                | Returned (_, _, Some e) => Returned (None, Some e)
                | Returned (row2, _, None) => Returned (Some row2, None)
                end
            end
      end
  | _ => Returned (None, Some "invalid key is not a tuple"%string)
  end.

End Projector.

Arguments Column : clear implicits.
Arguments KVToSqlRowConverter : clear implicits.

(** ** package fwt *)

Module fwt.

(** Modelled from the spec: a Schema is an "ordered set of Columns"; the
    sampling code only reads the tags, in schema order. *)
Abbreviation Schema := (list N) (only parsing).

(** Modelled from the spec: a row holds at most one value per tag, and
    [IterSchema] hands the callback, for every column of the schema in order,
    the tag and the row's value for it ([nil] when the row has none). *)
Abbreviation row_Row := (gmap N Value) (only parsing).

Section AutoSizing.

(** Values of the property bag and the too-long behaviour are opaque to this
    stage. *)
Context {PropVal TooLongBehavior : Type}.

(** Modelled from the spec: [pipeline.ReadableMap] is an "immutable property
    bag"; [Set] returns the bag with the updates merged in. *)
Definition ReadableMap_Set (props updates : gmap string PropVal)
    : gmap string PropVal :=
  updates ∪ props.

Record RowWithProps := {
  Row : row_Row;
  Props : gmap string PropVal
}.

Record TransformRowFailure := {
  FailedRow : row_Row;                (* the field [Row] *)
  TransformName : string;
  Details : string
}.

Record TransformedRowResult := {
  RowData : row_Row;
  PropertyUpdates : gmap string PropVal
}.

(** What [NewFWTSchemaWithWidths(sch, printWidths, maxRunes)] was given. *)
Record FWTSchema := {
  fwtSch_sch : Schema;
  fwtSch_printWidths : gmap N Z;
  fwtSch_maxRunes : gmap N Z
}.

Definition NewFWTSchemaWithWidths (sch : Schema)
    (printWidths maxRunes : gmap N Z) : FWTSchema :=
  {| fwtSch_sch := sch;
     fwtSch_printWidths := printWidths;
     fwtSch_maxRunes := maxRunes |}.

(** What [NewFWTTransformer(fwtSch, tooLngBhv)] was given. *)
Record FWTTransformer := {
  fwtTr_sch : FWTSchema;
  fwtTr_tooLngBhv : TooLongBehavior
}.

Definition NewFWTTransformer (fwtSch : FWTSchema)
    (tooLngBhv : TooLongBehavior) : FWTTransformer :=
  {| fwtTr_sch := fwtSch; fwtTr_tooLngBhv := tooLngBhv |}.

(** The formatter itself, the display width of a string and its number of
    runes are computed outside these sources. *)
Context (Transform : FWTTransformer -> row_Row -> gmap string PropVal ->
                     list TransformedRowResult * string).
Context (StringWidth : string -> Z).
Context (RuneCount : string -> Z).

(** The environment of one run of the stage.  [stopChan t] tells whether the
    [t]-th poll of the stop channel finds it closed.  [pickStop t] is the
    choice [select] makes at poll [t] when both the input and the stop
    channel are ready. *)
Context (stopChan : nat -> bool).
Context (pickStop : nat -> bool).

(** The two queues the stage writes to, oldest item first, and the number of
    polls of the stop channel made so far. *)
Record Chans := {
  outChan : list RowWithProps;
  badRowChan : list TransformRowFailure;
  polls : nat
}.

(** [outChan <- r] and [badRowChan <- f] once the send has completed: the
    item is the newest of its queue.  These two say what a send puts on a
    queue; that a Go send returns only when the channel takes the item is
    written out in module [blocking] below. *)
Definition send_out (ch : Chans) (r : RowWithProps) : Chans :=
  {| outChan := outChan ch ++ [r];
     badRowChan := badRowChan ch;
     polls := polls ch |}.

Definition send_bad (ch : Chans) (f : TransformRowFailure) : Chans :=
  {| outChan := outChan ch;
     badRowChan := badRowChan ch ++ [f];
     polls := polls ch |}.

(** [select { case <-stopChan: ...; default: }]. *)
Definition poll (ch : Chans) : bool * Chans :=
  (stopChan (polls ch),
   {| outChan := outChan ch;
      badRowChan := badRowChan ch;
      polls := S (polls ch) |}).

Record AutoSizingFWTTransformer := {
  numSamples : Z;
  printWidths : gmap N Z;
  maxRunes : gmap N Z;
  rowBuffer : option (list RowWithProps);       (* [None] is the nil slice *)
  sch : Schema;
  tooLngBhv : TooLongBehavior;
  fwtTr : option FWTTransformer                 (* [None] is the nil pointer *)
}.

Definition NewAutoSizingFWTTransformer (sch : Schema)
    (tooLngBhv : TooLongBehavior) (numSamples : Z)
    : AutoSizingFWTTransformer :=
  {| numSamples := numSamples;
     printWidths := ∅;
     maxRunes := ∅;
     rowBuffer := Some [];
     sch := sch;
     tooLngBhv := tooLngBhv;
     fwtTr := None |}.

(** Reading a Go [map[uint64]int]: a missing key reads as 0. *)
Definition mapGet (m : gmap N Z) (tag : N) : Z := default 0 (m !! tag).

Definition processRow (asTr : AutoSizingFWTTransformer)
    (rowWithProps : RowWithProps) (ch : Chans) : Outcome Chans :=
  match fwtTr asTr with
  | None => Panicked
  | Some tr =>
      let '(rds, errMsg) :=
        Transform tr (Row rowWithProps) (Props rowWithProps) in
      if negb (String.eqb errMsg "") then
        Returned (send_bad ch
          {| FailedRow := Row rowWithProps;
             TransformName := "Auto Sizing Fixed Width Transform";
             Details := errMsg |})
      else
        match rds with
        | [rd] =>
            let propUpdates := PropertyUpdates rd in
            let outProps :=
              if (0 <? Z.of_nat (size propUpdates))
              then ReadableMap_Set (Props rowWithProps) propUpdates
              else Props rowWithProps in
            Returned (send_out ch {| Row := RowData rd; Props := outProps |})
        | _ => Returned ch
        end
  end.

(** The [for i := 0; i < len(rowBuffer); i++] loop of [flush], from index
    [i] on; [rest] is [rowBuffer[i:]].  The boolean tells whether the loop
    was left by the [return] of the stop case. *)
Fixpoint flush_loop (asWr : AutoSizingFWTTransformer) (ch : Chans) (i : Z)
    (rest : list RowWithProps) : Outcome (Chans * bool) :=
  match rest with
  | [] => Returned (ch, false)
  | r :: rest' =>
      ch1 ← processRow asWr r ch;
      if (i mod 100 =? 0) then
        let '(stopped, ch2) := poll ch1 in
        if stopped then Returned (ch2, true)
        else flush_loop asWr ch2 (i + 1) rest'
      else flush_loop asWr ch1 (i + 1) rest'
  end.

Definition with_fwtTr (asWr : AutoSizingFWTTransformer)
    (tr : FWTTransformer) : AutoSizingFWTTransformer :=
  {| numSamples := numSamples asWr;
     printWidths := printWidths asWr;
     maxRunes := maxRunes asWr;
     rowBuffer := rowBuffer asWr;
     sch := sch asWr;
     tooLngBhv := tooLngBhv asWr;
     fwtTr := Some tr |}.

Definition with_rowBuffer (asWr : AutoSizingFWTTransformer)
    (buf : option (list RowWithProps)) : AutoSizingFWTTransformer :=
  {| numSamples := numSamples asWr;
     printWidths := printWidths asWr;
     maxRunes := maxRunes asWr;
     rowBuffer := buf;
     sch := sch asWr;
     tooLngBhv := tooLngBhv asWr;
     fwtTr := fwtTr asWr |}.

Definition with_widths (asTr : AutoSizingFWTTransformer)
    (pw mr : gmap N Z) : AutoSizingFWTTransformer :=
  {| numSamples := numSamples asTr;
     printWidths := pw;
     maxRunes := mr;
     rowBuffer := rowBuffer asTr;
     sch := sch asTr;
     tooLngBhv := tooLngBhv asTr;
     fwtTr := fwtTr asTr |}.

Definition flush (asWr : AutoSizingFWTTransformer) (ch : Chans)
    : Outcome (AutoSizingFWTTransformer * Chans) :=
  let asWr1 :=
    match fwtTr asWr with
    | None =>
        let fwtSch :=
          NewFWTSchemaWithWidths (sch asWr) (printWidths asWr)
                                 (maxRunes asWr) in
        with_fwtTr asWr (NewFWTTransformer fwtSch (tooLngBhv asWr))
    | Some _ => asWr
    end in
  '(ch', stopped) ← flush_loop asWr1 ch 0 (default [] (rowBuffer asWr1));
  if (stopped : bool) then Returned (asWr1, ch')
  else Returned (with_rowBuffer asWr1 None, ch').

(** The callback [handleRow] passes to [IterSchema], applied to one column:
    it updates the two width maps, and panics on a value that is neither
    null nor a string. *)
Definition sampleCol (r : row_Row) (acc : gmap N Z * gmap N Z) (tag : N)
    : Outcome (gmap N Z * gmap N Z) :=
  let '(pw, mr) := acc in
  let val := r !! tag in
  if IsNull val then Returned (pw, mr)
  else
    match val with
    | Some (String strVal) =>
        let printWidth := StringWidth strVal in
        let numRunes := RuneCount strVal in
        let pw' := if mapGet pw tag <? printWidth
                   then <[tag := printWidth]> pw else pw in
        let mr' := if mapGet mr tag <? numRunes
                   then <[tag := numRunes]> mr else mr in
        Returned (pw', mr')
    | _ => Panicked                        (* val.(types.String) fails *)
    end.

(** [r.Row.IterSchema(asTr.sch, ...)] with that callback, which never asks
    to stop. *)
Fixpoint IterSchema (r : row_Row) (sch : Schema) (acc : gmap N Z * gmap N Z)
    : Outcome (gmap N Z * gmap N Z) :=
  match sch with
  | [] => Returned acc
  | tag :: sch' => acc' ← sampleCol r acc tag; IterSchema r sch' acc'
  end.

Definition handleRow (asTr : AutoSizingFWTTransformer) (r : RowWithProps)
    (ch : Chans) : Outcome (AutoSizingFWTTransformer * Chans) :=
  match rowBuffer asTr with
  | None => ch' ← processRow asTr r ch; Returned (asTr, ch')
  | Some buf =>
      if (numSamples asTr <=? 0) || (Z.of_nat (length buf) <? numSamples asTr)
      then
        '(pw, mr) ← IterSchema (Row r) (sch asTr)
                                (printWidths asTr, maxRunes asTr);
        Returned (with_rowBuffer (with_widths asTr pw mr) (Some (buf ++ [r])),
                  ch)
      else flush asTr ch
  end.

(** How [TransformToFWT] ended, with the stage, the queues and the part of
    the input it did not receive. *)
Record Run := {
  stage : AutoSizingFWTTransformer;
  chans : Chans;
  unread : list RowWithProps;
  cancelled : bool              (* left by a [return] of a stop case *)
}.

(** [TransformToFWT]; [inChan] is what the input channel delivers before it
    is closed. *)
Fixpoint TransformToFWT (asTr : AutoSizingFWTTransformer) (ch : Chans)
    (inChan : list RowWithProps) : Outcome Run :=
  let '(stopped, ch1) := poll ch in
  if stopped then
    Returned {| stage := asTr; chans := ch1; unread := inChan;
                cancelled := true |}
  else
    let '(stopped, ch2) := poll ch1 in
    if stopped && pickStop (polls ch1) then
      Returned {| stage := asTr; chans := ch2; unread := inChan;
                  cancelled := true |}
    else
      match inChan with
      | r :: inChan' =>
          '(asTr', ch3) ← handleRow asTr r ch2;
          TransformToFWT asTr' ch3 inChan'
      | [] =>
          '(asTr', ch3) ← flush asTr ch2;
          Returned {| stage := asTr'; chans := ch3; unread := [];
                      cancelled := false |}
      end.

(** *** What the claims about the stage speak of *)

(** The rows [rows] sent, in order, through the formatter of [asTr]. *)
Fixpoint replay (asTr : AutoSizingFWTTransformer) (ch : Chans)
    (rows : list RowWithProps) : Outcome Chans :=
  match rows with
  | [] => Returned ch
  | r :: rows' => ch' ← processRow asTr r ch; replay asTr ch' rows'
  end.

(** The measure [f] of the string a row holds for [tag], if it holds one. *)
Definition observe (f : string -> Z) (tag : N) (r : RowWithProps)
    : option Z :=
  match Row r !! tag with
  | Some (String s) => Some (f s)
  | _ => None
  end.

(** What a width map reads for a tag once a new observation was taken into
    account. *)
Definition bump (cur : Z) (o : option Z) : Z :=
  match o with
  | Some w => Z.max cur w
  | None => cur
  end.

(** The largest measure observed for [tag] over the rows; 0 when nothing was
    observed. *)
Definition maxObserved (f : string -> Z) (tag : N)
    (rows : list RowWithProps) : Z :=
  foldr Z.max 0 (omap (observe f tag) rows).

(** Every value a row holds for a column of the schema is null or a
    string. *)
Definition stringsOnly (sch : Schema) (r : RowWithProps) : Prop :=
  forall tag, tag ∈ sch ->
    IsNull (Row r !! tag) = true \/ exists s, Row r !! tag = Some (String s).

(** The stage once it has built its formatter from the widths [pw] and
    [mr] and has replayed and dropped its buffer. *)
Definition materialized (asTr : AutoSizingFWTTransformer)
    (pw mr : gmap N Z) : AutoSizingFWTTransformer :=
  with_rowBuffer
    (with_fwtTr (with_widths asTr pw mr)
       (NewFWTTransformer (NewFWTSchemaWithWidths (sch asTr) pw mr)
                          (tooLngBhv asTr)))
    None.

(** The number of items put on the two queues so far. *)
Definition emitted (ch : Chans) : nat :=
  length (outChan ch) + length (badRowChan ch).

(** What the formatter [tr] sends downstream for a row: the single result
    it returns, with its property updates merged into the properties of the
    row, when it reports no error. *)
Definition forwarded (tr : FWTTransformer) (r : RowWithProps)
    : option RowWithProps :=
  match Transform tr (Row r) (Props r) with
  | (rds, EmptyString) =>
      match rds with
      | [rd] =>
          Some {| Row := RowData rd;
                  Props := if decide (PropertyUpdates rd = ∅) then Props r
                           else PropertyUpdates rd ∪ Props r |}
      | _ => None
      end
  | _ => None
  end.

(** The failure the stage reports for a row the formatter [tr] rejects. *)
Definition rejected (tr : FWTTransformer) (r : RowWithProps)
    : option TransformRowFailure :=
  match Transform tr (Row r) (Props r) with
  | (_, EmptyString) => None
  | (_, errMsg) =>
      Some {| FailedRow := Row r;
              TransformName := "Auto Sizing Fixed Width Transform";
              Details := errMsg |}
  end.

End AutoSizing.

End fwt.

(** ** package fwt: sends that can block *)

(** [fwt.send_out] and [fwt.send_bad] say what a send puts on a channel once
    it has completed, which is all that the contents of the queues depend
    on.  A Go send completes only when the channel takes the item -- a
    receiver is waiting for it or the buffer has room -- and the two sends
    of [processRow], [outChan <- outRow] and [badRowChan <- ...], stand
    outside any [select]: until the channel takes the item the goroutine
    waits in the send, whatever happens to the stop channel.  Here the
    functions of the stage are written out once more with such sends. *)
Module blocking.

Import fwt.

Section Blocking.

Context {PropVal TooLongBehavior : Type}.
Context (Transform : @FWTTransformer TooLongBehavior -> row_Row ->
                     gmap string PropVal ->
                     list (@TransformedRowResult PropVal) * string).
Context (StringWidth RuneCount : string -> Z).
Context (stopChan pickStop : nat -> bool).

(** [outTakes k] tells whether the output channel ever takes an item once
    [k] items have gone through it, [badTakes k] the same for the error
    channel.  A send of an item the channel never takes does not return. *)
Context (outTakes badTakes : nat -> bool).

#[local] Abbreviation AutoSizingFWTTransformer :=
  (@fwt.AutoSizingFWTTransformer PropVal TooLongBehavior).
#[local] Abbreviation RowWithProps := (@fwt.RowWithProps PropVal).
#[local] Abbreviation Chans := (@fwt.Chans PropVal).
#[local] Abbreviation Run := (@fwt.Run PropVal TooLongBehavior).

(** How far a call gets: it returns, it waits for ever in a send -- with
    what had gone through the channels until then --, or it panics. *)
Inductive Progress (A : Type) : Type :=
| Done (a : A)
| Blocked (ch : Chans)
| Crashed.
Arguments Done {A} a.
Arguments Blocked {A} ch.
Arguments Crashed {A}.

Definition andThen {A B : Type} (m : Progress A) (k : A -> Progress B)
    : Progress B :=
  match m with
  | Done a => k a
  | Blocked ch => Blocked ch
  | Crashed => Crashed
  end.

(** A call that sends nothing. *)
Definition sendless {A : Type} (o : Outcome A) : Progress A :=
  match o with
  | Returned a => Done a
  | Panicked => Crashed
  end.

(** [outChan <- r]. *)
Definition send_out (ch : Chans) (r : RowWithProps) : Progress Chans :=
  if outTakes (length (outChan ch)) then Done (fwt.send_out ch r)
  else Blocked ch.

(** [badRowChan <- f]. *)
Definition send_bad (ch : Chans) (f : TransformRowFailure) : Progress Chans :=
  if badTakes (length (badRowChan ch)) then Done (fwt.send_bad ch f)
  else Blocked ch.

Definition processRow (asTr : AutoSizingFWTTransformer)
    (rowWithProps : RowWithProps) (ch : Chans) : Progress Chans :=
  match fwtTr asTr with
  | None => Crashed
  | Some tr =>
      let '(rds, errMsg) :=
        Transform tr (Row rowWithProps) (Props rowWithProps) in
      if negb (String.eqb errMsg "") then
        send_bad ch
          {| FailedRow := Row rowWithProps;
             TransformName := "Auto Sizing Fixed Width Transform";
             Details := errMsg |}
      else
        match rds with
        | [rd] =>
            let propUpdates := PropertyUpdates rd in
            let outProps :=
              if (0 <? Z.of_nat (size propUpdates))
              then ReadableMap_Set (Props rowWithProps) propUpdates
              else Props rowWithProps in
            send_out ch {| Row := RowData rd; Props := outProps |}
        | _ => Done ch
        end
  end.

(** The loop of [flush] from index [i] on: the stop channel is polled only
    once [processRow] has returned. *)
Fixpoint flush_loop (asWr : AutoSizingFWTTransformer) (ch : Chans) (i : Z)
    (rest : list RowWithProps) : Progress (Chans * bool) :=
  match rest with
  | [] => Done (ch, false)
  | r :: rest' =>
      andThen (processRow asWr r ch) (fun ch1 =>
        if (i mod 100 =? 0) then
          let '(stopped, ch2) := poll stopChan ch1 in
          if stopped then Done (ch2, true)
          else flush_loop asWr ch2 (i + 1) rest'
        else flush_loop asWr ch1 (i + 1) rest')
  end.

Definition flush (asWr : AutoSizingFWTTransformer) (ch : Chans)
    : Progress (AutoSizingFWTTransformer * Chans) :=
  let asWr1 :=
    match fwtTr asWr with
    | None =>
        let fwtSch :=
          NewFWTSchemaWithWidths (sch asWr) (printWidths asWr)
                                 (maxRunes asWr) in
        with_fwtTr asWr (NewFWTTransformer fwtSch (tooLngBhv asWr))
    | Some _ => asWr
    end in
  andThen (flush_loop asWr1 ch 0 (default [] (rowBuffer asWr1)))
    (fun '(ch', stopped) =>
       if (stopped : bool) then Done (asWr1, ch')
       else Done (with_rowBuffer asWr1 None, ch')).

Definition handleRow (asTr : AutoSizingFWTTransformer) (r : RowWithProps)
    (ch : Chans) : Progress (AutoSizingFWTTransformer * Chans) :=
  match rowBuffer asTr with
  | None => andThen (processRow asTr r ch) (fun ch' => Done (asTr, ch'))
  | Some buf =>
      if (numSamples asTr <=? 0) || (Z.of_nat (length buf) <? numSamples asTr)
      then
        andThen
          (sendless (IterSchema StringWidth RuneCount (Row r) (sch asTr)
                                (printWidths asTr, maxRunes asTr)))
          (fun '(pw, mr) =>
             Done (with_rowBuffer (with_widths asTr pw mr)
                                  (Some (buf ++ [r])), ch))
      else flush asTr ch
  end.

Fixpoint TransformToFWT (asTr : AutoSizingFWTTransformer) (ch : Chans)
    (inChan : list RowWithProps) : Progress Run :=
  let '(stopped, ch1) := poll stopChan ch in
  if stopped then
    Done {| stage := asTr; chans := ch1; unread := inChan;
            cancelled := true |}
  else
    let '(stopped, ch2) := poll stopChan ch1 in
    if stopped && pickStop (polls ch1) then
      Done {| stage := asTr; chans := ch2; unread := inChan;
              cancelled := true |}
    else
      match inChan with
      | r :: inChan' =>
          andThen (handleRow asTr r ch2) (fun '(asTr', ch3) =>
            TransformToFWT asTr' ch3 inChan')
      | [] =>
          andThen (flush asTr ch2) (fun '(asTr', ch3) =>
            Done {| stage := asTr'; chans := ch3; unread := [];
                    cancelled := false |})
      end.

End Blocking.

Arguments Done {PropVal A} a.
Arguments Blocked {PropVal A} ch.
Arguments Crashed {PropVal A}.

End blocking.

(** ** Well-formed inputs of the projector *)

Section WellFormed.

Context {SqlVal : Type}.

(** A well-formed tuple stores (tag, value) entries; this is its flat
    sequence tag, value, tag, value, ... *)
Definition encode (entries : list (N * Value)) : list Value :=
  flat_map (fun e => [Uint e.1; e.2]) entries.

Definition isTuple (v : option Value) : bool :=
  match v with
  | Some (Tuple _) => true
  | _ => false
  end.

(** Whether the mapping requests the tag of an entry. *)
Definition requested (conv : KVToSqlRowConverter SqlVal) (e : N * Value)
    : bool :=
  bool_decide (is_Some (tagToSqlColIdx conv !! e.1)).

(** Every requested entry can be converted and stored in a row of [width]
    slots: its destination index lies inside the row and inside the column
    list, and the converter found there accepts the value. *)
Definition convertible (conv : KVToSqlRowConverter SqlVal) (width : Z)
    (e : N * Value) : Prop :=
  forall idx, tagToSqlColIdx conv !! e.1 = Some idx ->
    0 <= idx < width /\
    exists col x, index (cols conv) idx = Some col /\
                  TypeInfo col (Some e.2) = (x, None).

(** How many of the entries are requested. *)
Fixpoint fills (conv : KVToSqlRowConverter SqlVal)
    (entries : list (N * Value)) : Z :=
  match entries with
  | [] => 0
  | e :: rest => (if requested conv e then 1 else 0) + fills conv rest
  end.

(** The guard of the loop of [processTuple]. *)
Definition scanning (valsToFill : Z) (maxTag : N) (filled : Z) (tag64 : N)
    : bool :=
  (filled <? valsToFill) && (tag64 <? maxTag)%N.

(** The scan of section 4.1 without any early exit: every entry is pulled;
    an entry whose tag is requested is converted and stored at the mapped
    index, any other entry is skipped. *)
Fixpoint fullScan (conv : KVToSqlRowConverter SqlVal) (row : Row SqlVal)
    (entries : list (N * Value)) : Outcome (Row SqlVal * option error) :=
  match entries with
  | [] => Returned (row, None)
  | e :: rest =>
      match tagToSqlColIdx conv !! e.1 with
      | None => fullScan conv row rest
      | Some sqlColIdx =>
          match index (cols conv) sqlColIdx with
          | None => Panicked
          | Some col =>
              let '(x, err) := TypeInfo col (Some e.2) in
              if inRange row sqlColIdx then
                let row' := <[Z.to_nat sqlColIdx := x]> row in
                match err with
                | Some err => Returned (row', Some err)
                | None => fullScan conv row' rest
                end
              else Panicked
          end
      end
  end.

(** What a scan did to the row and what it reported, without the cursor. *)
Definition scanResult (o : Outcome (@ScanState SqlVal))
    : Outcome (Row SqlVal * option error) :=
  match o with
  | Returned (row, _, err) => Returned (row, err)
  | Panicked => Panicked
  end.

(** The entries are stored with strictly ascending tags. *)
Definition ascending (entries : list (N * Value)) : Prop :=
  StronglySorted (fun e1 e2 => (e1.1 < e2.1)%N) entries.

(** Whether [getValLocations] counts the column as a requested value
    column. *)
Definition valueCol (tagToSqlColIdx : gmap N Z) (col : Column SqlVal)
    : bool :=
  bool_decide (is_Some (tagToSqlColIdx !! Tag col)) && negb (IsPartOfPK col).

End WellFormed.

(** ** A small schema to run the code on *)

Module Sample.

(** A converter that keeps strings and rejects every other value. *)
Definition stringInfo (v : option Value) : option string * option error :=
  match v with
  | Some (String s) => (Some s, None)
  | _ => (None, Some "not a string"%string)
  end.

Definition col (tag : N) (pk : bool) : Column string :=
  {| Tag := tag; IsPartOfPK := pk; TypeInfo := stringInfo |}.

(** One value column with tag 0, requested into slot 0 of a one-slot row. *)
Definition convTag0 : KVToSqlRowConverter string :=
  NewKVToSqlRowConverterForCols [col 0 false].

(** Key columns 1 and 2 and value column 5; only key column 1 is requested,
    into slot 0 of a one-slot row. *)
Definition convKey1 : KVToSqlRowConverter string :=
  NewKVToSqlRowConverter {[ 1%N := 0 ]}
    [col 1 true; col 2 true; col 5 false] 1.

(** Key column 1 into slot 0 and value column 2 into slot 1. *)
Definition convKV : KVToSqlRowConverter string :=
  NewKVToSqlRowConverterForCols [col 1 true; col 2 false].

(** Value columns 1, 3, 5 and 9; tags 1 and 3 are requested. *)
Definition convVal13 : KVToSqlRowConverter string :=
  NewKVToSqlRowConverter {[ 1%N := 0; 3%N := 1 ]}
    [col 1 false; col 3 false; col 5 false; col 9 false] 2.

(** The stage run with a formatter that forwards every row unchanged, with
    widths counted in bytes, and with a stop channel that is never closed. *)
Definition forward (tr : @fwt.FWTTransformer unit) (r : fwt.row_Row)
    (props : gmap string string)
    : list (@fwt.TransformedRowResult string) * string :=
  ([ {| fwt.RowData := r; fwt.PropertyUpdates := ∅ |} ], ""%string).

(** A formatter that reports success with no result at all. *)
Definition dropAll (tr : @fwt.FWTTransformer unit) (r : fwt.row_Row)
    (props : gmap string string)
    : list (@fwt.TransformedRowResult string) * string :=
  ([], ""%string).

Definition byteWidth (s : string) : Z := Z.of_nat (String.length s).

Definition never (t : nat) : bool := false.

Definition always (t : nat) : bool := true.

Definition textRow (s : string) : @fwt.RowWithProps string :=
  {| fwt.Row := {[ 1%N := String s ]}; fwt.Props := ∅ |}.

(** A stage that has built its formatter from an empty sample. *)
Definition ready : @fwt.AutoSizingFWTTransformer string unit :=
  fwt.materialized (fwt.NewAutoSizingFWTTransformer [1%N] tt 1) ∅ ∅.

Definition noChans : @fwt.Chans string :=
  {| fwt.outChan := []; fwt.badRowChan := []; fwt.polls := 0 |}.

End Sample.

(** ** The row source iterator *)

Section RowSource.

Context {SqlVal : Type}.

Definition io_EOF : error := "EOF"%string.

(** Modelled from the spec: [types.MapIterator] (not part of these sources)
    is "a storage-layer iterator supplying ordered (key, value) tuple pairs
    ... and a termination/EOF signal".  Its state is the list of results it
    has still to deliver, a pair or an error each; once the list is used up
    [Next] keeps answering with a nil key and no error. *)
Inductive MapItrStep : Type :=
| Pair (k : Value) (v : option Value)
| Fail (err : error).

Definition MapIterator := list MapItrStep.

(** What a [KVGetFunc] hands back: key, value and error. *)
Definition KV : Type := option Value * option Value * option error.

(** [mapItr.Next(ctx)] with the iterator it leaves. *)
Definition MapIterator_Next (mapItr : MapIterator) : KV * MapIterator :=
  match mapItr with
  | [] => ((None, None, None), [])
  | Pair k v :: rest => ((Some k, v, None), rest)
  | Fail err :: rest => ((None, None, Some err), rest)
  end.

(** The closure [GetGetFuncForMapIter] returns, as a function of the state
    of the iterator it captured. *)
Definition GetGetFuncForMapIter (mapItr : MapIterator) : KV * MapIterator :=
  let '((k, v, err), mapItr') := MapIterator_Next mapItr in
  match err with
  | Some e => ((None, None, Some e), mapItr')
  | None =>
      match k with
      | None => ((None, None, Some io_EOF), mapItr')
      | Some _ => ((k, v, None), mapItr')
      end
  end.

(** [DoltMapIter]; [St] is the state behind its two callbacks, and the
    context, which is only passed on to [kvGet], is left out. *)
Record DoltMapIter (St : Type) := {
  kvGet : St -> KV * St;
  closeKVGetter : option (St -> option error * St);
  dmi_conv : KVToSqlRowConverter SqlVal
}.
Arguments kvGet {St} _ _.
Arguments closeKVGetter {St} _.
Arguments dmi_conv {St} _.

Definition NewDoltMapIter {St} (keyValGet : St -> KV * St)
    (closeKVGetter : option (St -> option error * St))
    (conv : KVToSqlRowConverter SqlVal) : DoltMapIter St :=
  {| kvGet := keyValGet; closeKVGetter := closeKVGetter; dmi_conv := conv |}.

(** [dmi.Next()], with the state it leaves. *)
Definition DoltMapIter_Next {St} (dmi : DoltMapIter St) (s : St)
    : Outcome (option (Row SqlVal) * option error) * St :=
  let '((k, v, err), s') := kvGet dmi s in
  match err with
  | Some e => (Returned (None, Some e), s')
  | None => (ConvertKVToSqlRow (dmi_conv dmi) k v, s')
  end.

(** [dmi.Close()]. *)
Definition DoltMapIter_Close {St} (dmi : DoltMapIter St) (s : St)
    : option error * St :=
  match closeKVGetter dmi with
  | Some close => close s
  | None => (None, s)
  end.

(** The results of [n] calls of [dmi.Next()] in a row, oldest first. *)
Fixpoint nextN {St} (dmi : DoltMapIter St) (n : nat) (s : St)
    : list (Outcome (option (Row SqlVal) * option error)) :=
  match n with
  | O => []
  | S n' =>
      let '(r, s') := DoltMapIter_Next dmi s in
      r :: nextN dmi n' s'
  end.

(** What [dmi.Next()] is to return for one result of the map iterator: the
    conversion of a pair, and the error of a failed read. *)
Definition stepResult (conv : KVToSqlRowConverter SqlVal) (st : MapItrStep)
    : Outcome (option (Row SqlVal) * option error) :=
  match st with
  | Pair k v => ConvertKVToSqlRow conv (Some k) v
  | Fail err => Returned (None, Some err)
  end.

(** Whether [getValLocations] counts the column as a requested key
    column. *)
Definition keyCol (tagToSqlColIdx : gmap N Z) (col : Column SqlVal) : bool :=
  bool_decide (is_Some (tagToSqlColIdx !! Tag col)) && IsPartOfPK col.

(** The largest tag among the requested value columns, 0 when there is
    none. *)
Definition maxValueTag (tagToSqlColIdx : gmap N Z)
    (columns : list (Column SqlVal)) : N :=
  foldr N.max 0%N
        (Tag <$> filter (fun c => valueCol tagToSqlColIdx c) columns).

End RowSource.

Arguments DoltMapIter : clear implicits.

(** ** package env: where the configuration lives *)

Module env.

Section Paths.

(** [os.LookupEnv], [user.Current] (the home directory of the user, or the
    error), [filepath.Join] and [doltdb.DoltDir] come from outside these
    sources. *)
Context (LookupEnv : string -> option string).
Context (userCurrent : string + error).
Context (Join : list string -> string).
Context (DoltDir : string).

Definition doltRootParentDirEnvVar : string := "PARENT_OF_DOLT_ROOT_DIR".
Definition credsDir : string := "creds".
Definition configFile : string := "config.json".
Definition globalConfig : string := "config_global.json".
Definition repoStateFile : string := "repo_state.json".

(** What a [HomeDirProvider] returns when called. *)
Definition HomeDirProvider : Type := string * option error.

Definition GetCurrentUserHomeDir : HomeDirProvider :=
  match LookupEnv doltRootParentDirEnvVar with
  | Some parentOfDoltRootDir =>
      if negb (String.eqb parentOfDoltRootDir "")
      then (parentOfDoltRootDir, None)
      else match userCurrent with
           | inr err => (""%string, Some err)
           | inl homeDir => (homeDir, None)
           end
  | None =>
      match userCurrent with
      | inr err => (""%string, Some err)
      | inl homeDir => (homeDir, None)
      end
  end.

Definition getCredsDir (hdp : HomeDirProvider) : string * option error :=
  let '(homeDir, err) := hdp in
  match err with
  | Some e => (""%string, Some e)
  | None => (Join [homeDir; DoltDir; credsDir], None)
  end.

Definition getGlobalCfgPath (hdp : HomeDirProvider) : string * option error :=
  let '(homeDir, err) := hdp in
  match err with
  | Some e => (""%string, Some e)
  | None => (Join [homeDir; DoltDir; globalConfig], None)
  end.

Definition getLocalConfigPath : string := Join [DoltDir; configFile].

Definition getRepoStateFile : string := Join [DoltDir; repoStateFile].

End Paths.

End env.

(** ** package test: the generated struct [EnumStruct] *)

Module noms.

Section EnumStruct.

(** A [types.Ref], the hash that [types.RegisterPackage] hands out. *)
Context {Ref : Type}.

(** The values of [github.com/attic-labs/noms/types] this file builds and
    reads.  A [types.Map] is an immutable finite map; the file only uses
    string keys, so the model is keyed by the text of the key.  [Get] of a
    key the map does not hold is [nil], and [Set] gives the map with the key
    bound to the new value. *)
Inductive Value : Type :=
| String (s : string)
| Int32 (n : Z)
| TypeRef (name : string) (pkg : Ref)
| Map (m : gmap string Value)
| Other (kind : N).

(** [types.NewMap(k1, v1, k2, v2, ...)]. *)
Definition NewMap (kvs : list (string * Value)) : gmap string Value :=
  foldl (fun m kv => <[kv.1 := kv.2]> m) ∅ kvs.

(** The Go conversions [int32(x)] and [uint32(x)] of an integer: the value
    is reduced modulo 2^32 into the range of the type. *)
Definition toInt32 (x : Z) : Z := (x + 2 ^ 31) mod 2 ^ 32 - 2 ^ 31.
Definition toUint32 (x : Z) : Z := x mod 2 ^ 32.

(** [type Handedness uint32] and its constants. *)
Definition Right : Z := 0.
Definition Left : Z := 1.
Definition Switch : Z := 2.

(** The package reference cached in
    [__testPackageInFile_enum_struct_CachedRef]. *)
Context (CachedRef : Ref).

Record EnumStruct := { m : gmap string Value }.

Record EnumStructDef := { Hand : Z }.

Definition NewEnumStruct : EnumStruct :=
  {| m := NewMap [("$name"%string, String "EnumStruct");
                  ("$type"%string, TypeRef "EnumStruct" CachedRef);
                  ("hand"%string, Int32 0)] |}.

Definition EnumStructDef_New (def : EnumStructDef) : EnumStruct :=
  {| m := NewMap [("$name"%string, String "EnumStruct");
                  ("$type"%string, TypeRef "EnumStruct" CachedRef);
                  ("hand"%string, Int32 (toInt32 (Hand def)))] |}.

(** [self.Def()]; the type assertion panics on anything but an [Int32]. *)
Definition EnumStruct_Def (self : EnumStruct) : Outcome EnumStructDef :=
  match m self !! "hand"%string with
  | Some (Int32 n) => Returned {| Hand := toUint32 n |}
  | _ => Panicked
  end.

Definition EnumStructFromVal (val : option Value) : Outcome EnumStruct :=
  match val with
  | Some (Map m) => Returned {| m := m |}
  | _ => Panicked
  end.

Definition EnumStruct_NomsValue (self : EnumStruct) : option Value :=
  Some (Map (m self)).

(** [self.Type()], as the name and the package of the type reference. *)
Definition EnumStruct_Type (self : EnumStruct) : Outcome (string * Ref) :=
  match m self !! "$type"%string with
  | Some (TypeRef name pkg) => Returned (name, pkg)
  | _ => Panicked
  end.

Definition EnumStruct_Hand (self : EnumStruct) : Outcome Z :=
  match m self !! "hand"%string with
  | Some (Int32 n) => Returned (toUint32 n)
  | _ => Panicked
  end.

Definition EnumStruct_SetHand (self : EnumStruct) (val : Z) : EnumStruct :=
  {| m := <["hand"%string := Int32 (toInt32 val)]> (m self) |}.

End EnumStruct.

End noms.

(** ** More inputs to run the code on *)

Module SampleMore.

(** Key column 1 and value columns 2 and 5, each at its own index. *)
Definition columns : list (Column string) :=
  [Sample.col 1 true; Sample.col 2 false; Sample.col 5 false].

(** Only the value column of tag 5 is requested, into slot 1 of a row of
    two slots. *)
Definition convAge : KVToSqlRowConverter string :=
  NewKVToSqlRowConverter {[ 5%N := 1 ]}
    [Sample.col 1 true; Sample.col 5 false] 2.

(** All three columns are requested, each into the slot of its index, in a
    row of four slots. *)
Definition convAll : KVToSqlRowConverter string :=
  NewKVToSqlRowConverter {[ 1%N := 0; 2%N := 1; 5%N := 2 ]} columns 4.

(** A mapping that requests tag 9 only, which no column carries. *)
Definition convNone : KVToSqlRowConverter string :=
  NewKVToSqlRowConverter {[ 9%N := 0 ]} columns 2.

(** Key column 1 requested into slot 3 of a row of one slot. *)
Definition convWide : KVToSqlRowConverter string :=
  NewKVToSqlRowConverter {[ 1%N := 3 ]} [Sample.col 1 true] 1.

(** A formatter that rejects the empty string and forwards every other
    row. *)
Definition picky (tr : @fwt.FWTTransformer unit) (r : fwt.row_Row)
    (props : gmap string string)
    : list (@fwt.TransformedRowResult string) * string :=
  match r !! 1%N with
  | Some (String EmptyString) => ([], "empty"%string)
  | _ => ([ {| fwt.RowData := r; fwt.PropertyUpdates := ∅ |} ], ""%string)
  end.

(** An environment in which the variable is set, and one without it. *)
Definition envSet (name : string) : option string :=
  if String.eqb name "PARENT_OF_DOLT_ROOT_DIR" then Some "/data"%string
  else None.

Definition joinSlash (parts : list string) : string :=
  foldr (fun p acc => if String.eqb acc "" then p
                      else (p ++ "/" ++ acc)%string) ""%string parts.

(** Two key columns and two value columns, each requested into the slot of
    its index. *)
Definition convPairs : KVToSqlRowConverter string :=
  NewKVToSqlRowConverterForCols
    [Sample.col 1 true; Sample.col 2 true;
     Sample.col 5 false; Sample.col 6 false].

(** A channel that takes two items and then no more. *)
Definition takesTwo (k : nat) : bool := (k <? 2)%nat.

(** A stop channel that the first poll finds open and every later poll
    finds closed. *)
Definition fromSecond (t : nat) : bool := (1 <=? t)%nat.

End SampleMore.

(** * The projector *)

Section ProjectorFacts.

Context {SqlVal : Type}.
Implicit Types (conv : KVToSqlRowConverter SqlVal) (row : Row SqlVal).
Implicit Types (entries : list (N * Value)) (e : N * Value).

(** The loop on an exhausted cursor. *)
Lemma processTuple_loop_nil conv valsToFill maxTag row filled tag64 :
  processTuple_loop conv valsToFill maxTag row filled tag64 []
  = Returned (row, [], None).
Proof. simpl. by destruct (_ && _). Qed.

(** One turn of the loop on a well-formed tuple. *)
Lemma processTuple_loop_cons conv valsToFill maxTag row filled tag64 e entries :
  processTuple_loop conv valsToFill maxTag row filled tag64
                    (encode (e :: entries))
  = if scanning valsToFill maxTag filled tag64 then
      if (maxTag <? e.1)%N then Returned (row, e.2 :: encode entries, None)
      else
        match tagToSqlColIdx conv !! e.1 with
        | None =>
            processTuple_loop conv valsToFill maxTag row filled e.1
                              (encode entries)
        | Some sqlColIdx =>
            match index (cols conv) sqlColIdx with
            | None => Panicked
            | Some col =>
                let '(x, err) := TypeInfo col (Some e.2) in
                if inRange row sqlColIdx then
                  match err with
                  | Some err =>
                      Returned (<[Z.to_nat sqlColIdx := x]> row,
                                encode entries, Some err)
                  | None =>
                      processTuple_loop conv valsToFill maxTag
                        (<[Z.to_nat sqlColIdx := x]> row) (filled + 1) e.1
                        (encode entries)
                  end
                else Panicked
            end
        end
    else Returned (row, encode (e :: entries), None).
Proof. reflexivity. Qed.

Lemma inRange_spec {A} (l : list A) (i : Z) :
  inRange l i = true <-> 0 <= i < Z.of_nat (length l).
Proof. unfold inRange. rewrite andb_true_iff, Z.leb_le, Z.ltb_lt. tauto. Qed.

(** A scan only writes the slots its entries are mapped to, and never
    resizes the row. *)
Lemma processTuple_loop_frame conv valsToFill maxTag entries :
  forall row filled tag64 row' itr' err,
    processTuple_loop conv valsToFill maxTag row filled tag64 (encode entries)
    = Returned (row', itr', err) ->
    length row' = length row /\
    forall i : nat,
      (forall e, e ∈ entries ->
                 tagToSqlColIdx conv !! e.1 ≠ Some (Z.of_nat i)) ->
      row' !! i = row !! i.
Proof.
  induction entries as [|e entries IH]; intros row filled tag64 row' itr' err.
  - change (encode []) with (@nil Value). rewrite processTuple_loop_nil.
    intros [= <- <- <-]. done.
  - rewrite processTuple_loop_cons.
    destruct (scanning _ _ _ _); [|intros [= <- <- <-]; done].
    destruct (maxTag <? e.1)%N; [intros [= <- <- <-]; done|].
    destruct (tagToSqlColIdx conv !! e.1) as [idx|] eqn:Hm.
    + destruct (index (cols conv) idx) as [col|]; [|done].
      destruct (TypeInfo col (Some e.2)) as [x [e'|]].
      * destruct (inRange row idx) eqn:Hr; [|done].
        intros [= <- <- <-]. rewrite length_insert. split; [done|].
        intros i Hi. apply list_lookup_insert_ne.
        intros Heq. apply (Hi e); [left|]. rewrite Hm. f_equal.
        apply inRange_spec in Hr. lia.
      * destruct (inRange row idx) eqn:Hr; [|done].
        intros Hrun. apply IH in Hrun as [Hlen Hfr].
        rewrite length_insert in Hlen. split; [done|].
        intros i Hi. rewrite Hfr by (intros; apply Hi; by right).
        apply list_lookup_insert_ne.
        intros Heq. apply (Hi e); [left|]. rewrite Hm. f_equal.
        apply inRange_spec in Hr. lia.
    + intros Hrun. apply IH in Hrun as [Hlen Hfr]. split; [done|].
      intros i Hi. apply Hfr. intros; apply Hi; by right.
Qed.

(** On a well-formed tuple whose requested entries are convertible the scan
    returns, and reports no error. *)
Lemma processTuple_loop_returns conv valsToFill maxTag entries :
  forall row filled tag64,
    Forall (convertible conv (Z.of_nat (length row))) entries ->
    exists row' itr',
      processTuple_loop conv valsToFill maxTag row filled tag64
                        (encode entries)
      = Returned (row', itr', None).
Proof.
  induction entries as [|e entries IH]; intros row filled tag64 Hok.
  - change (encode []) with (@nil Value). rewrite processTuple_loop_nil. eauto.
  - apply Forall_cons in Hok as [He Hok]. rewrite processTuple_loop_cons.
    destruct (scanning _ _ _ _); [|eauto].
    destruct (maxTag <? e.1)%N; [eauto|].
    destruct (tagToSqlColIdx conv !! e.1) as [idx|] eqn:Hm; [|by apply IH].
    destruct (He idx Hm) as (Hidx & col & x & -> & ->).
    apply inRange_spec in Hidx as ->.
    apply IH. by rewrite length_insert.
Qed.

(** A scan that no tag can stop -- every tag is below [maxTag] -- leaves the
    cursor on an entry boundary, and leaves it before the end of the tuple
    only once [valsToFill] requested entries have been converted. *)
Lemma processTuple_loop_stops conv valsToFill maxTag entries :
  forall row filled tag64,
    Forall (convertible conv (Z.of_nat (length row))) entries ->
    Forall (fun e => (e.1 < maxTag)%N) entries ->
    (tag64 < maxTag)%N ->
    filled <= valsToFill ->
    exists row' k,
      processTuple_loop conv valsToFill maxTag row filled tag64
                        (encode entries)
      = Returned (row', encode (drop k entries), None) /\
      (k <= length entries)%nat /\
      (k = length entries \/
       filled + fills conv (take k entries) = valsToFill).
Proof.
  induction entries as [|e entries IH];
    intros row filled tag64 Hok Hlt Htag Hfilled.
  - exists row, 0%nat. change (encode []) with (@nil Value).
    rewrite processTuple_loop_nil. auto.
  - apply Forall_cons in Hok as [He Hok]. apply Forall_cons in Hlt as [Hlt1 Hlt].
    rewrite processTuple_loop_cons. unfold scanning.
    apply N.ltb_lt in Htag as ->. rewrite andb_true_r.
    destruct (Z.ltb_spec filled valsToFill) as [Hroom|Hfull].
    + assert ((maxTag <? e.1)%N = false) as -> by (apply N.ltb_ge; lia).
      unfold requested in IH |- *.
      destruct (tagToSqlColIdx conv !! e.1) as [idx|] eqn:Hm.
      * destruct (He idx Hm) as (Hidx & col & x & -> & ->).
        apply inRange_spec in Hidx as ->.
        destruct (IH (<[Z.to_nat idx := x]> row) (filled + 1) e.1)
          as (row' & k & -> & Hk & Hstop);
          [by rewrite length_insert|done|done|lia|].
        exists row', (S k). split; [done|]. split; [simpl; lia|].
        destruct Hstop as [->|Hstop]; [by left|right].
        simpl. unfold requested. rewrite Hm.
        rewrite bool_decide_eq_true_2 by eauto. lia.
      * destruct (IH row filled e.1) as (row' & k & -> & Hk & Hstop);
          [done|done|done|lia|].
        exists row', (S k). split; [done|]. split; [simpl; lia|].
        destruct Hstop as [->|Hstop]; [by left|right].
        simpl. unfold requested. rewrite Hm.
        rewrite bool_decide_eq_false_2 by (by intros [? ?]). lia.
    + exists row, 0%nat. split; [done|]. split; [simpl; lia|].
      right. simpl. lia.
Qed.

(** *** The value scan against the scan without early exit *)

Lemma fills_nonneg conv entries : 0 <= fills conv entries.
Proof.
  induction entries as [|e entries IH]; simpl; [done|].
  destruct (requested conv e); lia.
Qed.

Lemma requested_lookup conv e :
  requested conv e = false -> tagToSqlColIdx conv !! e.1 = None.
Proof.
  unfold requested. intros Hreq. apply bool_decide_eq_false in Hreq.
  destruct (tagToSqlColIdx conv !! e.1); [|done]. by destruct Hreq.
Qed.

(** Where nothing is requested, neither scan touches the row. *)
Lemma fullScan_nothing_requested conv entries :
  fills conv entries = 0 ->
  forall row, fullScan conv row entries = Returned (row, None).
Proof.
  induction entries as [|e entries IH]; intros Hfills row; [done|].
  simpl in Hfills. pose proof (fills_nonneg conv entries).
  destruct (requested conv e) eqn:Hreq; [lia|].
  simpl. rewrite (requested_lookup conv e Hreq). apply IH. lia.
Qed.

Lemma processTuple_loop_nothing_requested conv valsToFill maxTag entries :
  fills conv entries = 0 ->
  forall row filled tag64,
    scanResult (processTuple_loop conv valsToFill maxTag row filled tag64
                                  (encode entries))
    = Returned (row, None).
Proof.
  induction entries as [|e entries IH]; intros Hfills row filled tag64.
  - change (encode []) with (@nil Value). by rewrite processTuple_loop_nil.
  - simpl in Hfills. pose proof (fills_nonneg conv entries).
    destruct (requested conv e) eqn:Hreq; [lia|].
    rewrite processTuple_loop_cons.
    destruct (scanning _ _ _ _); [|done].
    destruct (maxTag <? e.1)%N; [done|].
    rewrite (requested_lookup conv e Hreq). apply IH. lia.
Qed.

(** Entries whose tags lie above [maxTag] are not requested. *)
Lemma fills_above conv maxTag lo entries :
  Forall (fun e => (lo < e.1)%N) entries ->
  (maxTag <= lo)%N ->
  (forall e, e ∈ entries -> requested conv e = true -> (e.1 <= maxTag)%N) ->
  fills conv entries = 0.
Proof.
  intros Habove Hlo.
  induction entries as [|e entries IH]; intros Hmax; [done|].
  apply Forall_cons in Habove as [He Habove]. simpl.
  destruct (requested conv e) eqn:Hreq.
  - assert (e.1 <= maxTag)%N; [|lia].
    apply Hmax; [apply elem_of_cons; by left|done].
  - rewrite IH; [done|done|].
    intros e0 He0. apply Hmax, elem_of_cons. by right.
Qed.

(** The scan with early exits agrees with the scan without, provided
    - the tags ascend strictly,
    - no requested entry has a tag above [maxTag],
    - the tuple has at most [valsToFill - filled] requested entries, and
    - the last tag read is below [maxTag], or nothing is left to convert. *)
Lemma processTuple_loop_fullScan conv valsToFill maxTag entries :
  ascending entries ->
  (forall e, e ∈ entries -> requested conv e = true -> (e.1 <= maxTag)%N) ->
  forall row filled tag64,
    filled + fills conv entries <= valsToFill ->
    (tag64 < maxTag)%N \/ fills conv entries = 0 ->
    scanResult (processTuple_loop conv valsToFill maxTag row filled tag64
                                  (encode entries))
    = fullScan conv row entries.
Proof.
  induction entries as [|e entries IH];
    intros Hasc Hmax row filled tag64 Hroom Htag.
  - change (encode []) with (@nil Value). by rewrite processTuple_loop_nil.
  - apply StronglySorted_inv in Hasc as [Hasc Hlater].
    pose proof (fills_nonneg conv entries) as Hnn.
    assert (fills conv (e :: entries) = 0 ->
            scanResult (processTuple_loop conv valsToFill maxTag row filled
                                          tag64 (encode (e :: entries)))
            = fullScan conv row (e :: entries)) as Hnone.
    { intros Hfills.
      rewrite processTuple_loop_nothing_requested by done.
      by rewrite fullScan_nothing_requested. }
    assert ((maxTag <= e.1)%N -> fills conv entries = 0) as Hlast.
    { intros Hle. apply (fills_above conv maxTag e.1); [done|done|].
      intros e0 He0. apply Hmax, elem_of_cons. by right. }
    assert (forall e0, e0 ∈ entries -> requested conv e0 = true ->
                       (e0.1 <= maxTag)%N) as Hmax'.
    { intros e0 He0. apply Hmax, elem_of_cons. by right. }
    simpl in Hroom.
    destruct (scanning valsToFill maxTag filled tag64) eqn:Hscan.
    2:{ apply Hnone. unfold scanning in Hscan.
        apply andb_false_iff in Hscan as [Hfull|Hpast].
        - apply Z.ltb_ge in Hfull. simpl.
          destruct (requested conv e); lia.
        - apply N.ltb_ge in Hpast. destruct Htag as [?|?]; [lia|done]. }
    destruct (N.ltb_spec maxTag e.1) as [Hbig|Hsmall].
    { apply Hnone. simpl.
      destruct (requested conv e) eqn:Hreq.
      - assert (e.1 <= maxTag)%N; [|lia].
        apply Hmax; [apply elem_of_cons; by left|done].
      - rewrite Hlast by lia. done. }
    rewrite processTuple_loop_cons, Hscan.
    rewrite (proj2 (N.ltb_ge _ _) Hsmall). cbn [fullScan].
    assert ((e.1 < maxTag)%N \/ fills conv entries = 0) as Htag'.
    { destruct (N.eq_dec e.1 maxTag); [right; apply Hlast|left]; lia. }
    unfold requested in Hroom.
    destruct (tagToSqlColIdx conv !! e.1) as [idx|] eqn:Hm.
    + rewrite bool_decide_eq_true_2 in Hroom by eauto.
      destruct (index (cols conv) idx) as [col|]; [|done].
      destruct (TypeInfo col (Some e.2)) as [x [err|]];
        destruct (inRange row idx); try done.
      apply IH; [done|done|lia|done].
    + rewrite bool_decide_eq_false_2 in Hroom by (by intros [? ?]).
      apply IH; [done|done|lia|done].
Qed.

(** One turn of [getValLocations] on the counters of the value columns. *)
Lemma getValLocations_step_value (m : gmap N Z) fromKey fromVal maxTag
    (c : Column SqlVal) :
  exists fromKey',
    getValLocations_step m (fromKey, fromVal, maxTag) c
    = (fromKey',
       if valueCol m c then fromVal + 1 else fromVal,
       if valueCol m c then maxU64 maxTag (Tag c) else maxTag).
Proof.
  unfold getValLocations_step, valueCol.
  destruct (m !! Tag c) as [idx|].
  - rewrite bool_decide_eq_true_2 by eauto.
    destruct (IsPartOfPK c); eexists; reflexivity.
  - rewrite bool_decide_eq_false_2 by (by intros [? ?]).
    eexists; reflexivity.
Qed.

(** What [getValLocations] computes for the value columns: how many of
    them are requested, and a bound on their tags. *)
Lemma getValLocations_foldl (m : gmap N Z) (cols : list (Column SqlVal)) :
  forall fromKey fromVal maxTag,
  exists fromKey' maxTag',
    foldl (getValLocations_step m) (fromKey, fromVal, maxTag) cols
    = (fromKey',
       fromVal + Z.of_nat (length (filter (fun c => valueCol m c) cols)),
       maxTag') /\
    (maxTag <= maxTag')%N /\
    (forall c, c ∈ cols -> valueCol m c = true -> (Tag c <= maxTag')%N).
Proof.
  induction cols as [|c cols IH]; intros fromKey fromVal maxTag.
  - exists fromKey, maxTag. simpl. split; [f_equal; f_equal; lia|].
    split; [lia|]. intros c Hc. by apply elem_of_nil in Hc.
  - cbn [foldl].
    destruct (getValLocations_step_value m fromKey fromVal maxTag c)
      as (k1 & ->).
    rewrite filter_cons.
    destruct (valueCol m c) eqn:Hv.
    + destruct (IH k1 (fromVal + 1) (maxU64 maxTag (Tag c)))
        as (k' & mx' & -> & Hle & Hmax).
      exists k', mx'. destruct (decide _) as [_|Hd]; [|by destruct Hd].
      assert ((maxTag <= maxU64 maxTag (Tag c))%N /\
              (Tag c <= maxU64 maxTag (Tag c))%N) as [Hl Hr].
      { unfold maxU64. destruct (N.ltb_spec (Tag c) maxTag); lia. }
      split; [f_equal; f_equal; simpl; lia|]. split; [lia|].
      intros c0 Hc0 Hv0. apply elem_of_cons in Hc0 as [->|Hc0]; [lia|].
      by apply Hmax.
    + destruct (IH k1 fromVal maxTag) as (k' & mx' & -> & Hle & Hmax).
      exists k', mx'. destruct (decide _) as [Hd|_]; [by destruct Hd|].
      split; [done|]. split; [done|].
      intros c0 Hc0 Hv0. apply elem_of_cons in Hc0 as [->|Hc0]; [|by apply Hmax].
      by rewrite Hv in Hv0.
Qed.

Lemma NewKVToSqlRowConverter_valueCols (m : gmap N Z)
    (columns : list (Column SqlVal)) (width : Z) :
  let conv := NewKVToSqlRowConverter m columns width in
  tagToSqlColIdx conv = m /\
  valsFromVal conv
  = Z.of_nat (length (filter (fun c => valueCol m c) columns)) /\
  (forall c, c ∈ columns -> valueCol m c = true ->
             (Tag c <= maxValTag conv)%N).
Proof.
  unfold NewKVToSqlRowConverter, getValLocations.
  destruct (getValLocations_foldl m columns 0 0 0%N)
    as (k' & mx' & -> & _ & Hmax).
  cbn. repeat split; try done.
Qed.

(** Counting the requested entries of a tuple with ascending tags. *)
Lemma fills_length conv entries :
  fills conv entries
  = Z.of_nat (length (filter (fun e => requested conv e) entries)).
Proof.
  induction entries as [|e entries IH]; [done|].
  simpl. rewrite filter_cons, IH.
  destruct (requested conv e); destruct (decide _) as [Hd|Hd];
    try (by destruct Hd); simpl; lia.
Qed.

Lemma ascending_requested_NoDup conv entries :
  ascending entries ->
  NoDup ((filter (fun e => requested conv e) entries).*1).
Proof.
  induction entries as [|e entries IH]; intros Hasc; [constructor|].
  apply StronglySorted_inv in Hasc as [Hasc Hlater].
  rewrite filter_cons. destruct (decide _); [|by apply IH].
  rewrite fmap_cons. apply NoDup_cons. split; [|by apply IH].
  intros Hin. apply list_elem_of_fmap in Hin as (e' & Heq & He').
  apply list_elem_of_filter in He' as [_ He'].
  rewrite Forall_forall in Hlater. specialize (Hlater e' He'). lia.
Qed.

(** The two early exits of the value scan are sound.  For a converter made
    by [NewKVToSqlRowConverter], a value tuple with strictly ascending tags
    whose requested tags all belong to value columns of the converter, and
    a largest requested value tag other than 0, the value scan leaves the
    row, and reports the error, that the scan without early exit does. *)
Lemma value_scan_is_full_scan (m : gmap N Z) (columns : list (Column SqlVal))
    (width : Z) row entries :
  let conv := NewKVToSqlRowConverter m columns width in
  ascending entries ->
  (forall e, e ∈ entries -> is_Some (m !! e.1) ->
     exists c, c ∈ columns /\ Tag c = e.1 /\ IsPartOfPK c = false) ->
  (0 < maxValTag conv)%N ->
  scanResult (processTuple conv row (valsFromVal conv) (maxValTag conv)
                           (encode entries))
  = fullScan conv row entries.
Proof.
  intros conv Hasc Hcols Hpos.
  destruct (NewKVToSqlRowConverter_valueCols m columns width)
    as (Hm & Hcount & Hmax).
  fold conv in Hm, Hcount, Hmax.
  assert (forall e, e ∈ entries -> requested conv e = true ->
            exists c, c ∈ columns /\ Tag c = e.1 /\ valueCol m c = true)
    as Hvalue.
  { intros e He Hreq. unfold requested in Hreq.
    apply bool_decide_eq_true in Hreq. rewrite Hm in Hreq.
    destruct (Hcols e He Hreq) as (c & Hc & Htag & Hpk).
    exists c. split; [done|]. split; [done|].
    unfold valueCol. rewrite Htag, Hpk.
    by rewrite bool_decide_eq_true_2. }
  unfold processTuple, InitForTuple.
  apply processTuple_loop_fullScan; [done| | |by left].
  - intros e He Hreq. destruct (Hvalue e He Hreq) as (c & Hc & <- & Hv).
    by apply Hmax.
  - rewrite fills_length, Hcount, Z.add_0_l. apply inj_le.
    rewrite <- (length_fmap fst), <- (length_fmap Tag).
    apply submseteq_length, NoDup_submseteq;
      [by apply ascending_requested_NoDup|].
    intros tag Htag. apply list_elem_of_fmap in Htag as (e & -> & He).
    apply list_elem_of_filter in He as [Hreq He].
    destruct (Hvalue e He) as (c & Hc & <- & Hv);
      [by destruct (requested conv e)|].
    apply list_elem_of_fmap_2, list_elem_of_filter. split; [|done].
    by rewrite Hv.
Qed.

End ProjectorFacts.

(** ** An absent value *)

(** C6.  When the value is the absent sentinel (a nil or null value) and the
    key is a well-formed tuple whose requested entries are convertible, the
    call returns a row and no error, whether or not value columns are
    requested.  The row has [rowSize] slots, and every slot that no entry of
    the key tuple is mapped to -- so every slot of a requested value column --
    is nil. *)
Theorem absent_value_is_no_error {SqlVal}
    (conv : KVToSqlRowConverter SqlVal) (entries : list (N * Value))
    (v : option Value) :
  IsNull v = true ->
  0 <= rowSize conv ->
  Forall (convertible conv (rowSize conv)) entries ->
  exists row,
    ConvertKVToSqlRow conv (Some (Tuple (encode entries))) v
    = Returned (Some row, None) /\
    Z.of_nat (length row) = rowSize conv /\
    forall i : nat,
      (i < length row)%nat ->
      (forall e, e ∈ entries ->
                 tagToSqlColIdx conv !! e.1 ≠ Some (Z.of_nat i)) ->
      row !! i = Some None.
Proof.
  intros Hnull Hsize Hok. unfold ConvertKVToSqlRow. rewrite Hnull.
  rewrite (proj2 (Z.ltb_ge _ _) Hsize).
  set (row0 := replicate (Z.to_nat (rowSize conv)) None).
  assert (Z.of_nat (length row0) = rowSize conv) as Hlen0
    by (unfold row0; rewrite length_replicate; lia).
  assert (exists row1 itr1,
    (if 0 <? valsFromKey conv
     then processTuple conv row0 (valsFromKey conv) MaxUint64 (encode entries)
     else Returned (row0, [], None)) = Returned (row1, itr1, None) /\
    length row1 = length row0 /\
    forall i : nat,
      (forall e, e ∈ entries ->
                 tagToSqlColIdx conv !! e.1 ≠ Some (Z.of_nat i)) ->
      row1 !! i = row0 !! i) as (row1 & itr1 & -> & Hlen1 & Hframe).
  { destruct (0 <? valsFromKey conv); [|by exists row0, []].
    unfold processTuple, InitForTuple.
    destruct (processTuple_loop_returns conv (valsFromKey conv) MaxUint64
                entries row0 0 0%N) as (row1 & itr1 & Hrun);
      [by rewrite Hlen0|].
    exists row1, itr1. split; [done|].
    by apply processTuple_loop_frame in Hrun. }
  exists row1.
  replace (if 0 <? valsFromVal conv
           then processTuple conv row1 (valsFromVal conv) (maxValTag conv)
                             zeroTuple
           else Returned (row1, [], None))
    with (Returned (row1, @nil Value, @None error)).
  2:{ destruct (0 <? valsFromVal conv); [|done].
      unfold processTuple, InitForTuple, zeroTuple.
      by rewrite processTuple_loop_nil. }
  split; [done|]. split; [lia|].
  intros i Hi Hfree. rewrite Hframe by done.
  unfold row0. apply lookup_replicate_2. lia.
Qed.

Lemma absent_value_is_no_error_witness :
  exists row,
    ConvertKVToSqlRow Sample.convKV
      (Some (Tuple (encode [(1%N, String "id")]))) (Some Null)
    = Returned (Some row, None) /\
    Z.of_nat (length row) = rowSize Sample.convKV /\
    forall i : nat,
      (i < length row)%nat ->
      (forall e, e ∈ [(1%N, String "id")] ->
                 tagToSqlColIdx Sample.convKV !! e.1 ≠ Some (Z.of_nat i)) ->
      row !! i = Some None.
Proof.
  apply (absent_value_is_no_error Sample.convKV [(1%N, String "id")]
                                  (Some Null)).
  - reflexivity.
  - vm_compute. discriminate.
  - constructor; [|constructor].
    intros idx Hidx. vm_compute in Hidx. injection Hidx as <-.
    split; [vm_compute; split; [discriminate|reflexivity]|].
    exists (Sample.col 1 true), (Some "id"%string). split; reflexivity.
Defined.

(** ** The key scan *)

(** C2 as stated fails: with key columns 1 and 2 stored in that order and
    only column 1 requested, the key scan returns after the first entry and
    never reads the entry of tag 2. *)
Lemma key_scan_exits_when_filled :
  ~ (forall (conv : KVToSqlRowConverter string) (row : Row string)
            (entries : list (N * Value)) row' itr' err,
       0 < valsFromKey conv ->
       processTuple conv row (valsFromKey conv) MaxUint64 (encode entries)
       = Returned (row', itr', err) ->
       itr' = []).
Proof.
  intros Hall.
  specialize (Hall Sample.convKey1 [None]
                   [(1%N, String "a"); (2%N, String "b")]
                   [Some "a"%string] [Uint 2; String "b"] None).
  discriminate Hall; reflexivity.
Qed.

(** C2, amended.  When at least one key column is requested, the key scan of
    a well-formed key tuple (tags below 2^64-1, requested entries
    convertible) reads the entries from the start, in stored order, and is
    never stopped by the size of a tag: it stops before the end of the tuple
    only when as many requested entries have been converted as there are
    requested key columns. *)
Theorem key_scan_stops_only_when_filled {SqlVal}
    (conv : KVToSqlRowConverter SqlVal) (row : Row SqlVal)
    (entries : list (N * Value)) :
  0 < valsFromKey conv ->
  Forall (convertible conv (Z.of_nat (length row))) entries ->
  Forall (fun e => (e.1 < MaxUint64)%N) entries ->
  exists row' k,
    processTuple conv row (valsFromKey conv) MaxUint64 (encode entries)
    = Returned (row', encode (drop k entries), None) /\
    (k <= length entries)%nat /\
    (k = length entries \/
     fills conv (take k entries) = valsFromKey conv).
Proof.
  intros Hkey Hok Htags.
  destruct (processTuple_loop_stops conv (valsFromKey conv) MaxUint64 entries
              row 0 0%N) as (row' & k & Hrun & Hk & Hstop);
    [done|done|done|lia|].
  exists row', k. split; [exact Hrun|]. split; [done|].
  destruct Hstop as [->|Hstop]; [by left|right; lia].
Qed.

Lemma key_scan_stops_only_when_filled_witness :
  exists row' k,
    processTuple Sample.convKey1 [None] (valsFromKey Sample.convKey1)
                 MaxUint64 (encode [(2%N, String "b"); (1%N, String "a")])
    = Returned (row', encode (drop k [(2%N, String "b"); (1%N, String "a")]),
                None) /\
    (k <= 2)%nat /\
    (k = 2%nat \/
     fills Sample.convKey1 (take k [(2%N, String "b"); (1%N, String "a")])
     = valsFromKey Sample.convKey1).
Proof.
  apply (key_scan_stops_only_when_filled Sample.convKey1 [None]
           [(2%N, String "b"); (1%N, String "a")]).
  - reflexivity.
  - constructor; [|constructor; [|constructor]].
    + intros idx Hidx. vm_compute in Hidx. discriminate Hidx.
    + intros idx Hidx. vm_compute in Hidx. injection Hidx as <-.
      split; [vm_compute; split; [discriminate|reflexivity]|].
      exists (Sample.col 1 true), (Some "a"%string). split; reflexivity.
  - repeat constructor.
Defined.

(** ** The value column of tag 0 *)

(** C1 at the failing input.  The converter built for the single value
    column of tag 0 requests that tag into slot 0, the value tuple holds the
    string "x" for it and the column's converter accepts that string; the
    returned row nevertheless holds nil in slot 0. *)
Theorem tag0_value_left_null :
  tagToSqlColIdx Sample.convTag0 !! 0%N = Some 0 /\
  index (cols Sample.convTag0) 0 = Some (Sample.col 0 false) /\
  TypeInfo (Sample.col 0 false) (Some (String "x"))
  = (Some "x"%string, None) /\
  (valsFromVal Sample.convTag0, maxValTag Sample.convTag0) = (1, 0%N) /\
  ConvertKVToSqlRow Sample.convTag0 (Some (Tuple (encode [])))
                    (Some (Tuple (encode [(0%N, String "x")])))
  = Returned (Some [None], None).
Proof. repeat split; reflexivity. Qed.

(** C3 at the failing input.  For the same converter the early-exit scan of
    the value tuple reads nothing and leaves slot 0 nil, where the scan
    without early exit stores the converted string. *)
Theorem tag0_early_exit_differs_from_full_scan :
  processTuple Sample.convTag0 [None] (valsFromVal Sample.convTag0)
               (maxValTag Sample.convTag0) (encode [(0%N, String "x")])
  = Returned ([None], encode [(0%N, String "x")], None) /\
  fullScan Sample.convTag0 [None] [(0%N, String "x")]
  = Returned ([Some "x"%string], None).
Proof. split; reflexivity. Qed.

(** * The auto-sizing stage *)

Section StageFacts.

Import fwt.

Context {PropVal TooLongBehavior : Type}.
Context (Transform : @FWTTransformer TooLongBehavior -> row_Row ->
                     gmap string PropVal ->
                     list (@TransformedRowResult PropVal) * string).
Context (StringWidth RuneCount : string -> Z).
Context (stopChan pickStop : nat -> bool).

Implicit Types (asTr : @AutoSizingFWTTransformer PropVal TooLongBehavior).
Implicit Types (ch : @Chans PropVal) (r : @RowWithProps PropVal).
Implicit Types (pw mr : gmap N Z) (tag : N).

(** [processRow] puts at most one item on the queues and does not poll. *)
Lemma processRow_returns asTr tr r ch :
  fwtTr asTr = Some tr ->
  exists ch',
    processRow Transform asTr r ch = Returned ch' /\
    polls ch' = polls ch /\
    (emitted ch <= emitted ch' <= emitted ch + 1)%nat.
Proof.
  intros Htr. unfold processRow. rewrite Htr.
  destruct (Transform tr (Row r) (Props r)) as [rds errMsg].
  destruct (negb (String.eqb errMsg "")).
  - eexists. split; [done|]. unfold emitted. simpl.
    rewrite length_app. simpl. lia.
  - destruct rds as [|rd [|]]; eexists; (split; [done|]);
      unfold emitted; simpl; rewrite ?length_app; simpl; lia.
Qed.

(** The outcome of [processRow] depends on the queues only through what it
    appends to them. *)
Lemma processRow_queues asTr r ch1 ch2 ch1' :
  processRow Transform asTr r ch1 = Returned ch1' ->
  outChan ch1 = outChan ch2 -> badRowChan ch1 = badRowChan ch2 ->
  exists ch2',
    processRow Transform asTr r ch2 = Returned ch2' /\
    outChan ch1' = outChan ch2' /\ badRowChan ch1' = badRowChan ch2'.
Proof.
  unfold processRow. intros Hrun Hout Hbad.
  destruct (fwtTr asTr) as [tr|]; [|done].
  destruct (Transform tr (Row r) (Props r)) as [rds errMsg].
  destruct (negb (String.eqb errMsg "")).
  - injection Hrun as <-. eexists. split; [done|]. simpl. by rewrite Hout, Hbad.
  - destruct rds as [|rd [|]]; injection Hrun as <-;
      (eexists; split; [done|]); simpl; by rewrite ?Hout, ?Hbad.
Qed.

End StageFacts.

(** ** A result list of the wrong length *)

(** C9.  When the formatter reports no error but returns a result list whose
    length is not one, [processRow] leaves both queues as they are: the row
    is forwarded nowhere and no failure is reported for it. *)
Theorem processRow_drops_other_lengths {PropVal TooLongBehavior}
    (Transform : @fwt.FWTTransformer TooLongBehavior -> fwt.row_Row ->
                 gmap string PropVal ->
                 list (@fwt.TransformedRowResult PropVal) * string)
    (asTr : @fwt.AutoSizingFWTTransformer PropVal TooLongBehavior)
    (tr : fwt.FWTTransformer) (r : fwt.RowWithProps) (ch : fwt.Chans)
    (rds : list fwt.TransformedRowResult) :
  fwt.fwtTr asTr = Some tr ->
  Transform tr (fwt.Row r) (fwt.Props r) = (rds, ""%string) ->
  length rds ≠ 1%nat ->
  fwt.processRow Transform asTr r ch = Returned ch.
Proof.
  intros Htr Hfmt Hlen. unfold fwt.processRow. rewrite Htr, Hfmt. simpl.
  by destruct rds as [|rd [|]].
Qed.

Lemma processRow_drops_other_lengths_witness :
  fwt.processRow Sample.dropAll
    (fwt.with_fwtTr (fwt.NewAutoSizingFWTTransformer [1%N] tt 1)
       (fwt.NewFWTTransformer (fwt.NewFWTSchemaWithWidths [1%N] ∅ ∅) tt))
    (Sample.textRow "a") Sample.noChans
  = Returned Sample.noChans.
Proof.
  apply (processRow_drops_other_lengths Sample.dropAll _
           (fwt.NewFWTTransformer (fwt.NewFWTSchemaWithWidths [1%N] ∅ ∅) tt)
           (Sample.textRow "a") Sample.noChans []).
  - reflexivity.
  - reflexivity.
  - discriminate.
Defined.

(** ** Sampling *)

Section Sampling.

Import fwt.

Context {PropVal TooLongBehavior : Type}.
Context (Transform : @FWTTransformer TooLongBehavior -> row_Row ->
                     gmap string PropVal ->
                     list (@TransformedRowResult PropVal) * string).
Context (StringWidth RuneCount : string -> Z).
Context (stopChan pickStop : nat -> bool).

Implicit Types (asTr : @AutoSizingFWTTransformer PropVal TooLongBehavior).
Implicit Types (ch : @Chans PropVal) (r : @RowWithProps PropVal).
Implicit Types (pw mr : gmap N Z) (tag : N).

(** The callback panics on a value that is neither null nor a string. *)
Lemma sampleCol_panics r pw mr tag v :
  Row r !! tag = Some v -> v ≠ Null -> (forall s, v ≠ String s) ->
  sampleCol StringWidth RuneCount (Row r) (pw, mr) tag = Panicked.
Proof.
  intros Hv Hnull Hstr. unfold sampleCol. rewrite Hv.
  destruct v; simpl; try done. by destruct (Hstr s).
Qed.

Lemma IterSchema_panics r sch tag v :
  tag ∈ sch ->
  Row r !! tag = Some v -> v ≠ Null -> (forall s, v ≠ String s) ->
  forall acc, IterSchema StringWidth RuneCount (Row r) sch acc = Panicked.
Proof.
  intros Hin Hv Hnull Hstr.
  induction sch as [|tag' sch IH]; intros [pw mr].
  - by apply elem_of_nil in Hin.
  - cbn [IterSchema]. apply elem_of_cons in Hin as [<-|Hin].
    + by rewrite (sampleCol_panics r pw mr tag v).
    + destruct (sampleCol _ _ _ _ _) as [acc'|]; [|done].
      cbn. by apply IH.
Qed.

Lemma bump_idemp cur o : bump (bump cur o) o = bump cur o.
Proof. destruct o; simpl; lia. Qed.

Lemma mapGet_insert (m : gmap N Z) tag t w :
  mapGet (<[tag := w]> m) t = if decide (t = tag) then w else mapGet m t.
Proof.
  unfold mapGet. destruct (decide (t = tag)) as [->|Hne].
  - by rewrite lookup_insert_eq.
  - by rewrite lookup_insert_ne.
Qed.

(** One column of one row, when its value is null or a string. *)
Lemma sampleCol_returns r pw mr tag :
  IsNull (Row r !! tag) = true \/ (exists s, Row r !! tag = Some (String s)) ->
  exists pw' mr',
    sampleCol StringWidth RuneCount (Row r) (pw, mr) tag
    = Returned (pw', mr') /\
    (forall t, mapGet pw' t
               = if decide (t = tag)
                 then bump (mapGet pw t) (observe StringWidth tag r)
                 else mapGet pw t) /\
    (forall t, mapGet mr' t
               = if decide (t = tag)
                 then bump (mapGet mr t) (observe RuneCount tag r)
                 else mapGet mr t) /\
    (forall t, t ≠ tag -> pw' !! t = pw !! t /\ mr' !! t = mr !! t).
Proof.
  intros Hval. unfold sampleCol, observe.
  destruct Hval as [Hnull|[s Hs]].
  - rewrite Hnull. exists pw, mr. split; [done|].
    assert (forall f, match Row r !! tag with
                      | Some (String s) => Some (f s)
                      | _ => None
                      end = @None Z) as Hobs.
    { intros f. by destruct (Row r !! tag) as [[]|]. }
    rewrite !Hobs. simpl.
    repeat split; intros t; by destruct (decide (t = tag)).
  - rewrite Hs. simpl. eexists _, _. split; [done|].
    split; [|split].
    + intros t. destruct (Z.ltb_spec (mapGet pw tag) (StringWidth s)).
      * rewrite mapGet_insert. destruct (decide (t = tag)) as [->|]; [lia|done].
      * destruct (decide (t = tag)) as [->|]; [lia|done].
    + intros t. destruct (Z.ltb_spec (mapGet mr tag) (RuneCount s)).
      * rewrite mapGet_insert. destruct (decide (t = tag)) as [->|]; [lia|done].
      * destruct (decide (t = tag)) as [->|]; [lia|done].
    + intros t Hne.
      destruct (_ <? StringWidth s), (_ <? RuneCount s);
        by rewrite ?lookup_insert_ne.
Qed.

(** One row, when its values for the columns of the schema are null or
    strings. *)
Lemma IterSchema_returns r sch :
  stringsOnly sch r ->
  forall pw mr,
  exists pw' mr',
    IterSchema StringWidth RuneCount (Row r) sch (pw, mr)
    = Returned (pw', mr') /\
    (forall t, t ∈ sch ->
       mapGet pw' t = bump (mapGet pw t) (observe StringWidth t r) /\
       mapGet mr' t = bump (mapGet mr t) (observe RuneCount t r)) /\
    (forall t, t ∉ sch -> pw' !! t = pw !! t /\ mr' !! t = mr !! t).
Proof.
  unfold stringsOnly.
  induction sch as [|tag sch IH]; intros Hok pw mr.
  - exists pw, mr. split; [done|]. split; [|done].
    intros t Ht. by apply elem_of_nil in Ht.
  - cbn [IterSchema].
    destruct (sampleCol_returns r pw mr tag) as
      (pw1 & mr1 & -> & Hpw1 & Hmr1 & Hdom1);
      [apply Hok, elem_of_cons; by left|].
    destruct (IH (fun t Ht => Hok t (proj2 (elem_of_cons _ _ _) (or_intror Ht))) pw1 mr1)
      as (pw' & mr' & Hrun & Hin & Hout).
    exists pw', mr'. split; [exact Hrun|]. split.
    + intros t Ht. destruct (decide (t ∈ sch)) as [Hsch|Hsch].
      * destruct (Hin t Hsch) as [-> ->]. rewrite Hpw1, Hmr1.
        destruct (decide (t = tag)) as [->|]; [|done].
        by rewrite !bump_idemp.
      * apply elem_of_cons in Ht as [->|Ht]; [|done].
        destruct (Hout tag Hsch) as [Hp Hm].
        unfold mapGet at 1 3. rewrite Hp, Hm.
        fold (mapGet pw1 tag) (mapGet mr1 tag). rewrite Hpw1, Hmr1.
        by destruct (decide (tag = tag)).
    + intros t Ht. apply not_elem_of_cons in Ht as [Hne Ht].
      destruct (Hout t Ht) as [-> ->]. by apply Hdom1.
Qed.

(** C10.  While the stage samples, a row holding, for some column of the
    schema, a value that is neither null nor a string makes [handleRow]
    panic: nothing is returned and nothing is put on a queue. *)
Theorem handleRow_panics_on_non_string asTr r ch buf tag v :
  rowBuffer asTr = Some buf ->
  numSamples asTr <= 0 \/ Z.of_nat (length buf) < numSamples asTr ->
  tag ∈ sch asTr ->
  Row r !! tag = Some v -> v ≠ Null -> (forall s, v ≠ String s) ->
  handleRow Transform StringWidth RuneCount stopChan asTr r ch = Panicked.
Proof.
  intros Hbuf Hroom Hin Hv Hnull Hstr. unfold handleRow. rewrite Hbuf.
  assert ((numSamples asTr <=? 0)
          || (Z.of_nat (length buf) <? numSamples asTr) = true) as ->.
  { apply orb_true_iff. rewrite Z.leb_le, Z.ltb_lt. done. }
  by rewrite (IterSchema_panics r (sch asTr) tag v).
Qed.

(** *** The widths learned from a sample *)

Lemma maxObserved_nonneg f tag (rows : list (@RowWithProps PropVal)) :
  0 <= maxObserved f tag rows.
Proof.
  unfold maxObserved. induction (omap (observe f tag) rows); simpl; lia.
Qed.

Lemma maxObserved_cons f tag r (rows : list (@RowWithProps PropVal)) :
  maxObserved f tag (r :: rows)
  = match observe f tag r with
    | Some w => Z.max w (maxObserved f tag rows)
    | None => maxObserved f tag rows
    end.
Proof. unfold maxObserved. simpl. by destruct (observe f tag r). Qed.

(** Folding the observations of the rows, one after the other, into a
    reading that starts at [cur]. *)
Lemma foldl_bump_maxObserved f tag (rows : list (@RowWithProps PropVal)) :
  forall cur, 0 <= cur ->
    foldl (fun cur r => bump cur (observe f tag r)) cur rows
    = Z.max cur (maxObserved f tag rows).
Proof.
  induction rows as [|r rows IH]; intros cur Hcur.
  - unfold maxObserved. simpl. lia.
  - simpl. rewrite maxObserved_cons.
    pose proof (maxObserved_nonneg f tag rows).
    destruct (observe f tag r) as [w|]; simpl; rewrite IH; lia.
Qed.

(** *** Runs without cancellation *)

(** With the stop channel never closed the replay of [flush] is the plain
    replay of the rows. *)
Lemma flush_loop_never asTr tr rest :
  (forall t, stopChan t = false) ->
  fwtTr asTr = Some tr ->
  forall ch1 ch2 i,
    outChan ch1 = outChan ch2 -> badRowChan ch1 = badRowChan ch2 ->
    exists ch1' ch2',
      flush_loop Transform stopChan asTr ch1 i rest = Returned (ch1', false) /\
      replay Transform asTr ch2 rest = Returned ch2' /\
      outChan ch1' = outChan ch2' /\ badRowChan ch1' = badRowChan ch2'.
Proof.
  intros Hnever Htr.
  induction rest as [|r rest IH]; intros ch1 ch2 i Hout Hbad.
  - exists ch1, ch2. done.
  - cbn [flush_loop replay].
    destruct (processRow_returns Transform asTr tr r ch1 Htr)
      as (ch1a & Hrun1 & _ & _).
    destruct (processRow_queues Transform asTr r ch1 ch2 ch1a Hrun1 Hout Hbad)
      as (ch2a & Hrun2 & Hout' & Hbad').
    rewrite Hrun1, Hrun2. cbn.
    destruct (i mod 100 =? 0).
    + unfold poll. rewrite Hnever. by apply IH.
    + by apply IH.
Qed.

(** [replay] depends on the queues only through what it appends to them,
    and on the stage only through its formatter. *)
Lemma replay_queues asTr asTr' rows :
  fwtTr asTr = fwtTr asTr' ->
  forall ch1 ch2 flushed,
    outChan ch1 = outChan ch2 -> badRowChan ch1 = badRowChan ch2 ->
    replay Transform asTr ch1 rows = Returned flushed ->
    exists flushed',
      replay Transform asTr' ch2 rows = Returned flushed' /\
      outChan flushed = outChan flushed' /\
      badRowChan flushed = badRowChan flushed'.
Proof.
  intros Htr.
  induction rows as [|r rows IH]; intros ch1 ch2 flushed Hout Hbad.
  - intros [= <-]. by exists ch2.
  - cbn [replay].
    destruct (processRow Transform asTr r ch1) as [ch1'|] eqn:Hrun; [|done].
    destruct (processRow_queues Transform asTr r ch1 ch2 ch1' Hrun Hout Hbad)
      as (ch2' & Hrun' & Hout' & Hbad').
    replace (processRow Transform asTr' r ch2) with (Returned ch2')
      by (rewrite <- Hrun'; unfold processRow; by rewrite Htr).
    cbn. by apply IH.
Qed.

(** The whole run of a stage that is still sampling when its input ends. *)
Lemma sampling_run :
  (forall t, stopChan t = false) ->
  forall rows asTr ch buf,
    rowBuffer asTr = Some buf ->
    fwtTr asTr = None ->
    numSamples asTr <= 0 \/
      Z.of_nat (length buf + length rows) <= numSamples asTr ->
    Forall (stringsOnly (sch asTr)) rows ->
    exists pw mr ch' flushed,
      TransformToFWT Transform StringWidth RuneCount stopChan pickStop
                     asTr ch rows
      = Returned {| stage := materialized asTr pw mr; chans := ch';
                    unread := []; cancelled := false |} /\
      (forall t, t ∈ sch asTr ->
         mapGet pw t
         = foldl (fun cur r => bump cur (observe StringWidth t r))
                 (mapGet (printWidths asTr) t) rows /\
         mapGet mr t
         = foldl (fun cur r => bump cur (observe RuneCount t r))
                 (mapGet (maxRunes asTr) t) rows) /\
      (forall t, t ∉ sch asTr ->
         pw !! t = printWidths asTr !! t /\ mr !! t = maxRunes asTr !! t) /\
      (rows = [] -> pw = printWidths asTr /\ mr = maxRunes asTr) /\
      replay Transform (materialized asTr pw mr) ch (buf ++ rows)
      = Returned flushed /\
      outChan ch' = outChan flushed /\ badRowChan ch' = badRowChan flushed.
Proof.
  intros Hnever.
  induction rows as [|r rows IH]; intros asTr ch buf Hbuf Htr Hroom Hok.
  - cbn [TransformToFWT]. unfold poll. rewrite !Hnever. cbn.
    unfold flush. rewrite Htr.
    set (tr := NewFWTTransformer _ _).
    destruct (flush_loop_never (with_fwtTr asTr tr) tr buf Hnever eq_refl
                {| outChan := outChan ch; badRowChan := badRowChan ch;
                   polls := S (S (polls ch)) |} ch 0 eq_refl eq_refl)
      as (ch1' & flushed & Hloop & Hreplay & Hout & Hbad).
    destruct (replay_queues (with_fwtTr asTr tr)
                (materialized asTr (printWidths asTr) (maxRunes asTr)) buf
                eq_refl ch ch flushed eq_refl eq_refl Hreplay)
      as (flushed' & Hreplay' & Hout' & Hbad').
    exists (printWidths asTr), (maxRunes asTr), ch1', flushed'.
    replace (default [] (rowBuffer (with_fwtTr asTr tr))) with buf
      by (simpl; by rewrite Hbuf).
    rewrite Hloop. cbn. rewrite app_nil_r.
    split; [by destruct asTr|]. split; [done|]. split; [done|].
    split; [done|]. split; [done|]. split; congruence.
  - apply Forall_cons in Hok as [Hr Hok].
    cbn [TransformToFWT]. unfold poll. rewrite !Hnever. cbn.
    unfold handleRow. rewrite Hbuf.
    assert ((numSamples asTr <=? 0)
            || (Z.of_nat (length buf) <? numSamples asTr) = true) as ->.
    { apply orb_true_iff. rewrite Z.leb_le, Z.ltb_lt. simpl in Hroom. lia. }
    destruct (IterSchema_returns r (sch asTr) Hr
                (printWidths asTr) (maxRunes asTr))
      as (pw1 & mr1 & -> & Hin1 & Hout1).
    cbn.
    set (asTr' := with_rowBuffer (with_widths asTr pw1 mr1)
                                 (Some (buf ++ [r]))).
    set (ch2 := {| outChan := outChan ch; badRowChan := badRowChan ch;
                   polls := S (S (polls ch)) |}).
    destruct (IH asTr' ch2 (buf ++ [r]))
      as (pw & mr & ch' & flushed & Hrun & Hin & Hout & _ & Hreplay & Hq);
      [done|done| |done|].
    { simpl. rewrite length_app. simpl in *. lia. }
    rewrite <- app_assoc in Hreplay. cbn [app] in Hreplay.
    destruct (replay_queues (materialized asTr' pw mr)
                (materialized asTr pw mr) (buf ++ r :: rows)
                eq_refl ch2 ch flushed eq_refl eq_refl Hreplay)
      as (flushed' & Hreplay' & Hout' & Hbad').
    exists pw, mr, ch', flushed'.
    split; [exact Hrun|]. split; [|split; [|split; [done|]]].
    + intros t Ht. destruct (Hin t Ht) as [-> ->].
      destruct (Hin1 t Ht) as [Hp Hm]. cbn. by rewrite <- Hp, <- Hm.
    + intros t Ht. destruct (Hout t Ht) as [-> ->]. by apply Hout1.
    + split; [exact Hreplay'|]. destruct Hq as [-> ->]. done.
Qed.

End Sampling.

Lemma handleRow_panics_on_non_string_witness :
  fwt.handleRow Sample.forward Sample.byteWidth Sample.byteWidth Sample.never
    (fwt.NewAutoSizingFWTTransformer [1%N] tt 0)
    {| fwt.Row := {[ 1%N := Uint 5 ]}; fwt.Props := ∅ |} Sample.noChans
  = Panicked.
Proof.
  apply (handleRow_panics_on_non_string Sample.forward Sample.byteWidth
           Sample.byteWidth Sample.never _ _ _ [] 1%N (Uint 5)).
  - reflexivity.
  - left. reflexivity.
  - apply list_elem_of_singleton. reflexivity.
  - reflexivity.
  - discriminate.
  - discriminate.
Defined.

(** ** The row that finds the sample full *)

(** C4 at the failing input.  With a sample size of 1, a formatter that
    forwards every row and no cancellation, the rows "a", "bb" and "ccc" are
    all read and the run ends normally; "a" is replayed when "bb" arrives
    and "ccc" is passed through, but "bb", the row that finds the sample
    full, reaches neither queue. *)
Theorem row_at_threshold_is_dropped :
  exists run,
    fwt.TransformToFWT Sample.forward Sample.byteWidth Sample.byteWidth
      Sample.never Sample.never
      (fwt.NewAutoSizingFWTTransformer [1%N] tt 1) Sample.noChans
      [Sample.textRow "a"; Sample.textRow "bb"; Sample.textRow "ccc"]
    = Returned run /\
    fwt.unread run = [] /\ fwt.cancelled run = false /\
    fwt.outChan (fwt.chans run)
    = [Sample.textRow "a"; Sample.textRow "ccc"] /\
    fwt.badRowChan (fwt.chans run) = [].
Proof. eexists. split; [vm_compute; reflexivity|]. repeat split. Qed.

(** * Further properties of the projector *)

Section ProjectorMore.

Context {SqlVal : Type}.
Implicit Types (conv : KVToSqlRowConverter SqlVal) (row : Row SqlVal).
Implicit Types (entries : list (N * Value)) (e : N * Value).
Implicit Types (tup itr : list Value) (m : gmap N Z).
Implicit Types (columns : list (Column SqlVal)).

(** ** The counters of the converter *)

Local Ltac triple_eq :=
  apply pair_equal_spec; split; [apply pair_equal_spec; split|].

Lemma getValLocations_step_counts m fromKey fromVal maxTag
    (c : Column SqlVal) :
  getValLocations_step m (fromKey, fromVal, maxTag) c
  = (if keyCol m c then fromKey + 1 else fromKey,
     if valueCol m c then fromVal + 1 else fromVal,
     if valueCol m c then N.max maxTag (Tag c) else maxTag).
Proof.
  unfold getValLocations_step, keyCol, valueCol, maxU64.
  destruct (m !! Tag c) as [idx|].
  - rewrite bool_decide_eq_true_2 by eauto.
    destruct (IsPartOfPK c); simpl; [done|].
    destruct (N.ltb_spec (Tag c) maxTag); triple_eq; lia.
  - by rewrite bool_decide_eq_false_2 by (by intros [? ?]).
Qed.

Lemma getValLocations_foldl_counts m columns :
  forall fromKey fromVal maxTag,
    foldl (getValLocations_step m) (fromKey, fromVal, maxTag) columns
    = (fromKey + Z.of_nat (length (filter (fun c => keyCol m c) columns)),
       fromVal + Z.of_nat (length (filter (fun c => valueCol m c) columns)),
       N.max maxTag (maxValueTag m columns)).
Proof.
  unfold maxValueTag.
  induction columns as [|c columns IH]; intros fromKey fromVal maxTag.
  - simpl. triple_eq; lia.
  - cbn [foldl]. rewrite getValLocations_step_counts, IH, !filter_cons.
    destruct (keyCol m c), (valueCol m c);
      repeat (destruct (decide _) as [Hd|Hd]; try (by destruct Hd));
      simpl; triple_eq; try lia; symmetry; apply N.max_assoc.
Qed.

Lemma getValLocations_spec m columns :
  getValLocations m columns
  = (Z.of_nat (length (filter (fun c => keyCol m c) columns)),
     Z.of_nat (length (filter (fun c => valueCol m c) columns)),
     maxValueTag m columns).
Proof.
  unfold getValLocations. rewrite getValLocations_foldl_counts.
  triple_eq; lia.
Qed.

(** X1.  [getValLocations] returns the number of requested key columns, the
    number of requested value columns, and the largest tag among the
    requested value columns (0 when none is requested); a column is
    requested when its tag is a key of the mapping. *)
Theorem getValLocations_counts m columns :
  getValLocations m columns
  = (Z.of_nat (length (filter (fun c => keyCol m c) columns)),
     Z.of_nat (length (filter (fun c => valueCol m c) columns)),
     maxValueTag m columns).
Proof. apply getValLocations_spec. Qed.

(** ** The converter for a list of columns *)

Lemma tagIndexOfCols_snoc columns (c : Column SqlVal) :
  tagIndexOfCols (columns ++ [c])
  = <[Tag c := Z.of_nat (length columns)]> (tagIndexOfCols columns).
Proof.
  unfold tagIndexOfCols. rewrite imap_app, foldl_app. simpl.
  by rewrite Nat.add_0_r.
Qed.

Lemma tagIndexOfCols_is_Some columns (c : Column SqlVal) :
  c ∈ columns -> is_Some (tagIndexOfCols columns !! Tag c).
Proof.
  induction columns as [|c0 columns IH] using rev_ind; intros Hc.
  - by apply elem_of_nil in Hc.
  - rewrite tagIndexOfCols_snoc.
    destruct (decide (Tag c0 = Tag c)) as [Heq|Hne].
    + rewrite Heq, lookup_insert_eq. eauto.
    + rewrite lookup_insert_ne by done. apply IH.
      apply elem_of_app in Hc as [Hc|Hc]; [done|].
      apply list_elem_of_singleton in Hc. congruence.
Qed.

Lemma tagIndexOfCols_lookup columns tag idx :
  tagIndexOfCols columns !! tag = Some idx <->
  exists (i : nat) (c : Column SqlVal),
    idx = Z.of_nat i /\ columns !! i = Some c /\ Tag c = tag /\
    forall (j : nat) c', (i < j)%nat -> columns !! j = Some c' -> Tag c' ≠ tag.
Proof.
  revert idx. induction columns as [|c0 columns IH] using rev_ind; intros idx.
  - split; [done|]. by intros (i & c & _ & Hi & _).
  - rewrite tagIndexOfCols_snoc.
    destruct (decide (Tag c0 = tag)) as [Heq|Hne].
    + rewrite Heq, lookup_insert_eq. split.
      * intros [= <-]. exists (length columns), c0.
        split; [done|]. split; [by apply list_lookup_middle|].
        split; [done|]. intros j c' Hj Hc'.
        apply lookup_lt_Some in Hc'. rewrite length_app in Hc'. simpl in Hc'.
        lia.
      * intros (i & c & -> & Hi & Htag & Hlast).
        pose proof (lookup_lt_Some _ _ _ Hi) as Hlt.
        rewrite length_app in Hlt. simpl in Hlt.
        destruct (decide (i = length columns)) as [->|Hi']; [done|].
        destruct (Hlast (length columns) c0); [lia| |done].
        by apply list_lookup_middle.
    + rewrite lookup_insert_ne by done. rewrite IH. split.
      * intros (i & c & -> & Hi & Htag & Hlast).
        exists i, c. split; [done|].
        split; [by apply lookup_app_l_Some|]. split; [done|].
        intros j c' Hj Hc'.
        apply lookup_app_Some in Hc' as [Hc'|[Hlen Hc']]; [by eapply Hlast|].
        apply list_lookup_singleton_Some in Hc' as [_ <-]. done.
      * intros (i & c & -> & Hi & Htag & Hlast).
        apply lookup_app_Some in Hi as [Hi|[Hlen Hi]].
        -- exists i, c. split; [done|]. split; [done|]. split; [done|].
           intros j c' Hj Hc'. eapply Hlast; [done|].
           by apply lookup_app_l_Some.
        -- apply list_lookup_singleton_Some in Hi as [_ <-]. done.
Qed.

Lemma filter_keyCol_valueCol m columns :
  (forall c, c ∈ columns -> is_Some (m !! Tag c)) ->
  (length (filter (fun c => keyCol m c) columns)
   + length (filter (fun c => valueCol m c) columns) = length columns)%nat.
Proof.
  induction columns as [|c columns IH]; intros Hall; [done|].
  assert (keyCol m c = IsPartOfPK c /\ valueCol m c = negb (IsPartOfPK c))
    as [Hk Hv].
  { unfold keyCol, valueCol.
    by rewrite bool_decide_eq_true_2 by (apply Hall, elem_of_cons; by left). }
  specialize (IH (fun c' Hc' => Hall c' (proj2 (elem_of_cons _ _ _)
                                              (or_intror Hc')))).
  rewrite !filter_cons, Hk, Hv.
  destruct (IsPartOfPK c); simpl;
    repeat (destruct (decide _) as [Hd|Hd]; try (by destruct Hd));
    simpl; lia.
Qed.

(** X2.  The converter [NewKVToSqlRowConverterForCols] builds for a list of
    columns maps a tag to the index of the last column that carries it, and
    maps no other tag; its rows are as wide as the list; and it counts every
    column as requested, as a key or as a value column. *)
Theorem NewKVToSqlRowConverterForCols_mapping columns :
  let conv := NewKVToSqlRowConverterForCols columns in
  (forall tag idx,
     tagToSqlColIdx conv !! tag = Some idx <->
     exists (i : nat) (c : Column SqlVal),
       idx = Z.of_nat i /\ columns !! i = Some c /\ Tag c = tag /\
       forall (j : nat) c',
         (i < j)%nat -> columns !! j = Some c' -> Tag c' ≠ tag) /\
  cols conv = columns /\
  rowSize conv = Z.of_nat (length columns) /\
  valsFromKey conv + valsFromVal conv = Z.of_nat (length columns).
Proof.
  unfold NewKVToSqlRowConverterForCols, NewKVToSqlRowConverter.
  rewrite getValLocations_spec. cbn.
  split; [apply tagIndexOfCols_lookup|]. split; [done|]. split; [done|].
  rewrite <- Nat2Z.inj_add. f_equal.
  apply filter_keyCol_valueCol. apply tagIndexOfCols_is_Some.
Qed.

(** ** The shape of the returned row *)

(** The loop never resizes the row, whatever the cursor holds. *)
Lemma processTuple_loop_length conv valsToFill maxTag :
  forall n itr, (length itr <= n)%nat ->
  forall row filled tag64 row' itr' err,
    processTuple_loop conv valsToFill maxTag row filled tag64 itr
    = Returned (row', itr', err) ->
    length row' = length row.
Proof.
  induction n as [|n IH]; intros itr Hn row filled tag64 row' itr' err.
  - destruct itr; [|simpl in Hn; lia].
    rewrite processTuple_loop_nil. by intros [= <- _ _].
  - destruct itr as [|tag itr1]; [rewrite processTuple_loop_nil;
                                  by intros [= <- _ _]|].
    simpl in Hn. cbn [processTuple_loop].
    destruct (_ && _); [|by intros [= <- _ _]].
    destruct tag as [|tag64'| | |]; try done.
    destruct (maxTag <? tag64')%N; [by intros [= <- _ _]|].
    assert (length (Advance itr1) <= n)%nat as Hadv
      by (destruct itr1; simpl in *; lia).
    destruct (tagToSqlColIdx conv !! tag64') as [idx|]; [|by apply IH].
    destruct (index (cols conv) idx) as [col|]; [|done].
    destruct (TypeInfo col (NextVal itr1)) as [x [e|]];
      destruct (inRange row idx); try done.
    + intros [= <- _ _]. by rewrite length_insert.
    + intros Hrun. apply IH in Hrun; [|done]. by rewrite length_insert in Hrun.
Qed.

Lemma processTuple_length conv row valsToFill maxTag tup row' itr' err :
  processTuple conv row valsToFill maxTag tup = Returned (row', itr', err) ->
  length row' = length row.
Proof. by apply (processTuple_loop_length conv _ _ (length tup)). Qed.

(** X3.  Whatever the key and the value are -- well-formed tuples or not --
    a row that [ConvertKVToSqlRow] returns has exactly [rowSize] slots. *)
Theorem ConvertKVToSqlRow_row_width conv (k v : option Value) row err :
  ConvertKVToSqlRow conv k v = Returned (Some row, err) ->
  Z.of_nat (length row) = rowSize conv.
Proof.
  unfold ConvertKVToSqlRow.
  destruct k as [[]|]; try done.
  destruct (if IsNull v then _ else _) as [valTup|]; [|done].
  destruct (Z.ltb_spec (rowSize conv) 0) as [|Hsize]; [done|].
  set (row0 := replicate (Z.to_nat (rowSize conv)) None).
  assert (length row0 = Z.to_nat (rowSize conv)) as Hlen0
    by apply length_replicate.
  destruct (if 0 <? valsFromKey conv then _ else _)
    as [[[row1 itr1] [e|]]|] eqn:Hkey; try done.
  assert (length row1 = length row0) as Hlen1.
  { destruct (0 <? valsFromKey conv); [|by injection Hkey as <- _].
    by apply processTuple_length in Hkey. }
  destruct (if 0 <? valsFromVal conv then _ else _)
    as [[[row2 itr2] [e|]]|] eqn:Hval; try done.
  assert (length row2 = length row1) as Hlen2.
  { destruct (0 <? valsFromVal conv); [|by injection Hval as <- _].
    by apply processTuple_length in Hval. }
  intros [= <- _]. lia.
Qed.

(** X4.  When none of the column descriptors carries a requested tag, the
    converter made by [NewKVToSqlRowConverter] reads neither tuple: for every
    key tuple and every value that is absent or a tuple it returns the row
    of [rowSize] nil slots, even when the tuples store requested tags. *)
Theorem nothing_requested_row_is_nil m columns (width : Z) tup
    (v : option Value) :
  (forall c, c ∈ columns -> m !! Tag c = None) ->
  0 <= width ->
  IsNull v = true \/ isTuple v = true ->
  ConvertKVToSqlRow (NewKVToSqlRowConverter m columns width)
                    (Some (Tuple tup)) v
  = Returned (Some (replicate (Z.to_nat width) None), None).
Proof.
  intros Hnone Hwidth Hv.
  assert (forall f : Column SqlVal -> bool,
            (forall c, f c = true -> is_Some (m !! Tag c)) ->
            filter (fun c => f c) columns = []) as Hfilter.
  { intros f Hf. clear -Hnone Hf.
    induction columns as [|c columns IH]; [done|].
    rewrite filter_cons. destruct (decide _) as [Hd|_].
    - apply Is_true_true, Hf in Hd. rewrite Hnone in Hd; [by destruct Hd|].
      apply elem_of_cons. by left.
    - apply IH. intros c' Hc'. apply Hnone, elem_of_cons. by right. }
  unfold ConvertKVToSqlRow, NewKVToSqlRowConverter.
  rewrite getValLocations_spec.
  rewrite !Hfilter.
  2:{ intros c Hc. unfold valueCol in Hc.
      apply andb_true_iff in Hc as [Hc _]. by apply bool_decide_eq_true in Hc. }
  2:{ intros c Hc. unfold keyCol in Hc.
      apply andb_true_iff in Hc as [Hc _]. by apply bool_decide_eq_true in Hc. }
  cbn. rewrite (proj2 (Z.ltb_ge _ _) Hwidth).
  destruct Hv as [->|Hv]; [done|].
  destruct v as [[]|]; try done.
Qed.

(** X5.  In a row returned for a well-formed key tuple and a well-formed
    value tuple, every slot that no tag stored in either tuple is mapped to
    is nil. *)
Theorem ConvertKVToSqlRow_other_slots_nil conv
    (keyEntries valEntries : list (N * Value)) row err (i : nat) :
  ConvertKVToSqlRow conv (Some (Tuple (encode keyEntries)))
                    (Some (Tuple (encode valEntries)))
  = Returned (Some row, err) ->
  (forall e, e ∈ keyEntries ++ valEntries ->
             tagToSqlColIdx conv !! e.1 ≠ Some (Z.of_nat i)) ->
  (i < length row)%nat ->
  row !! i = Some None.
Proof.
  unfold ConvertKVToSqlRow. cbn [IsNull].
  destruct (Z.ltb_spec (rowSize conv) 0) as [|Hsize]; [done|].
  set (row0 := replicate (Z.to_nat (rowSize conv)) None).
  destruct (if 0 <? valsFromKey conv then _ else _)
    as [[[row1 itr1] [e|]]|] eqn:Hkey; try done.
  destruct (if 0 <? valsFromVal conv then _ else _)
    as [[[row2 itr2] [e|]]|] eqn:Hval; try done.
  intros [= <- _] Hfree Hi.
  assert (length row1 = length row0 /\ row1 !! i = row0 !! i) as [Hlen1 Hrow1].
  { destruct (0 <? valsFromKey conv); [|by injection Hkey as <- _].
    apply processTuple_loop_frame in Hkey as [Hlen Hframe].
    split; [done|]. apply Hframe. intros e0 He0. apply Hfree, elem_of_app.
    by left. }
  assert (length row2 = length row1 /\ row2 !! i = row1 !! i) as [Hlen2 Hrow2].
  { destruct (0 <? valsFromVal conv); [|by injection Hval as <- _].
    apply processTuple_loop_frame in Hval as [Hlen Hframe].
    split; [done|]. apply Hframe. intros e0 He0. apply Hfree, elem_of_app.
    by right. }
  rewrite Hrow2, Hrow1. apply lookup_replicate_2.
  unfold row0 in Hlen1. rewrite length_replicate in Hlen1. lia.
Qed.

(** ** The key scan against the scan without early exit *)

(** A scan that no tag can stop and that has room for every requested
    entry agrees with the scan without early exit. *)
Lemma processTuple_loop_fullScan_below conv valsToFill maxTag entries :
  Forall (fun e => (e.1 < maxTag)%N) entries ->
  forall row filled tag64,
    (tag64 < maxTag)%N ->
    filled + fills conv entries <= valsToFill ->
    scanResult (processTuple_loop conv valsToFill maxTag row filled tag64
                                  (encode entries))
    = fullScan conv row entries.
Proof.
  induction entries as [|e entries IH];
    intros Hbelow row filled tag64 Htag Hroom.
  - change (encode []) with (@nil Value). by rewrite processTuple_loop_nil.
  - apply Forall_cons in Hbelow as [He Hbelow].
    pose proof (fills_nonneg conv entries) as Hnn.
    rewrite processTuple_loop_cons. unfold scanning.
    rewrite (proj2 (N.ltb_lt _ _) Htag), andb_true_r.
    rewrite (proj2 (N.ltb_ge _ _) (N.lt_le_incl _ _ He)).
    cbn [fills] in Hroom. unfold requested in Hroom. cbn [fullScan].
    destruct (Z.ltb_spec filled valsToFill) as [Hfree|Hfull].
    + destruct (tagToSqlColIdx conv !! e.1) as [idx|] eqn:Hm.
      * rewrite bool_decide_eq_true_2 in Hroom by eauto.
        destruct (index (cols conv) idx) as [col|]; [|done].
        destruct (TypeInfo col (Some e.2)) as [x [err|]];
          destruct (inRange row idx); try done.
        apply IH; [done|done|lia].
      * rewrite bool_decide_eq_false_2 in Hroom by (by intros [? ?]).
        apply IH; [done|done|lia].
    + destruct (tagToSqlColIdx conv !! e.1) as [idx|] eqn:Hm.
      * rewrite bool_decide_eq_true_2 in Hroom by eauto. lia.
      * rewrite bool_decide_eq_false_2 in Hroom by (by intros [? ?]).
        rewrite fullScan_nothing_requested by lia. done.
Qed.

Lemma requested_NoDup conv entries :
  NoDup entries.*1 ->
  NoDup ((filter (fun e => requested conv e) entries).*1).
Proof.
  induction entries as [|e entries IH]; intros Hnd; [constructor|].
  rewrite fmap_cons in Hnd. apply NoDup_cons in Hnd as [Hnew Hnd].
  rewrite filter_cons. destruct (decide _); [|by apply IH].
  rewrite fmap_cons. apply NoDup_cons. split; [|by apply IH].
  intros Hin. apply Hnew.
  apply list_elem_of_fmap in Hin as (e' & Heq & He').
  apply list_elem_of_filter in He' as [_ He'].
  apply list_elem_of_fmap. eauto.
Qed.

(** A tuple with distinct tags has no more requested entries than the
    columns that can hold them. *)
Lemma fills_bounded conv entries (f : Column SqlVal -> bool) columns :
  NoDup entries.*1 ->
  (forall e, e ∈ entries -> requested conv e = true ->
     exists c, c ∈ columns /\ Tag c = e.1 /\ f c = true) ->
  fills conv entries <= Z.of_nat (length (filter (fun c => f c) columns)).
Proof.
  intros Hnd Hcols. rewrite fills_length. apply inj_le.
  rewrite <- (length_fmap fst), <- (length_fmap Tag).
  apply submseteq_length, NoDup_submseteq; [by apply requested_NoDup|].
  intros tag Htag. apply list_elem_of_fmap in Htag as (e & -> & He).
  apply list_elem_of_filter in He as [Hreq He].
  destruct (Hcols e He) as (c & Hc & <- & Hf);
    [by destruct (requested conv e)|].
  apply list_elem_of_fmap_2, list_elem_of_filter. split; [|done].
  by rewrite Hf.
Qed.

Lemma key_scan_is_full_scan m columns (width : Z) row entries :
  let conv := NewKVToSqlRowConverter m columns width in
  NoDup entries.*1 ->
  Forall (fun e => (e.1 < MaxUint64)%N) entries ->
  (forall e, e ∈ entries -> is_Some (m !! e.1) ->
     exists c, c ∈ columns /\ Tag c = e.1 /\ IsPartOfPK c = true) ->
  scanResult (processTuple conv row (valsFromKey conv) MaxUint64
                           (encode entries))
  = fullScan conv row entries.
Proof.
  intros conv Hnd Hbelow Hcols.
  unfold processTuple, InitForTuple.
  apply processTuple_loop_fullScan_below; [done|done|].
  rewrite Z.add_0_l.
  replace (valsFromKey conv)
    with (Z.of_nat (length (filter (fun c => keyCol m c) columns)))
    by (unfold conv, NewKVToSqlRowConverter;
        by rewrite getValLocations_spec).
  apply fills_bounded; [done|].
  intros e He Hreq. unfold requested in Hreq.
  apply bool_decide_eq_true in Hreq.
  replace (tagToSqlColIdx conv) with m in Hreq
    by (unfold conv, NewKVToSqlRowConverter;
        by destruct (getValLocations m columns) as [[? ?] ?]).
  destruct (Hcols e He Hreq) as (c & Hc & Htag & Hpk).
  exists c. split; [done|]. split; [done|].
  unfold keyCol. rewrite Htag, Hpk. by rewrite bool_decide_eq_true_2.
Qed.

(** X7.  For a converter made by [NewKVToSqlRowConverter] and a well-formed
    key tuple with distinct tags below 2^64-1 whose requested tags all
    belong to key columns of the converter, the key scan -- which may stop
    once [valsFromKey] entries are converted -- leaves the row, and reports
    the error, that a scan of every entry does. *)
Theorem key_scan_refines_full_scan m columns (width : Z) row entries :
  let conv := NewKVToSqlRowConverter m columns width in
  NoDup entries.*1 ->
  Forall (fun e => (e.1 < MaxUint64)%N) entries ->
  (forall e, e ∈ entries -> is_Some (m !! e.1) ->
     exists c, c ∈ columns /\ Tag c = e.1 /\ IsPartOfPK c = true) ->
  scanResult (processTuple conv row (valsFromKey conv) MaxUint64
                           (encode entries))
  = fullScan conv row entries.
Proof. apply key_scan_is_full_scan. Qed.

(** X6.  For a converter made by [NewKVToSqlRowConverter], a well-formed
    value tuple with strictly ascending tags whose requested tags all belong
    to value columns of the converter, and a largest requested value tag
    other than 0, the value scan -- which stops once [valsFromVal] entries
    are converted, after the entry of the largest requested tag, or at the
    first larger tag -- leaves the row, and reports the error, that a scan
    of every entry does. *)
Theorem value_scan_refines_full_scan m columns (width : Z) row entries :
  let conv := NewKVToSqlRowConverter m columns width in
  ascending entries ->
  (forall e, e ∈ entries -> is_Some (m !! e.1) ->
     exists c, c ∈ columns /\ Tag c = e.1 /\ IsPartOfPK c = false) ->
  (0 < maxValTag conv)%N ->
  scanResult (processTuple conv row (valsFromVal conv) (maxValTag conv)
                           (encode entries))
  = fullScan conv row entries.
Proof. apply value_scan_is_full_scan. Qed.

(** ** What a conversion puts into the row *)

(** The scan of every entry, for convertible entries with distinct tags and
    a mapping that sends each tag to the index of its own column: every
    requested entry ends up converted in its slot, and the other slots keep
    what they held. *)
Lemma fullScan_fills conv entries :
  (forall tag idx c, tagToSqlColIdx conv !! tag = Some idx ->
                     index (cols conv) idx = Some c -> Tag c = tag) ->
  NoDup entries.*1 ->
  forall row,
    Forall (convertible conv (Z.of_nat (length row))) entries ->
    exists row',
      fullScan conv row entries = Returned (row', None) /\
      length row' = length row /\
      (forall e idx c,
         e ∈ entries -> tagToSqlColIdx conv !! e.1 = Some idx ->
         index (cols conv) idx = Some c ->
         row' !! Z.to_nat idx = Some (TypeInfo c (Some e.2)).1) /\
      (forall i : nat,
         (forall e, e ∈ entries ->
                    tagToSqlColIdx conv !! e.1 ≠ Some (Z.of_nat i)) ->
         row' !! i = row !! i).
Proof.
  intros Haligned.
  induction entries as [|e entries IH]; intros Hnd row Hok.
  - exists row. split; [done|]. split; [done|]. split; [|done].
    intros e idx c He. by apply elem_of_nil in He.
  - rewrite fmap_cons in Hnd. apply NoDup_cons in Hnd as [Hnew Hnd].
    apply Forall_cons in Hok as [He Hok]. cbn [fullScan].
    destruct (tagToSqlColIdx conv !! e.1) as [idx|] eqn:Hm.
    + destruct (He idx Hm) as (Hidx & col & x & Hcol & Hconv).
      rewrite Hcol, Hconv. rewrite (proj2 (inRange_spec row idx) Hidx).
      destruct (IH Hnd (<[Z.to_nat idx := x]> row))
        as (row' & Hrun & Hlen & Hfilled & Hframe);
        [by rewrite length_insert|].
      rewrite length_insert in Hlen.
      exists row'. split; [done|]. split; [done|]. split.
      * intros e0 idx0 c0 He0 Hm0 Hc0.
        apply elem_of_cons in He0 as [->|He0]; [|by eapply Hfilled].
        assert (idx0 = idx) as -> by congruence.
        assert (c0 = col) as -> by congruence.
        rewrite Hframe.
        -- rewrite list_lookup_insert_eq by lia. by rewrite Hconv.
        -- intros e1 He1 Hm1. rewrite Z2Nat.id in Hm1 by lia.
           apply Hnew. apply list_elem_of_fmap. exists e1. split; [|done].
           rewrite <- (Haligned e.1 idx col Hm Hcol).
           by rewrite <- (Haligned e1.1 idx col Hm1 Hcol).
      * intros i Hi. rewrite Hframe.
        -- apply list_lookup_insert_ne. intros Heq.
           apply (Hi e); [apply elem_of_cons; by left|].
           rewrite Hm. f_equal. lia.
        -- intros e1 He1. apply Hi, elem_of_cons. by right.
    + destruct (IH Hnd row Hok) as (row' & Hrun & Hlen & Hfilled & Hframe).
      exists row'. split; [done|]. split; [done|]. split.
      * intros e0 idx0 c0 He0 Hm0 Hc0.
        apply elem_of_cons in He0 as [->|He0]; [congruence|].
        by eapply Hfilled.
      * intros i Hi. apply Hframe. intros e1 He1.
        apply Hi, elem_of_cons. by right.
Qed.

Lemma ascending_NoDup entries : ascending entries -> NoDup entries.*1.
Proof.
  induction entries as [|e entries IH]; intros Hasc; [constructor|].
  apply StronglySorted_inv in Hasc as [Hasc Hlater].
  rewrite fmap_cons. apply NoDup_cons. split; [|by apply IH].
  intros Hin. apply list_elem_of_fmap in Hin as (e' & Heq & He').
  rewrite Forall_forall in Hlater. specialize (Hlater e' He'). lia.
Qed.

Lemma NewKVToSqlRowConverter_fields m columns (width : Z) :
  let conv := NewKVToSqlRowConverter m columns width in
  tagToSqlColIdx conv = m /\ cols conv = columns /\ rowSize conv = width /\
  valsFromKey conv
  = Z.of_nat (length (filter (fun c => keyCol m c) columns)) /\
  valsFromVal conv
  = Z.of_nat (length (filter (fun c => valueCol m c) columns)) /\
  maxValTag conv = maxValueTag m columns.
Proof.
  unfold NewKVToSqlRowConverter. by rewrite getValLocations_spec.
Qed.

(** One of the two scans of [ConvertKVToSqlRow], which is skipped when its
    counter is not positive. *)
Lemma scan_phase conv (count : Z) maxTag row row' entries :
  (0 < count ->
   scanResult (processTuple conv row count maxTag (encode entries))
   = fullScan conv row entries) ->
  (count <= 0 -> fills conv entries = 0) ->
  fullScan conv row entries = Returned (row', None) ->
  exists itr',
    (if 0 <? count
     then processTuple conv row count maxTag (encode entries)
     else Returned (row, [], None))
    = Returned (row', itr', None).
Proof.
  intros Hscan Hskip Hfull.
  destruct (Z.ltb_spec 0 count) as [Hpos|Hnone].
  - specialize (Hscan Hpos). rewrite Hfull in Hscan.
    destruct (processTuple _ _ _ _ _) as [[[r i] er]|]; [|done].
    injection Hscan as -> ->. eauto.
  - rewrite fullScan_nothing_requested in Hfull by auto.
    injection Hfull as <-. eauto.
Qed.

(** X8.  Take a converter made by [NewKVToSqlRowConverter] whose mapping
    sends every requested tag to the index of the column that carries it, a
    key tuple with distinct tags below 2^64-1 whose requested tags belong to
    key columns, and a value tuple with strictly ascending tags whose
    requested tags belong to value columns; let every requested entry be
    convertible, and let the largest requested value tag not be 0 (or no
    value column be requested).  Then [ConvertKVToSqlRow] returns a row of
    [rowSize] slots and no error; the slot of every requested tag stored in
    either tuple holds what the converter of its column makes of the stored
    value; every other slot is nil. *)
Theorem ConvertKVToSqlRow_fills_requested m columns (width : Z)
    (keyEntries valEntries : list (N * Value)) :
  let conv := NewKVToSqlRowConverter m columns width in
  0 <= width ->
  (forall tag idx c, m !! tag = Some idx -> index columns idx = Some c ->
                     Tag c = tag) ->
  Forall (convertible conv width) (keyEntries ++ valEntries) ->
  NoDup keyEntries.*1 ->
  Forall (fun e => (e.1 < MaxUint64)%N) keyEntries ->
  ascending valEntries ->
  (forall e idx c, e ∈ keyEntries -> m !! e.1 = Some idx ->
                   index columns idx = Some c -> IsPartOfPK c = true) ->
  (forall e idx c, e ∈ valEntries -> m !! e.1 = Some idx ->
                   index columns idx = Some c -> IsPartOfPK c = false) ->
  valsFromVal conv = 0 \/ (0 < maxValTag conv)%N ->
  exists row,
    ConvertKVToSqlRow conv (Some (Tuple (encode keyEntries)))
                      (Some (Tuple (encode valEntries)))
    = Returned (Some row, None) /\
    Z.of_nat (length row) = width /\
    (forall e idx c,
       e ∈ keyEntries ++ valEntries -> m !! e.1 = Some idx ->
       index columns idx = Some c ->
       row !! Z.to_nat idx = Some (TypeInfo c (Some e.2)).1) /\
    (forall i : nat,
       (i < length row)%nat ->
       (forall e, e ∈ keyEntries ++ valEntries ->
                  m !! e.1 ≠ Some (Z.of_nat i)) ->
       row !! i = Some None).
Proof.
  intros conv Hwidth Haligned Hok Hknd Hkmax Hasc Hkey Hval Htag0.
  destruct (NewKVToSqlRowConverter_fields m columns width)
    as (Hm & Hcols & Hsize & Hnkey & Hnval & Hmax).
  fold conv in Hm, Hcols, Hsize, Hnkey, Hnval, Hmax.
  apply Forall_app in Hok as [Hkok Hvok].
  assert (forall e idx, convertible conv width e -> m !! e.1 = Some idx ->
            exists c, index columns idx = Some c /\ c ∈ columns /\
                      Tag c = e.1) as Hcol.
  { intros e idx He Hidx. rewrite <- Hm in Hidx.
    destruct (He idx Hidx) as (Hr & c & x & Hc & _).
    rewrite Hcols in Hc. exists c. split; [done|].
    split; [|by apply (Haligned e.1 idx); [rewrite <- Hm|]].
    unfold index in Hc. destruct (idx <? 0); [done|].
    by apply list_elem_of_lookup_2 in Hc. }
  rewrite Forall_forall in Hkok, Hvok.
  assert (forall e, e ∈ keyEntries -> is_Some (m !! e.1) ->
            exists c, c ∈ columns /\ Tag c = e.1 /\ IsPartOfPK c = true)
    as Hkcols.
  { intros e He [idx Hidx].
    destruct (Hcol e idx (Hkok e He) Hidx) as (c & Hc & Hin & Htag).
    exists c. split; [done|]. split; [done|]. by eapply Hkey. }
  assert (forall e, e ∈ valEntries -> is_Some (m !! e.1) ->
            exists c, c ∈ columns /\ Tag c = e.1 /\ IsPartOfPK c = false)
    as Hvcols.
  { intros e He [idx Hidx].
    destruct (Hcol e idx (Hvok e He) Hidx) as (c & Hc & Hin & Htag).
    exists c. split; [done|]. split; [done|]. by eapply Hval. }
  assert (forall (f : Column SqlVal -> bool) (pk : bool) entries,
            (forall c, f c = bool_decide (is_Some (m !! Tag c))
                             && (if pk then IsPartOfPK c
                                 else negb (IsPartOfPK c))) ->
            NoDup entries.*1 ->
            (forall e, e ∈ entries -> is_Some (m !! e.1) ->
               exists c, c ∈ columns /\ Tag c = e.1 /\ IsPartOfPK c = pk) ->
            fills conv entries
            <= Z.of_nat (length (filter (fun c => f c) columns))) as Hbound.
  { intros f pk entries Hf Hnd Hin. apply fills_bounded; [done|].
    intros e He Hreq. unfold requested in Hreq.
    apply bool_decide_eq_true in Hreq. rewrite Hm in Hreq.
    destruct (Hin e He Hreq) as (c & Hc & Htag & Hpk).
    exists c. split; [done|]. split; [done|].
    rewrite Hf, Htag, Hpk, bool_decide_eq_true_2 by done. by destruct pk. }
  unfold ConvertKVToSqlRow. cbn [IsNull]. rewrite Hsize.
  rewrite (proj2 (Z.ltb_ge _ _) Hwidth).
  set (row0 := replicate (Z.to_nat width) None : Row SqlVal).
  assert (Z.of_nat (length row0) = width) as Hlen0
    by (unfold row0; rewrite length_replicate; lia).
  assert (forall tag idx c, tagToSqlColIdx conv !! tag = Some idx ->
            index (cols conv) idx = Some c -> Tag c = tag) as Haligned'
    by (by rewrite Hm, Hcols).
  (* the key scan *)
  destruct (fullScan_fills conv keyEntries Haligned' Hknd row0)
    as (row1 & Hfull1 & Hlen1 & Hfilled1 & Hframe1).
  { rewrite Hlen0. by apply Forall_forall. }
  destruct (scan_phase conv (valsFromKey conv) MaxUint64 row0 row1 keyEntries)
    as (itr1 & ->); [| |done|].
  { intros _. by apply key_scan_is_full_scan. }
  { intros Hnone. pose proof (fills_nonneg conv keyEntries).
    pose proof (Hbound (fun c => keyCol m c) true keyEntries
                  (fun c => eq_refl) Hknd Hkcols). lia. }
  (* the value scan *)
  pose proof (ascending_NoDup valEntries Hasc) as Hvnd.
  destruct (fullScan_fills conv valEntries Haligned' Hvnd row1)
    as (row2 & Hfull2 & Hlen2 & Hfilled2 & Hframe2).
  { rewrite Hlen1, Hlen0. by apply Forall_forall. }
  destruct (scan_phase conv (valsFromVal conv) (maxValTag conv) row1 row2
              valEntries) as (itr2 & ->); [| |done|].
  { intros Hpos. apply value_scan_is_full_scan; [done|done|].
    destruct Htag0 as [Hzero|Hgt]; [lia|done]. }
  { intros Hnone. pose proof (fills_nonneg conv valEntries).
    pose proof (Hbound (fun c => valueCol m c) false valEntries
                  (fun c => eq_refl) Hvnd Hvcols). lia. }
  exists row2. split; [done|]. split; [lia|]. split.
  - intros e idx c He Hidx Hc. apply elem_of_app in He as [He|He].
    + rewrite Hframe2.
      * apply (Hfilled1 e idx c He); [by rewrite Hm|by rewrite Hcols].
      * intros e' He' Hidx'.
        assert (0 <= idx) as Hpos.
        { rewrite <- Hm in Hidx. by destruct (Hkok e He idx Hidx) as [[? _] _]. }
        rewrite Z2Nat.id, Hm in Hidx' by done.
        pose proof (Hkey e idx c He Hidx Hc).
        pose proof (Hval e' idx c He' Hidx' Hc). congruence.
    + apply (Hfilled2 e idx c He); [by rewrite Hm|by rewrite Hcols].
  - intros i Hi Hfree. rewrite Hframe2, Hframe1.
    + apply lookup_replicate_2. lia.
    + intros e He. rewrite Hm. apply Hfree, elem_of_app. by left.
    + intros e He. rewrite Hm. apply Hfree, elem_of_app. by right.
Qed.

(** ** Malformed input *)

(** The scan runs through convertible entries that leave it room and that
    no tag stops, and goes on with what follows them. *)
Lemma processTuple_loop_prefix conv valsToFill maxTag pre :
  forall row filled tag64 itr,
    Forall (convertible conv (Z.of_nat (length row))) pre ->
    Forall (fun e => (e.1 < maxTag)%N) pre ->
    (tag64 < maxTag)%N ->
    filled + fills conv pre < valsToFill ->
    exists row' tag',
      length row' = length row /\ (tag' < maxTag)%N /\
      processTuple_loop conv valsToFill maxTag row filled tag64
                        (encode pre ++ itr)
      = processTuple_loop conv valsToFill maxTag row'
                          (filled + fills conv pre) tag' itr.
Proof.
  induction pre as [|e pre IH]; intros row filled tag64 itr Hok Hbelow Htag Hroom.
  - exists row, tag64. simpl. rewrite Z.add_0_r. done.
  - apply Forall_cons in Hok as [He Hok].
    apply Forall_cons in Hbelow as [Hlt Hbelow].
    pose proof (fills_nonneg conv pre) as Hnn.
    cbn [fills] in Hroom |- *. unfold requested in Hroom |- *.
    change (encode (e :: pre) ++ itr)
      with (Uint e.1 :: e.2 :: (encode pre ++ itr)).
    cbn [processTuple_loop NextVal Advance head].
    assert (filled < valsToFill) as Hfree
      by (destruct (bool_decide _); lia).
    rewrite (proj2 (Z.ltb_lt _ _) Hfree), (proj2 (N.ltb_lt _ _) Htag).
    rewrite (proj2 (N.ltb_ge _ _) (N.lt_le_incl _ _ Hlt)). cbn [andb].
    destruct (tagToSqlColIdx conv !! e.1) as [idx|] eqn:Hm.
    + rewrite bool_decide_eq_true_2 in Hroom |- * by eauto.
      destruct (He idx Hm) as (Hidx & col & x & -> & ->).
      rewrite (proj2 (inRange_spec row idx) Hidx).
      destruct (IH (<[Z.to_nat idx := x]> row) (filled + 1) e.1 itr)
        as (row' & tag' & Hlen & Htag' & ->);
        [by rewrite length_insert|done|done|lia|].
      exists row', tag'. rewrite length_insert in Hlen.
      split; [done|]. split; [done|]. f_equal; lia.
    + rewrite bool_decide_eq_false_2 in Hroom |- * by (by intros [? ?]).
      destruct (IH row filled e.1 itr) as (row' & tag' & Hlen & Htag' & ->);
        [done|done|done|lia|].
      exists row', tag'. split; [done|]. split; [done|]. f_equal; lia.
Qed.

(** X9.  A key tuple that is well formed up to some point, where the key
    scan is still looking for requested entries, and that holds anything but
    an unsigned integer in the next tag position makes [ConvertKVToSqlRow]
    panic: no error is returned for it. *)
Theorem non_integer_key_tag_panics conv (pre : list (N * Value))
    (bad : Value) (rest : list Value) (v : option Value) :
  IsNull v = true \/ isTuple v = true ->
  0 <= rowSize conv ->
  Forall (convertible conv (rowSize conv)) pre ->
  Forall (fun e => (e.1 < MaxUint64)%N) pre ->
  fills conv pre < valsFromKey conv ->
  (forall n, bad ≠ Uint n) ->
  ConvertKVToSqlRow conv (Some (Tuple (encode pre ++ bad :: rest))) v
  = Panicked.
Proof.
  intros Hv Hsize Hok Hbelow Hroom Hbad.
  pose proof (fills_nonneg conv pre) as Hnn.
  unfold ConvertKVToSqlRow.
  assert (exists valTup,
            (if IsNull v then Some zeroTuple
             else match v with Some (Tuple t) => Some t | _ => None end)
            = Some valTup) as [valTup ->].
  { destruct Hv as [->|Hv]; [eauto|]. destruct v as [[]|]; try done.
    destruct (IsNull _); eauto. }
  rewrite (proj2 (Z.ltb_ge _ _) Hsize).
  rewrite (proj2 (Z.ltb_lt 0 (valsFromKey conv)) ltac:(lia)).
  unfold processTuple, InitForTuple.
  destruct (processTuple_loop_prefix conv (valsFromKey conv) MaxUint64 pre
              (replicate (Z.to_nat (rowSize conv)) None) 0 0%N (bad :: rest))
    as (row' & tag' & Hlen & Htag' & ->); [|done|done|lia|].
  { rewrite length_replicate, Z2Nat.id by done. done. }
  cbn [processTuple_loop]. rewrite Z.add_0_l.
  rewrite (proj2 (Z.ltb_lt _ _) Hroom), (proj2 (N.ltb_lt _ _) Htag').
  cbn [andb]. destruct bad; try done. by destruct (Hbad n).
Qed.

(** X10.  A requested key entry whose mapped index lies outside the row, or
    outside the list of columns, makes [ConvertKVToSqlRow] panic when the
    key scan reaches it. *)
Theorem out_of_range_index_panics conv (pre : list (N * Value))
    (e : N * Value) (rest : list (N * Value)) (v : option Value) (idx : Z) :
  IsNull v = true \/ isTuple v = true ->
  0 <= rowSize conv ->
  Forall (convertible conv (rowSize conv)) pre ->
  Forall (fun e => (e.1 < MaxUint64)%N) (pre ++ [e]) ->
  fills conv pre < valsFromKey conv ->
  tagToSqlColIdx conv !! e.1 = Some idx ->
  idx < 0 \/ rowSize conv <= idx \/ Z.of_nat (length (cols conv)) <= idx ->
  ConvertKVToSqlRow conv (Some (Tuple (encode (pre ++ e :: rest)))) v
  = Panicked.
Proof.
  intros Hv Hsize Hok Hbelow Hroom Hm Hidx.
  apply Forall_app in Hbelow as [Hbelow He].
  apply Forall_cons in He as [He _].
  pose proof (fills_nonneg conv pre) as Hnn.
  unfold ConvertKVToSqlRow.
  assert (exists valTup,
            (if IsNull v then Some zeroTuple
             else match v with Some (Tuple t) => Some t | _ => None end)
            = Some valTup) as [valTup ->].
  { destruct Hv as [->|Hv]; [eauto|]. destruct v as [[]|]; try done.
    destruct (IsNull _); eauto. }
  rewrite (proj2 (Z.ltb_ge _ _) Hsize).
  rewrite (proj2 (Z.ltb_lt 0 (valsFromKey conv)) ltac:(lia)).
  unfold processTuple, InitForTuple.
  replace (encode (pre ++ e :: rest))
    with (encode pre ++ encode (e :: rest))
    by (unfold encode; by rewrite flat_map_app).
  set (row0 := replicate (Z.to_nat (rowSize conv)) None).
  destruct (processTuple_loop_prefix conv (valsFromKey conv) MaxUint64 pre
              row0 0 0%N (encode (e :: rest)))
    as (row' & tag' & Hlen & Htag' & ->); [|done|done|lia|].
  { unfold row0. rewrite length_replicate, Z2Nat.id by done. done. }
  rewrite processTuple_loop_cons. unfold scanning. rewrite Z.add_0_l.
  rewrite (proj2 (Z.ltb_lt _ _) Hroom), (proj2 (N.ltb_lt _ _) Htag').
  rewrite (proj2 (N.ltb_ge _ _) (N.lt_le_incl _ _ He)), Hm. cbn [andb].
  destruct (index (cols conv) idx) as [col|] eqn:Hcol; [|done].
  destruct (TypeInfo col (Some e.2)) as [x err].
  assert (inRange row' idx = false) as ->; [|done].
  apply not_true_is_false. rewrite inRange_spec, Hlen. unfold row0.
  rewrite length_replicate, Z2Nat.id by done.
  intros [Hlo Hhi]. destruct Hidx as [?|[?|Hcols]]; [lia|lia|].
  unfold index in Hcol. destruct (idx <? 0); [done|].
  apply lookup_lt_Some in Hcol. lia.
Qed.

(** ** Errors abort the whole call *)

(** A scan that runs through convertible entries and then stands on a
    requested entry whose converter fails returns that converter's error. *)
Lemma processTuple_loop_converter_fails conv valsToFill maxTag
    (pre : list (N * Value)) e (rest : list (N * Value))
    row filled tag64 idx col x err :
  Forall (convertible conv (Z.of_nat (length row))) pre ->
  Forall (fun e' => (e'.1 < maxTag)%N) pre ->
  (e.1 <= maxTag)%N ->
  (tag64 < maxTag)%N ->
  filled + fills conv pre < valsToFill ->
  tagToSqlColIdx conv !! e.1 = Some idx ->
  index (cols conv) idx = Some col ->
  0 <= idx < Z.of_nat (length row) ->
  TypeInfo col (Some e.2) = (x, Some err) ->
  exists row',
    processTuple_loop conv valsToFill maxTag row filled tag64
                      (encode (pre ++ e :: rest))
    = Returned (row', encode rest, Some err).
Proof.
  intros Hok Hbelow He Htag Hroom Hm Hcol Hidx Hconv.
  replace (encode (pre ++ e :: rest))
    with (encode pre ++ encode (e :: rest))
    by (unfold encode; by rewrite flat_map_app).
  destruct (processTuple_loop_prefix conv valsToFill maxTag pre
              row filled tag64 (encode (e :: rest)))
    as (row' & tag' & Hlen & Htag' & ->); [done|done|done|done|].
  rewrite processTuple_loop_cons. unfold scanning.
  rewrite (proj2 (Z.ltb_lt _ _) Hroom), (proj2 (N.ltb_lt _ _) Htag').
  rewrite (proj2 (N.ltb_ge _ _) He), Hm, Hcol, Hconv. cbn [andb].
  rewrite (proj2 (inRange_spec row' idx)) by (by rewrite Hlen).
  eauto.
Qed.

(** C5.  [ConvertKVToSqlRow] returns an error and no row
    - when the key is not a tuple,
    - when the value is neither absent nor a tuple,
    - when the converter invoked for an entry of the key tuple fails,
      wherever in the tuple the key scan reaches that entry: the entries
      stored before it are convertible, carry tags below the largest tag,
      and request fewer columns than the key columns wanted;
    - when, the key scan having gone through, the converter invoked for an
      entry of the value tuple fails, wherever in the tuple the value scan
      reaches that entry: the entries stored before it are convertible,
      carry tags below [maxValTag], and request fewer columns than the
      value columns wanted, and the entry's own tag is at most [maxValTag];
    the error returned is the converter's.  No row is ever returned
    together with an error, and a call that returns always returns one of
    the two. *)
Theorem ConvertKVToSqlRow_error_no_row conv :
  (forall k v, isTuple k = false ->
     ConvertKVToSqlRow conv k v
     = Returned (None, Some "invalid key is not a tuple"%string)) /\
  (forall keyTup v, IsNull v = false -> isTuple v = false ->
     ConvertKVToSqlRow conv (Some (Tuple keyTup)) v
     = Returned (None, Some "invalid value is not a tuple"%string)) /\
  (forall (pre : list (N * Value)) e (rest : list (N * Value)) v
          idx col x err,
     IsNull v = true \/ isTuple v = true ->
     0 <= rowSize conv ->
     Forall (convertible conv (rowSize conv)) pre ->
     Forall (fun e' => (e'.1 < MaxUint64)%N) pre ->
     (e.1 <= MaxUint64)%N ->
     fills conv pre < valsFromKey conv ->
     tagToSqlColIdx conv !! e.1 = Some idx ->
     index (cols conv) idx = Some col ->
     0 <= idx < rowSize conv ->
     TypeInfo col (Some e.2) = (x, Some err) ->
     ConvertKVToSqlRow conv (Some (Tuple (encode (pre ++ e :: rest)))) v
     = Returned (None, Some err)) /\
  (forall (keyEntries pre : list (N * Value)) e (rest : list (N * Value))
          idx col x err,
     0 <= rowSize conv ->
     Forall (convertible conv (rowSize conv)) keyEntries ->
     Forall (convertible conv (rowSize conv)) pre ->
     Forall (fun e' => (e'.1 < maxValTag conv)%N) pre ->
     (e.1 <= maxValTag conv)%N ->
     (0 < maxValTag conv)%N ->
     fills conv pre < valsFromVal conv ->
     tagToSqlColIdx conv !! e.1 = Some idx ->
     index (cols conv) idx = Some col ->
     0 <= idx < rowSize conv ->
     TypeInfo col (Some e.2) = (x, Some err) ->
     ConvertKVToSqlRow conv (Some (Tuple (encode keyEntries)))
                       (Some (Tuple (encode (pre ++ e :: rest))))
     = Returned (None, Some err)) /\
  (forall k v r err,
     ConvertKVToSqlRow conv k v = Returned (r, err) ->
     (r = None /\ is_Some err) \/ (is_Some r /\ err = None)).
Proof.
  repeat split.
  - intros k v Hk. by destruct k as [[]|].
  - intros keyTup v Hnull Hv. by destruct v as [[]|].
  - intros pre e rest v idx col x err
           Hv Hsize Hok Hbelow He Hroom Hm Hcol Hidx Hconv.
    pose proof (fills_nonneg conv pre) as Hnn.
    unfold ConvertKVToSqlRow.
    assert (exists valTup,
              (if IsNull v then Some zeroTuple
               else match v with Some (Tuple t) => Some t | _ => None end)
              = Some valTup) as [valTup ->].
    { destruct Hv as [->|Hv]; [eauto|]. destruct v as [[]|]; try done.
      destruct (IsNull _); eauto. }
    rewrite (proj2 (Z.ltb_ge _ _) Hsize).
    rewrite (proj2 (Z.ltb_lt 0 (valsFromKey conv)) ltac:(lia)).
    unfold processTuple, InitForTuple.
    set (row0 := replicate (Z.to_nat (rowSize conv)) None).
    assert (Z.of_nat (length row0) = rowSize conv) as Hlen0.
    { unfold row0. by rewrite length_replicate, Z2Nat.id. }
    destruct (processTuple_loop_converter_fails conv (valsFromKey conv)
                MaxUint64 pre e rest row0 0 0%N idx col x err)
      as [row' ->]; try done; by rewrite ?Hlen0.
  - intros keyEntries pre e rest idx col x err
           Hsize Hkey Hok Hbelow He Hmax Hroom Hm Hcol Hidx Hconv.
    pose proof (fills_nonneg conv pre) as Hnn.
    unfold ConvertKVToSqlRow. cbn [IsNull].
    rewrite (proj2 (Z.ltb_ge _ _) Hsize).
    set (row0 := replicate (Z.to_nat (rowSize conv)) None).
    assert (Z.of_nat (length row0) = rowSize conv) as Hlen0.
    { unfold row0. by rewrite length_replicate, Z2Nat.id. }
    assert (exists row1 itr1,
              (if 0 <? valsFromKey conv
               then processTuple conv row0 (valsFromKey conv) MaxUint64
                                 (encode keyEntries)
               else Returned (row0, [], None))
              = Returned (row1, itr1, None) /\
              length row1 = length row0) as (row1 & itr1 & -> & Hlen1).
    { destruct (0 <? valsFromKey conv); [|by exists row0, []].
      unfold processTuple, InitForTuple.
      destruct (processTuple_loop_returns conv (valsFromKey conv) MaxUint64
                  keyEntries row0 0 0%N) as (row1 & itr1 & Hrun);
        [by rewrite Hlen0|].
      exists row1, itr1. split; [done|].
      by apply processTuple_loop_frame in Hrun as [? _]. }
    rewrite (proj2 (Z.ltb_lt 0 (valsFromVal conv)) ltac:(lia)).
    unfold processTuple, InitForTuple.
    destruct (processTuple_loop_converter_fails conv (valsFromVal conv)
                (maxValTag conv) pre e rest row1 0 0%N idx col x err)
      as [row' ->]; try done; by rewrite ?Hlen1, ?Hlen0.
  - intros k v r err. unfold ConvertKVToSqlRow.
    destruct k as [[]|]; try (intros [= <- <-]; left; eauto).
    destruct (if IsNull v then _ else _);
      [|intros [= <- <-]; left; eauto].
    destruct (rowSize conv <? 0); [done|].
    destruct (if 0 <? valsFromKey conv then _ else _)
      as [[[row1 itr1] [e|]]|]; [intros [= <- <-]; left; eauto| |done].
    destruct (if 0 <? valsFromVal conv then _ else _)
      as [[[row2 itr2] [e|]]|]; [intros [= <- <-]; left; eauto| |done].
    intros [= <- <-]. right. eauto.
Qed.

(** ** Where the scan leaves the cursor *)

(** X11.  When a scan returns, the value of the first entry whose tag
    exceeds [maxTag], and everything stored after it, is still ahead of the
    cursor: the scan converts or skips no value at or beyond that entry. *)
Theorem scan_stops_at_larger_tag conv valsToFill maxTag
    (pre : list (N * Value)) e (rest : list (N * Value)) :
  (maxTag < e.1)%N ->
  forall row filled tag64 row' itr' err,
    processTuple_loop conv valsToFill maxTag row filled tag64
                      (encode (pre ++ e :: rest))
    = Returned (row', itr', err) ->
    (e.2 :: encode rest) `suffix_of` itr'.
Proof.
  intros Hbig.
  assert (forall (l : list (N * Value)),
            (e.2 :: encode rest) `suffix_of` encode (l ++ e :: rest))
    as Hwhole.
  { intros l. unfold encode. rewrite flat_map_app. simpl.
    apply suffix_app_r. by apply suffix_cons_r. }
  induction pre as [|p pre IH]; intros row filled tag64 row' itr' err.
  - change ([] ++ e :: rest) with (e :: rest).
    rewrite processTuple_loop_cons.
    destruct (scanning _ _ _ _);
      [|intros [= _ <- _]; apply (Hwhole [])].
    rewrite (proj2 (N.ltb_lt _ _) Hbig). by intros [= _ <- _].
  - change ((p :: pre) ++ e :: rest) with (p :: (pre ++ e :: rest)).
    rewrite processTuple_loop_cons.
    destruct (scanning _ _ _ _);
      [|intros [= _ <- _]; apply (Hwhole (p :: pre))].
    destruct (maxTag <? p.1)%N.
    { intros [= _ <- _]. apply suffix_cons_r, Hwhole. }
    destruct (tagToSqlColIdx conv !! p.1) as [idx|]; [|apply IH].
    destruct (index (cols conv) idx) as [col|]; [|done].
    destruct (TypeInfo col (Some p.2)) as [x [er|]];
      destruct (inRange row idx); try done; [|apply IH].
    intros [= _ <- _]. apply Hwhole.
Qed.

End ProjectorMore.

(** * The row source iterator *)

Section RowSourceFacts.

Context {SqlVal : Type}.

(** X12.  A [DoltMapIter] reading through [GetGetFuncForMapIter], without a
    close callback: successive calls of [Next] return, for the results of
    the map iterator in order, the conversion of each pair and the error of
    each failed read -- an error does not end the iteration -- and from the
    end of the map on every call returns no row and [io.EOF]. *)
Theorem DoltMapIter_rows_then_EOF (conv : KVToSqlRowConverter SqlVal)
    (mapItr : MapIterator) (n : nat) :
  nextN (NewDoltMapIter GetGetFuncForMapIter None conv)
        (length mapItr + n) mapItr
  = (stepResult conv <$> mapItr) ++ replicate n (Returned (None, Some io_EOF)).
Proof.
  induction mapItr as [|st mapItr IH].
  - induction n as [|n IHn]; [done|].
    simpl in *. by rewrite IHn.
  - cbn [length Nat.add nextN]. unfold DoltMapIter_Next.
    cbn [kvGet NewDoltMapIter dmi_conv].
    destruct st as [k v|err]; cbn; by rewrite <- IH.
Qed.

End RowSourceFacts.

(** * Further properties of the auto-sizing stage *)

Section StageMore.

Import fwt.

Context {PropVal TooLongBehavior : Type}.
Context (Transform : @FWTTransformer TooLongBehavior -> row_Row ->
                     gmap string PropVal ->
                     list (@TransformedRowResult PropVal) * string).
Context (StringWidth RuneCount : string -> Z).
Context (stopChan pickStop : nat -> bool).

Implicit Types (asTr : @AutoSizingFWTTransformer PropVal TooLongBehavior).
Implicit Types (ch : @Chans PropVal) (r : @RowWithProps PropVal).
Implicit Types (rows : list (@RowWithProps PropVal)).
Implicit Types (pw mr : gmap N Z) (tag : N).

Lemma bump_le cur o : cur <= bump cur o.
Proof. destruct o; simpl; lia. Qed.

(** X13.  While the stage samples, a row whose values for the columns of
    the schema are nulls and strings is appended to the end of the buffer
    and nothing else happens to the queues: nothing is emitted and the stop
    channel is not polled.  No learned width shrinks, the widths of the
    columns of the schema take the row into account, and no entry appears
    for a tag outside the schema. *)
Theorem handleRow_sampling_buffers asTr r ch buf :
  rowBuffer asTr = Some buf ->
  numSamples asTr <= 0 \/ Z.of_nat (length buf) < numSamples asTr ->
  stringsOnly (sch asTr) r ->
  exists pw mr,
    handleRow Transform StringWidth RuneCount stopChan asTr r ch
    = Returned (with_rowBuffer (with_widths asTr pw mr) (Some (buf ++ [r])),
                ch) /\
    (forall t, mapGet (printWidths asTr) t <= mapGet pw t /\
               mapGet (maxRunes asTr) t <= mapGet mr t) /\
    (forall t, t ∈ sch asTr ->
       mapGet pw t
       = bump (mapGet (printWidths asTr) t) (observe StringWidth t r) /\
       mapGet mr t
       = bump (mapGet (maxRunes asTr) t) (observe RuneCount t r)) /\
    (forall t, t ∉ sch asTr ->
       pw !! t = printWidths asTr !! t /\ mr !! t = maxRunes asTr !! t).
Proof.
  intros Hbuf Hroom Hok. unfold handleRow. rewrite Hbuf.
  assert ((numSamples asTr <=? 0)
          || (Z.of_nat (length buf) <? numSamples asTr) = true) as ->.
  { apply orb_true_iff. rewrite Z.leb_le, Z.ltb_lt. done. }
  destruct (IterSchema_returns StringWidth RuneCount r (sch asTr) Hok
              (printWidths asTr) (maxRunes asTr))
    as (pw & mr & -> & Hin & Hout).
  exists pw, mr. split; [done|]. split; [|done].
  intros t. destruct (decide (t ∈ sch asTr)) as [Ht|Ht].
  - destruct (Hin t Ht) as [-> ->]. split; apply bump_le.
  - destruct (Hout t Ht) as [Hp Hm]. unfold mapGet. by rewrite Hp, Hm.
Qed.

(** *** The stage once it has its formatter *)

(** A stage without buffer and with a formatter passes every row through
    the formatter and stays as it is. *)
Lemma materialized_run asTr tr rows :
  (forall t, stopChan t = false) ->
  rowBuffer asTr = None ->
  fwtTr asTr = Some tr ->
  forall ch1 ch2,
    outChan ch1 = outChan ch2 -> badRowChan ch1 = badRowChan ch2 ->
    exists ch1' flushed,
      TransformToFWT Transform StringWidth RuneCount stopChan pickStop
                     asTr ch1 rows
      = Returned {| stage := asTr; chans := ch1'; unread := [];
                    cancelled := false |} /\
      replay Transform asTr ch2 rows = Returned flushed /\
      outChan ch1' = outChan flushed /\ badRowChan ch1' = badRowChan flushed.
Proof.
  intros Hnever Hbuf Htr.
  induction rows as [|r rows IH]; intros ch1 ch2 Hout Hbad.
  - cbn [TransformToFWT replay]. unfold poll. rewrite !Hnever. cbn.
    unfold flush. rewrite Htr, Hbuf. cbn.
    replace (with_rowBuffer asTr None) with asTr
      by (destruct asTr; simpl in *; by subst).
    by eexists _, ch2.
  - cbn [TransformToFWT replay]. unfold poll. rewrite !Hnever. cbn.
    unfold handleRow. rewrite Hbuf.
    set (ch1a := {| outChan := outChan ch1; badRowChan := badRowChan ch1;
                    polls := S (S (polls ch1)) |}).
    destruct (processRow_returns Transform asTr tr r ch1a Htr)
      as (ch1b & Hrun1 & _ & _).
    destruct (processRow_queues Transform asTr r ch1a ch2 ch1b Hrun1 Hout Hbad)
      as (ch2b & Hrun2 & Hout' & Hbad').
    rewrite Hrun1, Hrun2. cbn. by apply IH.
Qed.

(** X14.  Once the stage has dropped its buffer and has a formatter, and
    no cancellation occurs, it passes every further row through that
    formatter, in order, until the input ends: the queues receive what
    replaying the rows through the formatter puts on them, and the stage --
    its learned widths and its formatter -- is left exactly as it was. *)
Theorem materialized_stage_passes_through asTr tr ch rows :
  (forall t, stopChan t = false) ->
  rowBuffer asTr = None ->
  fwtTr asTr = Some tr ->
  exists ch' flushed,
    TransformToFWT Transform StringWidth RuneCount stopChan pickStop
                   asTr ch rows
    = Returned {| stage := asTr; chans := ch'; unread := [];
                  cancelled := false |} /\
    replay Transform asTr ch rows = Returned flushed /\
    outChan ch' = outChan flushed /\ badRowChan ch' = badRowChan flushed.
Proof.
  intros Hnever Hbuf Htr.
  by apply (materialized_run asTr tr rows Hnever Hbuf Htr ch ch).
Qed.

(** *** The run across the sample threshold *)

Lemma replay_app asTr ch rows1 rows2 :
  replay Transform asTr ch (rows1 ++ rows2)
  = ch' ← replay Transform asTr ch rows1; replay Transform asTr ch' rows2.
Proof.
  revert ch. induction rows1 as [|r rows1 IH]; intros ch; [done|].
  cbn [app replay]. destruct (processRow Transform asTr r ch); [|done].
  cbn. apply IH.
Qed.

(** The rows a sampling stage has room for are all buffered. *)
Lemma sampling_prefix :
  (forall t, stopChan t = false) ->
  forall sample asTr ch buf more,
    rowBuffer asTr = Some buf ->
    numSamples asTr <= 0 \/
      Z.of_nat (length buf + length sample) <= numSamples asTr ->
    Forall (stringsOnly (sch asTr)) sample ->
    exists pw mr ch',
      TransformToFWT Transform StringWidth RuneCount stopChan pickStop
                     asTr ch (sample ++ more)
      = TransformToFWT Transform StringWidth RuneCount stopChan pickStop
          (with_rowBuffer (with_widths asTr pw mr) (Some (buf ++ sample)))
          ch' more /\
      outChan ch' = outChan ch /\ badRowChan ch' = badRowChan ch /\
      (forall t, t ∈ sch asTr ->
         mapGet pw t
         = foldl (fun cur r => bump cur (observe StringWidth t r))
                 (mapGet (printWidths asTr) t) sample /\
         mapGet mr t
         = foldl (fun cur r => bump cur (observe RuneCount t r))
                 (mapGet (maxRunes asTr) t) sample) /\
      (forall t, t ∉ sch asTr ->
         pw !! t = printWidths asTr !! t /\ mr !! t = maxRunes asTr !! t).
Proof.
  intros Hnever.
  induction sample as [|r sample IH]; intros asTr ch buf more Hbuf Hroom Hok.
  - exists (printWidths asTr), (maxRunes asTr), ch.
    rewrite app_nil_r. cbn [app].
    replace (with_rowBuffer _ _) with asTr
      by (destruct asTr; simpl in *; by subst).
    done.
  - apply Forall_cons in Hok as [Hr Hok].
    cbn [app TransformToFWT]. unfold poll. rewrite !Hnever. cbn.
    unfold handleRow. rewrite Hbuf.
    assert ((numSamples asTr <=? 0)
            || (Z.of_nat (length buf) <? numSamples asTr) = true) as ->.
    { apply orb_true_iff. rewrite Z.leb_le, Z.ltb_lt. simpl in Hroom. lia. }
    destruct (IterSchema_returns StringWidth RuneCount r (sch asTr) Hr
                (printWidths asTr) (maxRunes asTr))
      as (pw1 & mr1 & -> & Hin1 & Hout1).
    cbn.
    set (asTr' := with_rowBuffer (with_widths asTr pw1 mr1)
                                 (Some (buf ++ [r]))).
    set (ch2 := {| outChan := outChan ch; badRowChan := badRowChan ch;
                   polls := S (S (polls ch)) |}).
    destruct (IH asTr' ch2 (buf ++ [r]) more)
      as (pw & mr & ch' & Hrun & Hout & Hbad & Hin & Hother);
      [done| |done|].
    { simpl. rewrite length_app. simpl in *. lia. }
    exists pw, mr, ch'. rewrite Hrun, <- app_assoc.
    split; [done|]. split; [done|]. split; [done|]. split.
    + intros t Ht. destruct (Hin t Ht) as [-> ->].
      destruct (Hin1 t Ht) as [Hp Hm]. cbn. by rewrite <- Hp, <- Hm.
    + intros t Ht. destruct (Hother t Ht) as [-> ->]. by apply Hout1.
Qed.

(** One turn of the loop of [TransformToFWT] when the stop channel is not
    closed. *)
Lemma TransformToFWT_cons asTr ch r rows :
  (forall t, stopChan t = false) ->
  TransformToFWT Transform StringWidth RuneCount stopChan pickStop
                 asTr ch (r :: rows)
  = '(asTr', ch') ← handleRow Transform StringWidth RuneCount stopChan asTr r
                      {| outChan := outChan ch; badRowChan := badRowChan ch;
                         polls := S (S (polls ch)) |};
    TransformToFWT Transform StringWidth RuneCount stopChan pickStop
                   asTr' ch' rows.
Proof.
  intros Hnever. cbn [TransformToFWT]. unfold poll. by rewrite !Hnever.
Qed.

(** The row that finds the sample full: the buffer is replayed through a
    formatter built from the learned widths and dropped; the row itself goes
    nowhere. *)
Lemma handleRow_threshold asTr r ch buf :
  (forall t, stopChan t = false) ->
  rowBuffer asTr = Some buf ->
  fwtTr asTr = None ->
  0 < numSamples asTr <= Z.of_nat (length buf) ->
  exists ch' flushed,
    handleRow Transform StringWidth RuneCount stopChan asTr r ch
    = Returned (materialized asTr (printWidths asTr) (maxRunes asTr), ch') /\
    replay Transform (materialized asTr (printWidths asTr) (maxRunes asTr))
           ch buf
    = Returned flushed /\
    outChan ch' = outChan flushed /\ badRowChan ch' = badRowChan flushed.
Proof.
  intros Hnever Hbuf Htr Hfull. unfold handleRow. rewrite Hbuf.
  assert ((numSamples asTr <=? 0)
          || (Z.of_nat (length buf) <? numSamples asTr) = false) as ->.
  { apply orb_false_iff. rewrite Z.leb_gt, Z.ltb_ge. lia. }
  unfold flush. rewrite Htr.
  set (tr := NewFWTTransformer _ _).
  destruct (flush_loop_never Transform stopChan (with_fwtTr asTr tr) tr buf
              Hnever eq_refl ch ch 0 eq_refl eq_refl)
    as (ch' & flushed & Hloop & Hreplay & Hout & Hbad).
  destruct (replay_queues Transform (with_fwtTr asTr tr)
              (materialized asTr (printWidths asTr) (maxRunes asTr)) buf
              eq_refl ch ch flushed eq_refl eq_refl Hreplay)
    as (flushed' & Hreplay' & Hout' & Hbad').
  exists ch', flushed'.
  replace (default [] (rowBuffer (with_fwtTr asTr tr))) with buf
    by (simpl; by rewrite Hbuf).
  rewrite Hloop. cbn.
  split; [by destruct asTr|]. split; [done|]. split; congruence.
Qed.

(** X15.  With a positive sample size [n], no cancellation, and an input
    that holds more than [n] rows of which the first [n] hold only nulls and
    strings for the columns of the schema: the run reads all input and ends
    normally; the formatter is built from the widths observed in the first
    [n] rows alone, and later rows never change them; the queues hold what
    replaying, in order, the first [n] rows and the rows from the
    [n+2]-th on through that formatter puts on them.  The [n+1]-th row, on
    whose arrival the buffer is flushed, is not put on any queue. *)
Theorem run_across_sample_threshold sch bhv n ch
    (sample : list (@RowWithProps PropVal)) r rest :
  (forall t, stopChan t = false) ->
  0 < n ->
  Z.of_nat (length sample) = n ->
  Forall (stringsOnly sch) sample ->
  exists pw mr ch' flushed,
    TransformToFWT Transform StringWidth RuneCount stopChan pickStop
                   (NewAutoSizingFWTTransformer sch bhv n) ch
                   (sample ++ r :: rest)
    = Returned {| stage := materialized
                             (NewAutoSizingFWTTransformer sch bhv n) pw mr;
                  chans := ch'; unread := []; cancelled := false |} /\
    (forall tag, tag ∈ sch ->
       mapGet pw tag = maxObserved StringWidth tag sample /\
       mapGet mr tag = maxObserved RuneCount tag sample) /\
    (forall tag, tag ∉ sch -> pw !! tag = None /\ mr !! tag = None) /\
    replay Transform
           (materialized (NewAutoSizingFWTTransformer sch bhv n) pw mr)
           ch (sample ++ rest)
    = Returned flushed /\
    outChan ch' = outChan flushed /\ badRowChan ch' = badRowChan flushed.
Proof.
  intros Hnever Hpos Hlen Hok.
  set (asTr0 := NewAutoSizingFWTTransformer sch bhv n).
  destruct (sampling_prefix Hnever sample asTr0 ch [] (r :: rest) eq_refl)
    as (pw & mr & ch1 & Hrun & Hout1 & Hbad1 & Hin & Hother);
    [right; simpl; lia|done|].
  cbn [app] in Hrun.
  set (asTr1 := with_rowBuffer (with_widths asTr0 pw mr) (Some sample)) in *.
  set (asTr2 := materialized asTr0 pw mr).
  set (ch2 := {| outChan := outChan ch1; badRowChan := badRowChan ch1;
                 polls := S (S (polls ch1)) |}).
  destruct (handleRow_threshold asTr1 r ch2 sample Hnever eq_refl eq_refl)
    as (ch3 & flushed1 & Hstep & Hreplay1 & Hout3 & Hbad3);
    [cbn; lia|].
  change (materialized asTr1 (printWidths asTr1) (maxRunes asTr1))
    with asTr2 in Hstep, Hreplay1.
  destruct (materialized_run asTr2 _ rest Hnever eq_refl eq_refl
              ch3 flushed1 Hout3 Hbad3)
    as (ch4 & flushed2 & Hrest & Hreplay2 & Hout4 & Hbad4).
  destruct (replay_queues Transform asTr2 asTr2 sample eq_refl
              ch2 ch flushed1 Hout1 Hbad1 Hreplay1)
    as (flushed1' & Hreplay1' & Ho1 & Hb1).
  destruct (replay_queues Transform asTr2 asTr2 rest eq_refl
              flushed1 flushed1' flushed2 Ho1 Hb1 Hreplay2)
    as (flushed & Hreplay & Ho & Hb).
  exists pw, mr, ch4, flushed.
  split; [|split; [|split; [|split; [|split; congruence]]]].
  - rewrite Hrun, TransformToFWT_cons by done.
    fold ch2. rewrite Hstep. exact Hrest.
  - intros tag Htag. destruct (Hin tag Htag) as [-> ->].
    rewrite !foldl_bump_maxObserved by done.
    pose proof (maxObserved_nonneg StringWidth tag sample).
    pose proof (maxObserved_nonneg RuneCount tag sample).
    unfold mapGet. cbn. rewrite lookup_empty. simpl. lia.
  - intros tag Htag. by destruct (Hother tag Htag) as [-> ->].
  - change (replay Transform asTr2 ch (sample ++ rest) = Returned flushed).
    rewrite replay_app, Hreplay1'. exact Hreplay.
Qed.

(** *** Runs under any cancellation *)

Lemma flush_loop_returns asTr tr rest :
  fwtTr asTr = Some tr ->
  forall ch i,
    exists ch' stopped,
      flush_loop Transform stopChan asTr ch i rest = Returned (ch', stopped).
Proof.
  intros Htr. induction rest as [|r rest IH]; intros ch i; [by eexists _, _|].
  cbn [flush_loop].
  destruct (processRow_returns Transform asTr tr r ch Htr) as (ch1 & -> & _).
  cbn. destruct (i mod 100 =? 0); [|apply IH].
  unfold poll. destruct (stopChan (polls ch1)); [by eexists _, _|apply IH].
Qed.

Lemma flush_returns asTr ch :
  exists asTr' ch',
    flush Transform stopChan asTr ch = Returned (asTr', ch') /\
    is_Some (fwtTr asTr') /\ sch asTr' = sch asTr.
Proof.
  unfold flush.
  set (asTr1 := match fwtTr asTr with None => _ | Some _ => asTr end).
  assert (is_Some (fwtTr asTr1) /\ sch asTr1 = sch asTr) as [[tr Htr] Hsch].
  { unfold asTr1. destruct (fwtTr asTr) eqn:Htr; [by eauto|]. by eauto. }
  destruct (flush_loop_returns asTr1 tr (default [] (rowBuffer asTr1)) Htr
              ch 0) as (ch' & stopped & ->).
  cbn. destruct stopped; eexists _, _; (split; [done|]); eauto.
Qed.

Lemma handleRow_returns asTr r ch :
  (rowBuffer asTr = None -> is_Some (fwtTr asTr)) ->
  stringsOnly (sch asTr) r ->
  exists asTr' ch',
    handleRow Transform StringWidth RuneCount stopChan asTr r ch
    = Returned (asTr', ch') /\
    (rowBuffer asTr' = None -> is_Some (fwtTr asTr')) /\
    sch asTr' = sch asTr.
Proof.
  intros Hinv Hok. unfold handleRow.
  destruct (rowBuffer asTr) as [buf|] eqn:Hbuf.
  - destruct (_ || _).
    + destruct (IterSchema_returns StringWidth RuneCount r (sch asTr) Hok
                  (printWidths asTr) (maxRunes asTr))
        as (pw & mr & -> & _).
      cbn. by eexists _, _.
    + destruct (flush_returns asTr ch) as (asTr' & ch' & -> & Htr & Hsch).
      by eexists _, _.
  - destruct (Hinv eq_refl) as [tr Htr].
    destruct (processRow_returns Transform asTr tr r ch Htr) as (ch' & -> & _).
    cbn. eexists _, _. split; [done|]. split; [|done]. by rewrite Hbuf.
Qed.


(** *** What a replay puts on the queues *)

Lemma processRow_contents asTr tr r ch :
  fwtTr asTr = Some tr ->
  processRow Transform asTr r ch
  = Returned {| outChan := outChan ch ++ option_list (forwarded Transform tr r);
                badRowChan :=
                  badRowChan ch ++ option_list (rejected Transform tr r);
                polls := polls ch |}.
Proof.
  intros Htr. unfold processRow, forwarded, rejected. rewrite Htr.
  destruct (Transform tr (Row r) (Props r)) as [rds errMsg].
  destruct errMsg as [|a errMsg].
  - cbn. destruct rds as [|rd [|]]; cbn; rewrite ?app_nil_r;
      try (by destruct ch).
    unfold send_out, ReadableMap_Set. do 4 f_equal.
    destruct (decide (PropertyUpdates rd = ∅)) as [Heq|Hne].
    + by rewrite Heq, map_size_empty.
    + assert (size (PropertyUpdates rd) ≠ 0%nat)
        by (by intros ?%map_size_empty_inv).
      destruct (Z.ltb_spec 0 (Z.of_nat (size (PropertyUpdates rd))));
        [done|lia].
  - cbn. by rewrite app_nil_r.
Qed.

(** X18.  Replaying rows through a formatter appends to the output queue,
    in the order of the rows, what the formatter forwards for the rows it
    accepts with a single result, and to the error queue, in the order of
    the rows, one failure -- carrying the row, the name of this stage and the
    message -- for each row it rejects.  A rejected row does not keep later
    rows from being forwarded. *)
Theorem replay_contents asTr tr rows ch :
  fwtTr asTr = Some tr ->
  replay Transform asTr ch rows
  = Returned {| outChan := outChan ch ++ omap (forwarded Transform tr) rows;
                badRowChan :=
                  badRowChan ch ++ omap (rejected Transform tr) rows;
                polls := polls ch |}.
Proof.
  intros Htr. revert ch.
  induction rows as [|r rows IH]; intros ch.
  - cbn. rewrite !app_nil_r. by destruct ch.
  - cbn [replay]. rewrite (processRow_contents asTr tr r ch Htr). cbn.
    rewrite IH. cbn [outChan badRowChan polls].
    rewrite <- !app_assoc. do 2 f_equal.
    + by destruct (forwarded Transform tr r).
    + by destruct (rejected Transform tr r).
Qed.

(** *** The end of the input during sampling *)

(** What a replay that returns has appended to the queues. *)
Lemma replay_appends asTr tr rows :
  fwtTr asTr = Some tr ->
  forall ch flushed,
    replay Transform asTr ch rows = Returned flushed ->
    outChan flushed = outChan ch ++ omap (forwarded Transform tr) rows /\
    badRowChan flushed = badRowChan ch ++ omap (rejected Transform tr) rows.
Proof.
  intros Htr. induction rows as [|r rows IH]; intros ch flushed.
  - intros [= <-]. cbn. by rewrite !app_nil_r.
  - cbn [replay]. rewrite (processRow_contents asTr tr r ch Htr). cbn.
    intros Hrun. apply IH in Hrun as [-> ->]. cbn [outChan badRowChan].
    rewrite <- !app_assoc. split; f_equal.
    + by destruct (forwarded Transform tr r).
    + by destruct (rejected Transform tr r).
Qed.

(** C7.  When the stop channel is never closed and the input ends while the
    stage is still sampling -- the sample size is not positive, or the input
    has no more rows than the sample size -- and every row holds only nulls
    and strings for the columns of the schema, then [TransformToFWT] returns
    normally with all input read; the formatter was built from the schema,
    the too-long behaviour and exactly the learned width maps; for every
    column of the schema the learned print width (rune count) is the largest
    display width (rune count) observed for that tag over the rows, and the
    maps have no entry for any other tag and no entry at all when there was
    no row; and every row has gone through that formatter, in the order of
    the input: the output queue has received what the formatter forwards
    for the rows it accepts, the error queue one failure for each row it
    rejects, and nothing else. *)
Theorem end_of_input_flushes_sample sch bhv n ch rows :
  (forall t, stopChan t = false) ->
  n <= 0 \/ Z.of_nat (length rows) <= n ->
  Forall (stringsOnly sch) rows ->
  exists pw mr run,
    TransformToFWT Transform StringWidth RuneCount stopChan pickStop
                   (NewAutoSizingFWTTransformer sch bhv n) ch rows
    = Returned run /\
    unread run = [] /\ cancelled run = false /\
    rowBuffer (stage run) = None /\
    fwtTr (stage run)
    = Some (NewFWTTransformer (NewFWTSchemaWithWidths sch pw mr) bhv) /\
    (forall tag, tag ∈ sch ->
       mapGet pw tag = maxObserved StringWidth tag rows /\
       mapGet mr tag = maxObserved RuneCount tag rows) /\
    (forall tag, tag ∉ sch -> pw !! tag = None /\ mr !! tag = None) /\
    (rows = [] -> pw = ∅ /\ mr = ∅) /\
    outChan (chans run)
    = outChan ch
      ++ omap (forwarded Transform
                 (NewFWTTransformer (NewFWTSchemaWithWidths sch pw mr) bhv))
              rows /\
    badRowChan (chans run)
    = badRowChan ch
      ++ omap (rejected Transform
                 (NewFWTTransformer (NewFWTSchemaWithWidths sch pw mr) bhv))
              rows.
Proof.
  intros Hnever Hroom Hok.
  destruct (sampling_run Transform StringWidth RuneCount stopChan pickStop
              Hnever rows (NewAutoSizingFWTTransformer sch bhv n) ch []
              eq_refl eq_refl)
    as (pw & mr & ch' & flushed & Hrun & Hin & Hout & Hnil & Hreplay & Hq);
    [done|done|].
  apply (replay_appends _ (NewFWTTransformer
                             (NewFWTSchemaWithWidths sch pw mr) bhv))
    in Hreplay as [Hfw Hrej]; [|done].
  destruct Hq as [Hqo Hqb]. rewrite Hfw in Hqo. rewrite Hrej in Hqb.
  eexists pw, mr, _. split; [exact Hrun|].
  cbn in *. repeat split; try done.
  - destruct (Hin tag) as [-> _]; [done|].
    rewrite foldl_bump_maxObserved by done.
    pose proof (maxObserved_nonneg StringWidth tag rows). unfold mapGet.
    rewrite lookup_empty. simpl. lia.
  - destruct (Hin tag) as [_ ->]; [done|].
    rewrite foldl_bump_maxObserved by done.
    pose proof (maxObserved_nonneg RuneCount tag rows). unfold mapGet.
    rewrite lookup_empty. simpl. lia.
  - by destruct (Hout tag) as [-> _].
  - by destruct (Hout tag) as [_ ->].
  - by destruct Hnil as [-> _].
  - by destruct Hnil as [_ ->].
Qed.

(** *** The polls of a replay *)

(** One turn of the replay, with what [processRow] puts on the queues
    written out. *)
Lemma flush_loop_cons asTr tr r rest ch i :
  fwtTr asTr = Some tr ->
  flush_loop Transform stopChan asTr ch i (r :: rest)
  = if i mod 100 =? 0 then
      if stopChan (polls ch) then
        Returned
          ({| outChan := outChan ch ++ omap (forwarded Transform tr) [r];
              badRowChan := badRowChan ch ++ omap (rejected Transform tr) [r];
              polls := S (polls ch) |}, true)
      else
        flush_loop Transform stopChan asTr
          {| outChan := outChan ch ++ omap (forwarded Transform tr) [r];
             badRowChan := badRowChan ch ++ omap (rejected Transform tr) [r];
             polls := S (polls ch) |} (i + 1) rest
    else
      flush_loop Transform stopChan asTr
        {| outChan := outChan ch ++ omap (forwarded Transform tr) [r];
           badRowChan := badRowChan ch ++ omap (rejected Transform tr) [r];
           polls := polls ch |} (i + 1) rest.
Proof.
  intros Htr. cbn [flush_loop].
  rewrite (processRow_contents asTr tr r ch Htr).
  replace (omap (forwarded Transform tr) [r])
    with (option_list (forwarded Transform tr r))
    by (cbn; by destruct (forwarded Transform tr r)).
  replace (omap (rejected Transform tr) [r])
    with (option_list (rejected Transform tr r))
    by (cbn; by destruct (rejected Transform tr r)).
  cbn. destruct (i mod 100 =? 0); [|done].
  by destruct (stopChan (polls ch)).
Qed.

(** The replay from index [i] on, [d] rows before the next index that is a
    multiple of 100, when the poll that finds the stop channel closed is
    the one after [k] others: it returns at the row of that poll. *)
Lemma flush_loop_cancelled_at asTr tr rest :
  fwtTr asTr = Some tr ->
  forall ch i (d k : nat),
    0 <= i -> Z.of_nat d = (- i) mod 100 ->
    (forall j, (j < k)%nat -> stopChan (polls ch + j) = false) ->
    stopChan (polls ch + k) = true ->
    (d + 100 * k < length rest)%nat ->
    flush_loop Transform stopChan asTr ch i rest
    = Returned
        ({| outChan := outChan ch
                       ++ omap (forwarded Transform tr)
                               (take (d + 100 * k + 1) rest);
            badRowChan := badRowChan ch
                          ++ omap (rejected Transform tr)
                                  (take (d + 100 * k + 1) rest);
            polls := polls ch + k + 1 |}, true).
Proof.
  intros Htr.
  induction rest as [|r rest IH]; intros ch i d k Hi Hd Hopen Hclosed Hlen;
    [cbn [length] in Hlen; lia|].
  cbn [length] in Hlen.
  rewrite (flush_loop_cons asTr tr r rest ch i Htr).
  replace (take (d + 100 * k + 1) (r :: rest))
    with ([r] ++ take (d + 100 * k) rest)
    by (by replace (d + 100 * k + 1)%nat with (S (d + 100 * k)) by lia).
  rewrite !omap_app, !app_assoc.
  destruct (Z.eqb_spec (i mod 100) 0) as [Hmod|Hmod].
  - assert (d = 0%nat) as -> by (clear -Hmod Hd; Z.div_mod_to_equations; lia).
    destruct k as [|k].
    + rewrite Nat.add_0_r in Hclosed. rewrite Hclosed.
      rewrite Nat.mul_0_r, take_0. cbn [omap]. rewrite !app_nil_r.
      do 3 f_equal. lia.
    + rewrite <- (Nat.add_0_r (polls ch)) at 1.
      rewrite (Hopen 0%nat) by lia.
      rewrite (IH _ (i + 1) 99%nat k); cbn [outChan badRowChan polls].
      * replace (99 + 100 * k + 1)%nat with (0 + 100 * S k)%nat by lia.
        do 3 f_equal. lia.
      * lia.
      * clear -Hmod Hi. Z.div_mod_to_equations. lia.
      * intros j Hj. rewrite <- (Hopen (S j)) by lia. f_equal. lia.
      * rewrite <- Hclosed. f_equal. lia.
      * lia.
  - assert (exists d', d = S d') as [d' ->].
    { destruct d; [|by eauto]. exfalso.
      clear -Hmod Hd Hi. Z.div_mod_to_equations. lia. }
    rewrite (IH _ (i + 1) d' k); cbn [outChan badRowChan polls].
    + replace (d' + 100 * k + 1)%nat with (S d' + 100 * k)%nat by lia.
      done.
    + lia.
    + clear -Hmod Hd Hi. Z.div_mod_to_equations. lia.
    + done.
    + done.
    + lia.
Qed.

(** The same replay when none of the polls it comes to finds the stop
    channel closed: it goes through all the rows. *)
Lemma flush_loop_not_cancelled asTr tr rest :
  fwtTr asTr = Some tr ->
  forall ch i (d : nat),
    0 <= i -> Z.of_nat d = (- i) mod 100 ->
    (forall j, (j < (length rest + 99 - d) / 100)%nat ->
               stopChan (polls ch + j) = false) ->
    flush_loop Transform stopChan asTr ch i rest
    = Returned
        ({| outChan := outChan ch ++ omap (forwarded Transform tr) rest;
            badRowChan := badRowChan ch ++ omap (rejected Transform tr) rest;
            polls := polls ch + (length rest + 99 - d) / 100 |}, false).
Proof.
  intros Htr.
  induction rest as [|r rest IH]; intros ch i d Hi Hd Hopen.
  - pose proof (Z.mod_pos_bound (- i) 100).
    cbn [flush_loop omap length]. rewrite Nat.div_small by lia.
    rewrite !app_nil_r, Nat.add_0_r. by destruct ch.
  - cbn [length] in Hopen |- *.
    rewrite (flush_loop_cons asTr tr r rest ch i Htr).
    change (r :: rest) with ([r] ++ rest).
    rewrite !omap_app, !app_assoc.
    destruct (Z.eqb_spec (i mod 100) 0) as [Hmod|Hmod].
    + assert (d = 0%nat) as ->
        by (clear -Hmod Hd; Z.div_mod_to_equations; lia).
      assert ((S (length rest) + 99 - 0) / 100
              = S ((length rest + 99 - 99) / 100))%nat as Hn.
      { replace (S (length rest) + 99 - 0)%nat
          with (1 * 100 + (length rest + 99 - 99))%nat by lia.
        by rewrite Nat.div_add_l. }
      rewrite Hn in Hopen |- *.
      rewrite <- (Nat.add_0_r (polls ch)) at 1.
      rewrite (Hopen 0%nat) by lia.
      rewrite (IH _ (i + 1) 99%nat); cbn [outChan badRowChan polls].
      * do 3 f_equal. lia.
      * lia.
      * clear -Hmod Hi. Z.div_mod_to_equations. lia.
      * intros j Hj. rewrite <- (Hopen (S j)) by lia. f_equal. lia.
    + assert (exists d', d = S d') as [d' ->].
      { destruct d; [|by eauto]. exfalso.
        clear -Hmod Hd Hi. Z.div_mod_to_equations. lia. }
      replace (S (length rest) + 99 - S d')%nat
        with (length rest + 99 - d')%nat in Hopen |- * by lia.
      rewrite (IH _ (i + 1) d'); cbn [outChan badRowChan polls].
      * done.
      * lia.
      * clear -Hmod Hd Hi. Z.div_mod_to_equations. lia.
      * done.
Qed.

(** X17.  A replay of the buffer polls the stop channel after the rows at
    indexes 0, 100, 200, ... and nowhere else.  When the poll that finds
    the stop channel closed is the one after [k] others and the buffer has
    a row at index [100 * k], the replay is cancelled there: it has sent
    the rows up to that index, and no other, through the formatter and has
    polled [k + 1] times.  When none of the first ceil(n/100) polls finds
    the stop channel closed, the replay sends all [n] rows through the
    formatter and polls exactly that many times. *)
Theorem flush_loop_polls_every_100 asTr tr rest ch :
  fwtTr asTr = Some tr ->
  (forall k : nat,
     (forall j, (j < k)%nat -> stopChan (polls ch + j) = false) ->
     stopChan (polls ch + k) = true ->
     (100 * k < length rest)%nat ->
     flush_loop Transform stopChan asTr ch 0 rest
     = Returned
         ({| outChan := outChan ch
                        ++ omap (forwarded Transform tr)
                                (take (100 * k + 1) rest);
             badRowChan := badRowChan ch
                           ++ omap (rejected Transform tr)
                                   (take (100 * k + 1) rest);
             polls := polls ch + k + 1 |}, true)) /\
  ((forall j, (j < (length rest + 99) / 100)%nat ->
              stopChan (polls ch + j) = false) ->
   flush_loop Transform stopChan asTr ch 0 rest
   = Returned
       ({| outChan := outChan ch ++ omap (forwarded Transform tr) rest;
           badRowChan := badRowChan ch ++ omap (rejected Transform tr) rest;
           polls := polls ch + (length rest + 99) / 100 |}, false)).
Proof.
  intros Htr. split.
  - intros k Hopen Hclosed Hlen.
    by apply (flush_loop_cancelled_at asTr tr rest Htr ch 0 0%nat k).
  - intros Hopen.
    rewrite (flush_loop_not_cancelled asTr tr rest Htr ch 0 0%nat);
      [by rewrite Nat.sub_0_r|done|done|].
    intros j Hj. apply Hopen. by rewrite Nat.sub_0_r in Hj.
Qed.

End StageMore.

(** * Cancellation *)


Section Cancellation.

Import fwt.

Context {PropVal TooLongBehavior : Type}.
Context (Transform : @FWTTransformer TooLongBehavior -> row_Row ->
                     gmap string PropVal ->
                     list (@TransformedRowResult PropVal) * string).
Context (StringWidth RuneCount : string -> Z).
Context (stopChan pickStop : nat -> bool).
Context (outTakes badTakes : nat -> bool).

Implicit Types (asTr : @AutoSizingFWTTransformer PropVal TooLongBehavior).
Implicit Types (ch : @Chans PropVal) (r : @RowWithProps PropVal).
Implicit Types (rows rest : list (@RowWithProps PropVal)).

(** With its sends able to block, [processRow] either waits in its send,
    having put nothing on the queues, or returns what [fwt.processRow]
    returns. *)
Lemma processRow_progress asTr tr r ch :
  fwtTr asTr = Some tr ->
  blocking.processRow Transform outTakes badTakes asTr r ch
  = blocking.Blocked ch \/
  exists ch',
    blocking.processRow Transform outTakes badTakes asTr r ch
    = blocking.Done ch' /\
    processRow Transform asTr r ch = Returned ch'.
Proof.
  intros Htr. unfold blocking.processRow, processRow. rewrite Htr.
  destruct (Transform tr (Row r) (Props r)) as [rds errMsg].
  destruct (negb (String.eqb errMsg "")).
  - unfold blocking.send_bad. destruct (badTakes _); eauto.
  - destruct rds as [|rd [|]]; eauto.
    unfold blocking.send_out. destruct (outTakes _); eauto.
Qed.

(** *** When every send completes *)

Lemma processRow_taken asTr r ch :
  (forall k, outTakes k = true) -> (forall k, badTakes k = true) ->
  blocking.processRow Transform outTakes badTakes asTr r ch
  = blocking.sendless (processRow Transform asTr r ch).
Proof.
  intros Hout Hbad. unfold blocking.processRow, processRow.
  destruct (fwtTr asTr) as [tr|]; [|done].
  destruct (Transform tr (Row r) (Props r)) as [rds errMsg].
  destruct (negb (String.eqb errMsg "")).
  - unfold blocking.send_bad. by rewrite Hbad.
  - destruct rds as [|rd [|]]; try done.
    unfold blocking.send_out. by rewrite Hout.
Qed.

Lemma flush_loop_taken asTr rest :
  (forall k, outTakes k = true) -> (forall k, badTakes k = true) ->
  forall ch i,
    blocking.flush_loop Transform stopChan outTakes badTakes asTr ch i rest
    = blocking.sendless (flush_loop Transform stopChan asTr ch i rest).
Proof.
  intros Hout Hbad. induction rest as [|r rest IH]; intros ch i; [done|].
  cbn [blocking.flush_loop flush_loop].
  rewrite processRow_taken by done.
  destruct (processRow Transform asTr r ch) as [ch1|]; [|done]. cbn.
  destruct (i mod 100 =? 0); [|apply IH].
  destruct (stopChan (polls ch1)); [done|apply IH].
Qed.

Lemma flush_taken asTr ch :
  (forall k, outTakes k = true) -> (forall k, badTakes k = true) ->
  blocking.flush Transform stopChan outTakes badTakes asTr ch
  = blocking.sendless (flush Transform stopChan asTr ch).
Proof.
  intros Hout Hbad. unfold blocking.flush, flush.
  rewrite flush_loop_taken by done.
  destruct (flush_loop _ _ _ _ _ _) as [[ch' [|]]|]; done.
Qed.

Lemma handleRow_taken asTr r ch :
  (forall k, outTakes k = true) -> (forall k, badTakes k = true) ->
  blocking.handleRow Transform StringWidth RuneCount stopChan
                     outTakes badTakes asTr r ch
  = blocking.sendless
      (handleRow Transform StringWidth RuneCount stopChan asTr r ch).
Proof.
  intros Hout Hbad. unfold blocking.handleRow, handleRow.
  destruct (rowBuffer asTr) as [buf|].
  - destruct (_ || _); [|by apply flush_taken].
    by destruct (IterSchema _ _ _ _ _) as [[pw mr]|].
  - rewrite processRow_taken by done.
    by destruct (processRow Transform asTr r ch).
Qed.

(** When the channels take every item, the stage with blocking sends does
    what the stage with plain queues does. *)
Lemma TransformToFWT_taken inChan :
  (forall k, outTakes k = true) -> (forall k, badTakes k = true) ->
  forall asTr ch,
    blocking.TransformToFWT Transform StringWidth RuneCount stopChan pickStop
                            outTakes badTakes asTr ch inChan
    = blocking.sendless
        (TransformToFWT Transform StringWidth RuneCount stopChan pickStop
                        asTr ch inChan).
Proof.
  intros Hout Hbad. induction inChan as [|r inChan IH]; intros asTr ch.
  - cbn [blocking.TransformToFWT TransformToFWT]. unfold poll.
    destruct (stopChan (polls ch)); [done|]. cbn.
    destruct (_ && _); [done|].
    rewrite flush_taken by done.
    by destruct (flush _ _ _ _) as [[asTr' ch']|].
  - cbn [blocking.TransformToFWT TransformToFWT]. unfold poll.
    destruct (stopChan (polls ch)); [done|]. cbn.
    destruct (_ && _); [done|].
    rewrite handleRow_taken by done.
    destruct (handleRow _ _ _ _ _ _ _) as [[asTr' ch']|]; [|done].
    cbn. apply IH.
Qed.

(** *** After the stop channel is closed *)

(** The replay from index [i] on, entered with the stop channel closed: it
    goes on up to the next index that is a multiple of 100 and returns
    there, unless it comes to wait in a send before. *)
Lemma flush_loop_stopped asTr tr rest :
  fwtTr asTr = Some tr ->
  forall ch i,
    0 <= i ->
    (forall t, (polls ch <= t)%nat -> stopChan t = true) ->
    exists ch',
      Z.of_nat (emitted ch')
      <= Z.of_nat (emitted ch) + (- i) mod 100 + 1 /\
      (blocking.flush_loop Transform stopChan outTakes badTakes
                           asTr ch i rest
       = blocking.Blocked ch' \/
       exists stopped,
         blocking.flush_loop Transform stopChan outTakes badTakes
                             asTr ch i rest
         = blocking.Done (ch', stopped) /\
         (stopped = false -> Z.of_nat (length rest) <= (- i) mod 100)).
Proof.
  intros Htr.
  induction rest as [|r rest IH]; intros ch i Hi Hstop.
  - exists ch. pose proof (Z.mod_pos_bound (- i) 100).
    split; [lia|]. right. exists false. split; [done|]. simpl. lia.
  - cbn [blocking.flush_loop].
    pose proof (Z.mod_pos_bound (- i) 100) as Hmodb.
    destruct (processRow_progress asTr tr r ch Htr)
      as [->|(ch1 & -> & Hrun)].
    { exists ch. split; [lia|]. by left. }
    destruct (processRow_returns Transform asTr tr r ch Htr)
      as (ch1' & Hrun' & Hpolls & Hem).
    rewrite Hrun in Hrun'. injection Hrun' as <-.
    cbn [blocking.andThen].
    destruct (Z.eqb_spec (i mod 100) 0) as [Hmod|Hmod].
    + unfold poll. rewrite Hstop by lia.
      eexists. split; [|right; exists true; split; [reflexivity|done]].
      change (emitted _) with (emitted ch1) at 1. lia.
    + destruct (IH ch1 (i + 1)) as (ch' & Hbound & Hres);
        [lia|by rewrite Hpolls|].
      assert ((- (i + 1)) mod 100 = (- i) mod 100 - 1) as Hstep.
      { clear -Hmod. Z.div_mod_to_equations. lia. }
      exists ch'. split; [lia|].
      destruct Hres as [->|(stopped & -> & Hrest)]; [by left|].
      right. exists stopped. split; [done|].
      intros Hs. specialize (Hrest Hs). simpl length. lia.
Qed.


End Cancellation.

(** * The generated struct *)

Section EnumStructFacts.

Import noms.

Context {Ref : Type} (CachedRef : Ref).

Lemma toUint32_toInt32 (x : Z) : 0 <= x < 2 ^ 32 -> toUint32 (toInt32 x) = x.
Proof.
  intros Hx. unfold toUint32, toInt32.
  change (2 ^ 32) with 4294967296 in *. change (2 ^ 31) with 2147483648.
  Z.div_mod_to_equations. lia.
Qed.

(** X19.  For every [Handedness] -- every unsigned 32-bit value, also one
    that does not fit a signed 32-bit integer and is stored wrapped --
    building the struct from a definition and reading the definition back
    gives the definition, and [Hand] reads the same value. *)
Theorem EnumStructDef_round_trip (def : EnumStructDef) :
  0 <= Hand def < 2 ^ 32 ->
  EnumStruct_Def (EnumStructDef_New CachedRef def) = Returned def /\
  EnumStruct_Hand (EnumStructDef_New CachedRef def) = Returned (Hand def).
Proof.
  intros Hrange. unfold EnumStruct_Def, EnumStruct_Hand, EnumStructDef_New.
  cbn [m NewMap foldl fst snd].
  rewrite lookup_insert_eq, toUint32_toInt32 by done. by destruct def.
Qed.

(** X20.  [SetHand] on any struct, even one built from an unvalidated map:
    [Hand] then reads the value that was set, the type reference is what it
    was, and of two [SetHand] in a row only the second counts. *)
Theorem SetHand_then_Hand (self : @EnumStruct Ref) (a val : Z) :
  0 <= val < 2 ^ 32 ->
  EnumStruct_Hand (EnumStruct_SetHand self val) = Returned val /\
  EnumStruct_Type (EnumStruct_SetHand self val) = EnumStruct_Type self /\
  EnumStruct_SetHand (EnumStruct_SetHand self a) val
  = EnumStruct_SetHand self val.
Proof.
  intros Hrange. unfold EnumStruct_Hand, EnumStruct_Type, EnumStruct_SetHand.
  cbn [m]. rewrite lookup_insert_eq, toUint32_toInt32 by done.
  rewrite lookup_insert_ne by done. by rewrite insert_insert_eq.
Qed.

(** X21.  [EnumStructFromVal] does not validate: it gives back the struct
    whose value it is handed, it panics on a value that is not a map, and a
    struct made from a map without an [Int32] under "hand" panics when
    [Hand] or [Def] is called. *)
Theorem EnumStructFromVal_unvalidated :
  (forall self : @EnumStruct Ref,
     EnumStructFromVal (EnumStruct_NomsValue self) = Returned self) /\
  (forall val : option (@Value Ref),
     (forall mp, val ≠ Some (Map mp)) -> EnumStructFromVal val = Panicked) /\
  (forall mp : gmap string (@Value Ref),
     (forall n, mp !! "hand"%string ≠ Some (Int32 n)) ->
     exists self,
       EnumStructFromVal (Some (Map mp)) = Returned self /\
       EnumStruct_Hand self = Panicked /\ EnumStruct_Def self = Panicked).
Proof.
  split; [|split].
  - by intros [mp].
  - intros val Hval. destruct val as [[| | |mp|]|]; try done.
    by destruct (Hval mp).
  - intros mp Hhand. eexists. split; [done|].
    unfold EnumStruct_Hand, EnumStruct_Def. cbn [m].
    destruct (mp !! "hand"%string) as [[]|]; try done; by destruct (Hhand n).
Qed.

End EnumStructFacts.

(** * The configuration paths *)

Section PathsFacts.

Import env.

Context (LookupEnv : string -> option string).
Context (userCurrent : string + error).
Context (Join : list string -> string) (DoltDir : string).

(** X22.  With [GetCurrentUserHomeDir] as the provider: when
    PARENT_OF_DOLT_ROOT_DIR is set to a directory other than the empty
    string, the credentials directory and the global configuration file are
    placed under that directory and no error is returned, whatever the
    lookup of the current user gives; when the variable is unset or empty
    and that lookup fails, both paths are empty and its error is
    returned. *)
Theorem home_dir_from_environment :
  (forall dir, LookupEnv doltRootParentDirEnvVar = Some dir -> dir ≠ ""%string ->
     getCredsDir Join DoltDir (GetCurrentUserHomeDir LookupEnv userCurrent)
     = (Join [dir; DoltDir; "creds"%string], None) /\
     getGlobalCfgPath Join DoltDir
                      (GetCurrentUserHomeDir LookupEnv userCurrent)
     = (Join [dir; DoltDir; "config_global.json"%string], None)) /\
  (forall err,
     LookupEnv doltRootParentDirEnvVar = None \/
       LookupEnv doltRootParentDirEnvVar = Some ""%string ->
     userCurrent = inr err ->
     getCredsDir Join DoltDir (GetCurrentUserHomeDir LookupEnv userCurrent)
     = (""%string, Some err) /\
     getGlobalCfgPath Join DoltDir
                      (GetCurrentUserHomeDir LookupEnv userCurrent)
     = (""%string, Some err)).
Proof.
  split.
  - intros dir Hdir Hne. unfold GetCurrentUserHomeDir. rewrite Hdir.
    assert (String.eqb dir "" = false) as -> by (by apply String.eqb_neq).
    done.
  - intros err Henv Huser. unfold GetCurrentUserHomeDir.
    destruct Henv as [->| ->]; rewrite Huser; done.
Qed.

End PathsFacts.

(** * The properties at concrete inputs *)

(** Membership in a list that is written out. *)
Local Ltac in_cases H :=
  repeat (apply elem_of_cons in H as [->|H]); [..|by apply elem_of_nil in H].

Lemma ConvertKVToSqlRow_row_width_witness :
  Z.of_nat (length [@None string; Some "30"%string])
  = rowSize SampleMore.convAge.
Proof.
  apply (ConvertKVToSqlRow_row_width SampleMore.convAge
           (Some (Tuple (encode [])))
           (Some (Tuple (encode [(2%N, String "Bob"); (5%N, String "30")])))
           [None; Some "30"%string] None).
  reflexivity.
Defined.

Lemma nothing_requested_row_is_nil_witness :
  ConvertKVToSqlRow SampleMore.convNone
    (Some (Tuple (encode [(9%N, String "x")]))) None
  = Returned (Some (replicate (Z.to_nat 2) None), None).
Proof.
  apply (nothing_requested_row_is_nil {[ 9%N := 0 ]} SampleMore.columns 2).
  - intros c Hc. in_cases Hc; reflexivity.
  - discriminate.
  - by left.
Defined.

Lemma ConvertKVToSqlRow_other_slots_nil_witness :
  [@None string; Some "30"%string] !! 0%nat = Some None.
Proof.
  apply (ConvertKVToSqlRow_other_slots_nil SampleMore.convAge []
           [(2%N, String "Bob"); (5%N, String "30")] _ None 0).
  - reflexivity.
  - intros e He. in_cases He; discriminate.
  - simpl. lia.
Defined.

Lemma key_scan_refines_full_scan_witness :
  scanResult
    (processTuple Sample.convKey1 [None] (valsFromKey Sample.convKey1)
                  MaxUint64 (encode [(2%N, String "b"); (1%N, String "a")]))
  = fullScan Sample.convKey1 [None] [(2%N, String "b"); (1%N, String "a")].
Proof.
  apply (key_scan_refines_full_scan {[ 1%N := 0 ]}
           [Sample.col 1 true; Sample.col 2 true; Sample.col 5 false] 1).
  - apply NoDup_cons. split; [|apply NoDup_singleton].
    intros H. apply list_elem_of_singleton in H. discriminate.
  - repeat constructor.
  - intros e He [idx Hidx]. in_cases He.
    + discriminate Hidx.
    + exists (Sample.col 1 true). split; [apply elem_of_cons; by left|done].
Defined.

Lemma value_scan_refines_full_scan_witness :
  scanResult
    (processTuple Sample.convVal13 [None; None]
                  (valsFromVal Sample.convVal13)
                  (maxValTag Sample.convVal13)
                  (encode [(1%N, String "a"); (5%N, String "c");
                           (9%N, String "d")]))
  = fullScan Sample.convVal13 [None; None]
             [(1%N, String "a"); (5%N, String "c"); (9%N, String "d")].
Proof.
  apply (value_scan_refines_full_scan {[ 1%N := 0; 3%N := 1 ]}
           [Sample.col 1 false; Sample.col 3 false; Sample.col 5 false;
            Sample.col 9 false] 2).
  - repeat constructor.
  - intros e He [idx Hidx]. in_cases He.
    + exists (Sample.col 1 false). split; [apply elem_of_cons; by left|done].
    + discriminate Hidx.
    + discriminate Hidx.
  - reflexivity.
Defined.

Lemma ConvertKVToSqlRow_fills_requested_witness :
  exists row,
    ConvertKVToSqlRow SampleMore.convAll
      (Some (Tuple (encode [(1%N, String "7")])))
      (Some (Tuple (encode [(2%N, String "Bob"); (5%N, String "30")])))
    = Returned (Some row, None) /\
    Z.of_nat (length row) = 4 /\
    (forall e idx c,
       e ∈ [(1%N, String "7")] ++ [(2%N, String "Bob"); (5%N, String "30")] ->
       ({[ 1%N := 0; 2%N := 1; 5%N := 2 ]} : gmap N Z) !! e.1 = Some idx ->
       index SampleMore.columns idx = Some c ->
       row !! Z.to_nat idx = Some (TypeInfo c (Some e.2)).1) /\
    (forall i : nat,
       (i < length row)%nat ->
       (forall e,
          e ∈ [(1%N, String "7")]
              ++ [(2%N, String "Bob"); (5%N, String "30")] ->
          ({[ 1%N := 0; 2%N := 1; 5%N := 2 ]} : gmap N Z) !! e.1
          ≠ Some (Z.of_nat i)) ->
       row !! i = Some None).
Proof.
  assert (forall tag idx,
            ({[ 1%N := 0; 2%N := 1; 5%N := 2 ]} : gmap N Z) !! tag = Some idx ->
            (tag = 1%N /\ idx = 0) \/ (tag = 2%N /\ idx = 1) \/
            (tag = 5%N /\ idx = 2)) as Hmap.
  { intros tag idx H.
    apply lookup_insert_Some in H as [[<- <-]|[_ H]]; [by left|].
    apply lookup_insert_Some in H as [[<- <-]|[_ H]]; [right; by left|].
    apply lookup_singleton_Some in H as [<- <-]. right; by right. }
  apply (ConvertKVToSqlRow_fills_requested
           {[ 1%N := 0; 2%N := 1; 5%N := 2 ]} SampleMore.columns 4).
  - discriminate.
  - intros tag idx c Hm Hc.
    destruct (Hmap tag idx Hm) as [[-> ->]|[[-> ->]|[-> ->]]];
      injection Hc as <-; reflexivity.
  - repeat (constructor; [intros idx Hidx;
                          destruct (Hmap _ _ Hidx) as [[? ->]|[[? ->]|[? ->]]];
                          try discriminate;
                          (split; [lia|]); eexists _, _; split; reflexivity|]).
    constructor.
  - apply NoDup_singleton.
  - repeat constructor.
  - repeat constructor.
  - intros e idx c He Hm Hc. in_cases He.
    destruct (Hmap _ _ Hm) as [[? ->]|[[? ->]|[? ->]]]; try discriminate.
    by injection Hc as <-.
  - intros e idx c He Hm Hc. in_cases He;
      destruct (Hmap _ _ Hm) as [[? ->]|[[? ->]|[? ->]]]; try discriminate;
      by injection Hc as <-.
  - right. reflexivity.
Defined.

Lemma non_integer_key_tag_panics_witness :
  ConvertKVToSqlRow Sample.convKey1
    (Some (Tuple (encode [(2%N, String "b")] ++ String "oops" :: []))) None
  = Panicked.
Proof.
  apply (non_integer_key_tag_panics Sample.convKey1 [(2%N, String "b")]
           (String "oops") [] None).
  - by left.
  - discriminate.
  - constructor; [|constructor]. intros idx Hidx. discriminate Hidx.
  - repeat constructor.
  - reflexivity.
  - discriminate.
Defined.

Lemma out_of_range_index_panics_witness :
  ConvertKVToSqlRow SampleMore.convWide
    (Some (Tuple (encode ([] ++ (1%N, String "a") :: [])))) None
  = Panicked.
Proof.
  apply (out_of_range_index_panics SampleMore.convWide [] (1%N, String "a")
           [] None 3).
  - by left.
  - discriminate.
  - constructor.
  - repeat constructor.
  - reflexivity.
  - reflexivity.
  - right. left. discriminate.
Defined.

Lemma scan_stops_at_larger_tag_witness :
  (String "c" :: encode [(9%N, String "d")])
    `suffix_of` [String "c"; Uint 9; String "d"].
Proof.
  apply (scan_stops_at_larger_tag Sample.convVal13 2 3%N
           [(1%N, String "a")] (5%N, String "c") [(9%N, String "d")]
           eq_refl [None; None] 0 0%N [Some "a"%string; None] _ None).
  reflexivity.
Defined.

Lemma textRow_stringsOnly (s : string) :
  @fwt.stringsOnly string [1%N] (Sample.textRow s).
Proof.
  intros tag Htag. apply list_elem_of_singleton in Htag as ->.
  right. eexists. reflexivity.
Defined.

Lemma handleRow_sampling_buffers_witness :
  exists pw mr,
    fwt.handleRow Sample.forward Sample.byteWidth Sample.byteWidth
      Sample.never (fwt.NewAutoSizingFWTTransformer [1%N] tt 0)
      (Sample.textRow "abc") Sample.noChans
    = Returned
        (fwt.with_rowBuffer
           (fwt.with_widths (fwt.NewAutoSizingFWTTransformer [1%N] tt 0)
                            pw mr)
           (Some ([] ++ [Sample.textRow "abc"])),
         Sample.noChans) /\
    (forall t, fwt.mapGet ∅ t <= fwt.mapGet pw t /\
               fwt.mapGet ∅ t <= fwt.mapGet mr t) /\
    (forall t, t ∈ [1%N] ->
       fwt.mapGet pw t
       = fwt.bump (fwt.mapGet ∅ t)
                  (fwt.observe Sample.byteWidth t (Sample.textRow "abc")) /\
       fwt.mapGet mr t
       = fwt.bump (fwt.mapGet ∅ t)
                  (fwt.observe Sample.byteWidth t (Sample.textRow "abc"))) /\
    (forall t, t ∉ [1%N] ->
       pw !! t = (∅ : gmap N Z) !! t /\ mr !! t = (∅ : gmap N Z) !! t).
Proof.
  apply (handleRow_sampling_buffers Sample.forward Sample.byteWidth
           Sample.byteWidth Sample.never
           (fwt.NewAutoSizingFWTTransformer [1%N] tt 0)
           (Sample.textRow "abc") Sample.noChans []).
  - reflexivity.
  - left. reflexivity.
  - apply textRow_stringsOnly.
Defined.

Lemma materialized_stage_passes_through_witness :
  exists ch' flushed,
    fwt.TransformToFWT Sample.forward Sample.byteWidth Sample.byteWidth
      Sample.never Sample.never Sample.ready Sample.noChans
      [Sample.textRow "a"; Sample.textRow "bb"]
    = Returned {| fwt.stage := Sample.ready; fwt.chans := ch';
                  fwt.unread := []; fwt.cancelled := false |} /\
    fwt.replay Sample.forward Sample.ready Sample.noChans
      [Sample.textRow "a"; Sample.textRow "bb"]
    = Returned flushed /\
    fwt.outChan ch' = fwt.outChan flushed /\
    fwt.badRowChan ch' = fwt.badRowChan flushed.
Proof.
  apply (materialized_stage_passes_through Sample.forward Sample.byteWidth
           Sample.byteWidth Sample.never Sample.never Sample.ready
           (fwt.NewFWTTransformer (fwt.NewFWTSchemaWithWidths [1%N] ∅ ∅) tt)).
  - reflexivity.
  - reflexivity.
  - reflexivity.
Defined.

Lemma run_across_sample_threshold_witness :
  exists pw mr ch' flushed,
    fwt.TransformToFWT Sample.forward Sample.byteWidth Sample.byteWidth
      Sample.never Sample.never
      (fwt.NewAutoSizingFWTTransformer [1%N] tt 1) Sample.noChans
      ([Sample.textRow "a"] ++ Sample.textRow "bb" :: [Sample.textRow "ccc"])
    = Returned
        {| fwt.stage :=
             fwt.materialized (fwt.NewAutoSizingFWTTransformer [1%N] tt 1)
                              pw mr;
           fwt.chans := ch'; fwt.unread := []; fwt.cancelled := false |} /\
    (forall tag, tag ∈ [1%N] ->
       fwt.mapGet pw tag
       = fwt.maxObserved Sample.byteWidth tag [Sample.textRow "a"] /\
       fwt.mapGet mr tag
       = fwt.maxObserved Sample.byteWidth tag [Sample.textRow "a"]) /\
    (forall tag, tag ∉ [1%N] -> pw !! tag = None /\ mr !! tag = None) /\
    fwt.replay Sample.forward
      (fwt.materialized (fwt.NewAutoSizingFWTTransformer [1%N] tt 1) pw mr)
      Sample.noChans ([Sample.textRow "a"] ++ [Sample.textRow "ccc"])
    = Returned flushed /\
    fwt.outChan ch' = fwt.outChan flushed /\
    fwt.badRowChan ch' = fwt.badRowChan flushed.
Proof.
  apply (run_across_sample_threshold Sample.forward Sample.byteWidth
           Sample.byteWidth Sample.never Sample.never [1%N] tt 1
           Sample.noChans [Sample.textRow "a"] (Sample.textRow "bb")
           [Sample.textRow "ccc"]).
  - reflexivity.
  - reflexivity.
  - reflexivity.
  - constructor; [apply textRow_stringsOnly|constructor].
Defined.


Lemma flush_loop_polls_every_100_witness :
  fwt.flush_loop Sample.forward SampleMore.fromSecond Sample.ready
    Sample.noChans 0 (replicate 150 (Sample.textRow "a"))
  = Returned
      ({| fwt.outChan :=
            fwt.outChan Sample.noChans
            ++ omap (fwt.forwarded Sample.forward
                       (fwt.NewFWTTransformer
                          (fwt.NewFWTSchemaWithWidths [1%N] ∅ ∅) tt))
                    (take (100 * 1 + 1) (replicate 150 (Sample.textRow "a")));
          fwt.badRowChan :=
            fwt.badRowChan Sample.noChans
            ++ omap (fwt.rejected Sample.forward
                       (fwt.NewFWTTransformer
                          (fwt.NewFWTSchemaWithWidths [1%N] ∅ ∅) tt))
                    (take (100 * 1 + 1) (replicate 150 (Sample.textRow "a")));
          fwt.polls := fwt.polls Sample.noChans + 1 + 1 |}, true) /\
  fwt.flush_loop Sample.forward Sample.never Sample.ready
    Sample.noChans 0 (replicate 150 (Sample.textRow "a"))
  = Returned
      ({| fwt.outChan :=
            fwt.outChan Sample.noChans
            ++ omap (fwt.forwarded Sample.forward
                       (fwt.NewFWTTransformer
                          (fwt.NewFWTSchemaWithWidths [1%N] ∅ ∅) tt))
                    (replicate 150 (Sample.textRow "a"));
          fwt.badRowChan :=
            fwt.badRowChan Sample.noChans
            ++ omap (fwt.rejected Sample.forward
                       (fwt.NewFWTTransformer
                          (fwt.NewFWTSchemaWithWidths [1%N] ∅ ∅) tt))
                    (replicate 150 (Sample.textRow "a"));
          fwt.polls :=
            fwt.polls Sample.noChans
            + (length (replicate 150 (Sample.textRow "a")) + 99) / 100 |},
       false).
Proof.
  split.
  - apply (proj1 (flush_loop_polls_every_100 Sample.forward
                    SampleMore.fromSecond Sample.ready
                    (fwt.NewFWTTransformer
                       (fwt.NewFWTSchemaWithWidths [1%N] ∅ ∅) tt)
                    (replicate 150 (Sample.textRow "a")) Sample.noChans
                    eq_refl) 1%nat).
    + intros j Hj. assert (j = 0%nat) as -> by lia. reflexivity.
    + reflexivity.
    + rewrite length_replicate. lia.
  - apply (proj2 (flush_loop_polls_every_100 Sample.forward
                    Sample.never Sample.ready
                    (fwt.NewFWTTransformer
                       (fwt.NewFWTSchemaWithWidths [1%N] ∅ ∅) tt)
                    (replicate 150 (Sample.textRow "a")) Sample.noChans
                    eq_refl)).
    intros j _. reflexivity.
Defined.

Lemma replay_contents_witness :
  fwt.replay SampleMore.picky Sample.ready Sample.noChans
    [Sample.textRow "a"; Sample.textRow ""; Sample.textRow "bb"]
  = Returned
      {| fwt.outChan :=
           fwt.outChan Sample.noChans
           ++ omap (fwt.forwarded SampleMore.picky
                      (fwt.NewFWTTransformer
                         (fwt.NewFWTSchemaWithWidths [1%N] ∅ ∅) tt))
                   [Sample.textRow "a"; Sample.textRow "";
                    Sample.textRow "bb"];
         fwt.badRowChan :=
           fwt.badRowChan Sample.noChans
           ++ omap (fwt.rejected SampleMore.picky
                      (fwt.NewFWTTransformer
                         (fwt.NewFWTSchemaWithWidths [1%N] ∅ ∅) tt))
                   [Sample.textRow "a"; Sample.textRow "";
                    Sample.textRow "bb"];
         fwt.polls := fwt.polls Sample.noChans |}.
Proof.
  apply (replay_contents SampleMore.picky Sample.ready
           (fwt.NewFWTTransformer (fwt.NewFWTSchemaWithWidths [1%N] ∅ ∅) tt)).
  reflexivity.
Defined.

Lemma EnumStructDef_round_trip_witness :
  noms.EnumStruct_Def
    (noms.EnumStructDef_New 7%N {| noms.Hand := 4294967295 |})
  = Returned {| noms.Hand := 4294967295 |} /\
  noms.EnumStruct_Hand
    (noms.EnumStructDef_New 7%N {| noms.Hand := 4294967295 |})
  = Returned 4294967295.
Proof.
  apply (EnumStructDef_round_trip 7%N {| noms.Hand := 4294967295 |}).
  split; [discriminate|reflexivity].
Defined.

Lemma SetHand_then_Hand_witness :
  noms.EnumStruct_Hand
    (noms.EnumStruct_SetHand (noms.NewEnumStruct 7%N) noms.Switch)
  = Returned noms.Switch /\
  noms.EnumStruct_Type
    (noms.EnumStruct_SetHand (noms.NewEnumStruct 7%N) noms.Switch)
  = noms.EnumStruct_Type (noms.NewEnumStruct 7%N) /\
  noms.EnumStruct_SetHand
    (noms.EnumStruct_SetHand (noms.NewEnumStruct 7%N) noms.Left) noms.Switch
  = noms.EnumStruct_SetHand (noms.NewEnumStruct 7%N) noms.Switch.
Proof.
  apply (SetHand_then_Hand (noms.NewEnumStruct 7%N) noms.Left noms.Switch).
  split; [discriminate|reflexivity].
Defined.

Lemma EnumStructFromVal_unvalidated_witness :
  noms.EnumStructFromVal (noms.EnumStruct_NomsValue (noms.NewEnumStruct 7%N))
  = Returned (noms.NewEnumStruct 7%N) /\
  noms.EnumStructFromVal (Some (@noms.Int32 N 3)) = Panicked /\
  exists self,
    noms.EnumStructFromVal (Some (@noms.Map N ∅)) = Returned self /\
    noms.EnumStruct_Hand self = Panicked /\
    noms.EnumStruct_Def self = Panicked.
Proof.
  destruct (@EnumStructFromVal_unvalidated N) as (Hback & Hother & Hhand).
  split; [apply Hback|]. split; [by apply Hother|].
  apply Hhand. intros n. by rewrite lookup_empty.
Defined.

Lemma home_dir_from_environment_witness :
  (env.getCredsDir SampleMore.joinSlash ".dolt"
     (env.GetCurrentUserHomeDir SampleMore.envSet (inr "no user"%string))
   = (SampleMore.joinSlash ["/data"; ".dolt"; "creds"]%string, None) /\
   env.getGlobalCfgPath SampleMore.joinSlash ".dolt"
     (env.GetCurrentUserHomeDir SampleMore.envSet (inr "no user"%string))
   = (SampleMore.joinSlash ["/data"; ".dolt"; "config_global.json"]%string,
      None)) /\
  (env.getCredsDir SampleMore.joinSlash ".dolt"
     (env.GetCurrentUserHomeDir (fun _ => None) (inr "no user"%string))
   = (""%string, Some "no user"%string) /\
   env.getGlobalCfgPath SampleMore.joinSlash ".dolt"
     (env.GetCurrentUserHomeDir (fun _ => None) (inr "no user"%string))
   = (""%string, Some "no user"%string)).
Proof.
  split.
  - apply (home_dir_from_environment SampleMore.envSet
             (inr "no user"%string) SampleMore.joinSlash ".dolt");
      [reflexivity|discriminate].
  - apply (home_dir_from_environment (fun _ => None)
             (inr "no user"%string) SampleMore.joinSlash ".dolt");
      [by left|reflexivity].
Defined.

(** A requested entry that holds a string is convertible. *)
Local Ltac string_entries :=
  repeat (constructor;
          [let idx := fresh "idx" in
           let Hidx := fresh "Hidx" in
           intros idx Hidx; vm_compute in Hidx; injection Hidx as <-;
           split; [vm_compute; split; [discriminate|reflexivity]|];
           eexists _, _; split; reflexivity|]);
  constructor.

Lemma ConvertKVToSqlRow_error_no_row_witness :
  ConvertKVToSqlRow SampleMore.convPairs (Some (String "k")) None
  = Returned (None, Some "invalid key is not a tuple"%string) /\
  ConvertKVToSqlRow SampleMore.convPairs (Some (Tuple [])) (Some (Uint 4))
  = Returned (None, Some "invalid value is not a tuple"%string) /\
  ConvertKVToSqlRow SampleMore.convPairs
    (Some (Tuple (encode ([(1%N, String "a")] ++ (2%N, Uint 7) :: []))))
    None
  = Returned (None, Some "not a string"%string) /\
  ConvertKVToSqlRow SampleMore.convPairs
    (Some (Tuple (encode [(1%N, String "a"); (2%N, String "b")])))
    (Some (Tuple (encode ([(5%N, String "x")] ++ (6%N, Uint 7) :: []))))
  = Returned (None, Some "not a string"%string) /\
  ((@None (Row string) = None /\ is_Some (Some "not a string"%string)) \/
   (is_Some (@None (Row string)) /\ Some "not a string"%string = None)).
Proof.
  destruct (ConvertKVToSqlRow_error_no_row SampleMore.convPairs)
    as (Hkey & Hval & Hkconv & Hvconv & Hexcl).
  assert (ConvertKVToSqlRow SampleMore.convPairs
            (Some (Tuple (encode ([(1%N, String "a")]
                                  ++ (2%N, Uint 7) :: [])))) None
          = Returned (None, Some "not a string"%string)) as Hrun.
  { apply (Hkconv [(1%N, String "a")] (2%N, Uint 7) [] None 1
                  (Sample.col 2 true) None "not a string"%string).
    - by left.
    - vm_compute. discriminate.
    - string_entries.
    - repeat constructor.
    - vm_compute. discriminate.
    - vm_compute. reflexivity.
    - reflexivity.
    - reflexivity.
    - vm_compute. split; [discriminate|reflexivity].
    - reflexivity. }
  split; [by apply Hkey|].
  split; [by apply Hval|].
  split; [exact Hrun|].
  split.
  { apply (Hvconv [(1%N, String "a"); (2%N, String "b")]
                  [(5%N, String "x")] (6%N, Uint 7) [] 3
                  (Sample.col 6 false) None "not a string"%string).
    - vm_compute. discriminate.
    - string_entries.
    - string_entries.
    - repeat constructor.
    - vm_compute. discriminate.
    - vm_compute. reflexivity.
    - vm_compute. reflexivity.
    - reflexivity.
    - reflexivity.
    - vm_compute. split; [discriminate|reflexivity].
    - reflexivity. }
  exact (Hexcl _ _ _ _ Hrun).
Defined.

Lemma end_of_input_flushes_sample_witness :
  exists pw mr run,
    fwt.TransformToFWT SampleMore.picky Sample.byteWidth Sample.byteWidth
      Sample.never Sample.never
      (fwt.NewAutoSizingFWTTransformer [1%N] tt 5) Sample.noChans
      [Sample.textRow "a"; Sample.textRow ""; Sample.textRow "ccc"]
    = Returned run /\
    fwt.unread run = [] /\ fwt.cancelled run = false /\
    fwt.rowBuffer (fwt.stage run) = None /\
    fwt.fwtTr (fwt.stage run)
    = Some (fwt.NewFWTTransformer
              (fwt.NewFWTSchemaWithWidths [1%N] pw mr) tt) /\
    (forall tag, tag ∈ [1%N] ->
       fwt.mapGet pw tag
       = fwt.maxObserved Sample.byteWidth tag
           [Sample.textRow "a"; Sample.textRow ""; Sample.textRow "ccc"] /\
       fwt.mapGet mr tag
       = fwt.maxObserved Sample.byteWidth tag
           [Sample.textRow "a"; Sample.textRow ""; Sample.textRow "ccc"]) /\
    (forall tag, tag ∉ [1%N] -> pw !! tag = None /\ mr !! tag = None) /\
    ([Sample.textRow "a"; Sample.textRow ""; Sample.textRow "ccc"] = [] ->
     pw = ∅ /\ mr = ∅) /\
    fwt.outChan (fwt.chans run)
    = fwt.outChan Sample.noChans
      ++ omap (fwt.forwarded SampleMore.picky
                 (fwt.NewFWTTransformer
                    (fwt.NewFWTSchemaWithWidths [1%N] pw mr) tt))
              [Sample.textRow "a"; Sample.textRow ""; Sample.textRow "ccc"] /\
    fwt.badRowChan (fwt.chans run)
    = fwt.badRowChan Sample.noChans
      ++ omap (fwt.rejected SampleMore.picky
                 (fwt.NewFWTTransformer
                    (fwt.NewFWTSchemaWithWidths [1%N] pw mr) tt))
              [Sample.textRow "a"; Sample.textRow ""; Sample.textRow "ccc"].
Proof.
  apply (end_of_input_flushes_sample SampleMore.picky Sample.byteWidth
           Sample.byteWidth Sample.never Sample.never [1%N] tt 5
           Sample.noChans).
  - reflexivity.
  - right. vm_compute. discriminate.
  - repeat (constructor; [apply textRow_stringsOnly|]). constructor.
Defined.

